(** * OpenPGP public-key packets (openpgp/packet/public_key.go) and the
      SHA-1 digest they are fingerprinted with (sha1/sha1.go)

    A shallow embedding of the Go sources.  Go values are modelled as the
    code has them: [byte] is [Byte.byte], slices are lists, [int], [uint32]
    and [uint64] are [Z] with the conversions that truncate written out,
    structs are records, an [error] is an optional error value, and a
    function that prints, panics or mutates its receiver lives in the small
    monad [M] below and returns the mutated object next to its result. *)

From Stdlib Require Import ZArith List String Ascii Strings.Byte Bool Lia.
From Stdlib Require Import Zcomplements DecimalString.

Set Warnings "-register-all".
Import ListNotations.

Local Open Scope string_scope.
Local Open Scope Z_scope.
Local Open Scope list_scope.

(* ================================================================== *)
(** * Go values *)

Module Go.

Definition byte := Byte.byte.

(** The integer a byte stands for: [int(b)], [uint32(b)], ... *)
Definition Z_of_byte (b : byte) : Z := Z.of_N (Byte.to_N b).

(** The conversion [byte(x)]: the low eight bits of [x]. *)
Definition u8 (x : Z) : byte :=
  match Byte.of_N (Z.to_N (x mod 256)) with
  | Some b => b
  | None => Byte.x00
  end.

Definition uint16 (x : Z) : Z := x mod 2 ^ 16.
Definition uint32 (x : Z) : Z := x mod 2 ^ 32.
Definition uint64 (x : Z) : Z := x mod 2 ^ 64.

(** [int] is 64 bits wide and signed. *)
Definition int (x : Z) : Z := (x + 2 ^ 63) mod 2 ^ 64 - 2 ^ 63.

(** [s[lo:]], [s[:hi]] and [s[lo:hi]] on indices that are in range. *)
Definition drop {A} (lo : Z) (s : list A) : list A := skipn (Z.to_nat lo) s.
Definition take {A} (hi : Z) (s : list A) : list A := firstn (Z.to_nat hi) s.
Definition slice {A} (lo hi : Z) (s : list A) : list A := take (hi - lo) (drop lo s).

(** [copy(dst[off:], src)] seen from the array behind [dst]: the number of
    elements copied is the smaller of the two lengths. *)
Definition copy {A} (dst : list A) (off : Z) (src : list A) : list A * Z :=
  let n := Z.min (Zlength dst - off) (Zlength src) in
  (take off dst ++ take n src ++ drop (off + n) dst, n).

(** [make([]byte, n)] *)
Definition make (n : Z) : list byte := repeat Byte.x00 (Z.to_nat n).

(** encoding/binary: [BigEndian.PutUint32], [PutUint64] and [Uint64]. *)
Definition PutUint32 (v : Z) : list byte :=
  [u8 (Z.shiftr v 24); u8 (Z.shiftr v 16); u8 (Z.shiftr v 8); u8 v].

Definition PutUint64 (v : Z) : list byte :=
  [u8 (Z.shiftr v 56); u8 (Z.shiftr v 48); u8 (Z.shiftr v 40); u8 (Z.shiftr v 32);
   u8 (Z.shiftr v 24); u8 (Z.shiftr v 16); u8 (Z.shiftr v 8); u8 v].

Definition Uint64 (b : list byte) : Z :=
  match b with
  | b0 :: b1 :: b2 :: b3 :: b4 :: b5 :: b6 :: b7 :: _ =>
      Z.lor (Z_of_byte b7)
        (Z.lor (Z.shiftl (Z_of_byte b6) 8)
        (Z.lor (Z.shiftl (Z_of_byte b5) 16)
        (Z.lor (Z.shiftl (Z_of_byte b4) 24)
        (Z.lor (Z.shiftl (Z_of_byte b3) 32)
        (Z.lor (Z.shiftl (Z_of_byte b2) 40)
        (Z.lor (Z.shiftl (Z_of_byte b1) 48)
               (Z.shiftl (Z_of_byte b0) 56)))))))
  | _ => 0
  end.

(** [fmt.Sprintf("%X", b)] and [fmt.Sprintf("%x", b)] on a byte slice: two
    hex digits a byte, capital or small. *)
Definition hexdigit (letterA : Z) (v : Z) : ascii :=
  if v <? 10 then ascii_of_nat (Z.to_nat (48 + v))
  else ascii_of_nat (Z.to_nat (letterA + (v - 10))).

Fixpoint hexOf (letterA : Z) (b : list byte) : string :=
  match b with
  | [] => EmptyString
  | c :: r =>
      String (hexdigit letterA (Z_of_byte c / 16))
        (String (hexdigit letterA (Z_of_byte c mod 16)) (hexOf letterA r))
  end.

Definition Sprintf_X (b : list byte) : string := hexOf 65 b.
Definition Sprintf_x (b : list byte) : string := hexOf 97 b.

(** [strconv.Itoa] *)
Definition Itoa (x : Z) : string := NilZero.string_of_int (Z.to_int x).

(** [string(a) == string(b)] on byte slices. *)
Fixpoint bytes_eqb (a b : list byte) : bool :=
  match a, b with
  | [], [] => true
  | c :: a', c' :: b' => Byte.eqb c c' && bytes_eqb a' b'
  | _, _ => false
  end.

(** The operators [&], [|], [^] (one operand) and [-] on bytes, and the
    conversion [int8(b)]. *)
Definition band (a b : byte) : byte := u8 (Z.land (Z_of_byte a) (Z_of_byte b)).
Definition bor (a b : byte) : byte := u8 (Z.lor (Z_of_byte a) (Z_of_byte b)).
Definition bnot (a : byte) : byte := u8 (Z.lnot (Z_of_byte a)).
Definition bsub (a b : byte) : byte := u8 (Z_of_byte a - Z_of_byte b).
Definition int8 (b : byte) : Z :=
  if Z_of_byte b <? 128 then Z_of_byte b else Z_of_byte b - 256.

(** [a[i]] and [a[i] = v] on an array; the indices of these files are
    within the arrays they index. *)
Definition index {A} (a : list A) (i : Z) (zero : A) : A := nth (Z.to_nat i) a zero.
Definition store {A} (a : list A) (i : Z) (v : A) : list A :=
  if (0 <=? i) && (i <? Zlength a) then take i a ++ v :: drop (i + 1) a else a.

(** The values of [i] in [for i := 0; i < n; i++]. *)
Definition upto (n : Z) : list Z := map Z.of_nat (seq 0 (Z.to_nat n)).

End Go.
Import Go.

(* ================================================================== *)
(** * Effects: diagnostic output and panics *)

Module Effects.

Inductive stream := Stdout | Stderr.

Inductive arg :=
| ArgStr (s : string)
| ArgInt (z : Z)
| ArgBytes (b : list byte).

(** What a call leaves on the process's output streams. *)
Inductive event :=
| Println (to : stream) (args : list arg)
| Printf (to : stream) (format : string) (args : list arg)
| PrintStack.

Inductive outcome (A : Type) :=
| Ret (a : A)
| Panic (msg : string).
Arguments Ret {A} a.
Arguments Panic {A} msg.

(** A computation: how it ends, and what it printed until then. *)
Definition M (A : Type) : Type := (outcome A * list event)%type.

Definition ret {A} (a : A) : M A := (Ret a, []).
Definition panic {A} (msg : string) : M A := (Panic msg, []).
Definition emit (e : event) : M unit := (Ret tt, [e]).

Definition bind {A B} (m : M A) (k : A -> M B) : M B :=
  match m with
  | (Ret a, l) => let r := k a in (fst r, l ++ snd r)
  | (Panic msg, l) => (Panic msg, l)
  end.

Definition value {A} (m : M A) : outcome A := fst m.
Definition output {A} (m : M A) : list event := snd m.

(** The builtin [println] writes to standard error, [fmt.Println] and
    [fmt.Printf] to standard output. *)
Definition println (args : list arg) : M unit := emit (Println Stderr args).
Definition fmt_Println (args : list arg) : M unit := emit (Println Stdout args).
Definition fmt_Printf (format : string) (args : list arg) : M unit :=
  emit (Printf Stdout format args).
Definition fmt_Fprintf (to : stream) (format : string) (args : list arg) : M unit :=
  emit (Printf to format args).
Definition debug_PrintStack : M unit := emit PrintStack.

End Effects.
Import Effects.

Declare Scope go_scope.
Delimit Scope go_scope with go.
Notation "x <- m ;; k" := (bind m (fun x => k))
  (at level 61, m at next level, right associativity) : go_scope.
Notation "' p <- m ;; k" := (bind m (fun x => match x with p => k end))
  (at level 61, p pattern, m at next level, right associativity) : go_scope.
Notation "m ;; k" := (bind m (fun _ => k))
  (at level 61, right associativity) : go_scope.
Local Open Scope go_scope.

(** Go's [error] values of package openpgp/errors and of io. *)
Inductive err :=
| UnsupportedError (msg : string)
| InvalidArgumentError (msg : string)
| SignatureError (msg : string)
| StructuralError (msg : string)
| ErrUnexpectedEOF.

(** [nil] is [None]. *)
Definition error := option err.

(** [err.Error()].  Package openpgp/errors is not among the sources; the
    texts are those of its [Error] methods. *)
Definition Error (e : err) : string :=
  match e with
  | UnsupportedError s => String.append "openpgp: unsupported feature: " s
  | InvalidArgumentError s => String.append "openpgp: invalid argument: " s
  | SignatureError s => String.append "openpgp: invalid signature: " s
  | StructuralError s => String.append "openpgp: invalid data: " s
  | ErrUnexpectedEOF => "unexpected EOF"
  end.

(** An [io.Writer]: [Write] returns the writer as the call leaves it and the
    error of the call. *)
Class Writer (W : Type) := { Write : W -> list byte -> M (W * error) }.

(** A [bytes.Buffer]: every write is appended and none fails. *)
#[export] Instance Buffer_Writer : Writer (list byte) :=
  {| Write := fun b p => ret (b ++ p, None) |}.

(* ================================================================== *)
(** * Package sha1 *)

Module sha1.

(** The size of a SHA-1 checksum and the block size, in bytes. *)
Definition Size : Z := 20.
Definition BlockSize : Z := 64.

Definition chunk : Z := 64.
Definition init0 : Z := 0x67452301.
Definition init1 : Z := 0xEFCDAB89.
Definition init2 : Z := 0x98BADCFE.
Definition init3 : Z := 0x10325476.
Definition init4 : Z := 0xC3D2E1F0.

(** [digest] represents the partial evaluation of a checksum:
    [h [5]uint32], [x [chunk]byte], [nx int], [len uint64]. *)
Record digest := mkDigest {
  h : list Z;
  x : list byte;
  nx : Z;
  len : Z
}.

Definition set_h (d : digest) (v : list Z) := mkDigest v (x d) (nx d) (len d).
Definition set_x (d : digest) (v : list byte) := mkDigest (h d) v (nx d) (len d).
Definition set_nx (d : digest) (v : Z) := mkDigest (h d) (x d) v (len d).
Definition set_len (d : digest) (v : Z) := mkDigest (h d) (x d) (nx d) v.

(** The zero value [var d digest], also what [new(digest)] points to. *)
Definition zero : digest := mkDigest [0; 0; 0; 0; 0] (make chunk) 0 0.

Definition Reset (d : digest) : digest :=
  mkDigest [init0; init1; init2; init3; init4] (x d) 0 0.

Section Block.

(** The compression function [block(d, p)] is declared in another file of
    the package: it reads whole chunks of [p] and updates [d.h] alone. *)
Variable block : list Z -> list byte -> list Z.

Definition New : M digest :=
  println [ArgStr "new custom sha1"] ;;
  debug_PrintStack ;;
  ret (Reset zero).

Definition Write (d : digest) (p : list byte) : M (digest * Z * error) :=
  println [ArgStr "custom sha1"] ;;
  println [ArgStr "writing to sha1"] ;;
  println [ArgStr "1sha157"] ;;
  fmt_Fprintf Stderr "bytes to digest: %x\n" [ArgBytes p] ;;
  let nn := Zlength p in
  let d := set_len d (uint64 (len d + uint64 nn)) in
  println [ArgStr "1sha135"] ;;
  dp <- (if 0 <? nx d then
           println [ArgStr "1sha137"] ;;
           let (x', n) := copy (x d) (nx d) p in
           let d := set_nx (set_x d x') (nx d + n) in
           d <- (if nx d =? chunk then
                   println [ArgStr "1sha141"] ;;
                   ret (set_nx (set_h d (block (h d) (x d))) 0)
                 else ret d) ;;
           println [ArgStr "1sha145"] ;;
           ret (d, drop n p)
         else ret (d, p)) ;;
  let (d, p) := dp : digest * list byte in
  println [ArgStr "1sha148"] ;;
  dp <- (if chunk <=? Zlength p then
           println [ArgStr "1sha150"] ;;
           let n := Z.ldiff (Zlength p) (chunk - 1) in
           let d := set_h d (block (h d) (take n p)) in
           println [ArgStr "1sha154"] ;;
           ret (d, drop n p)
         else ret (d, p)) ;;
  let (d, p) := dp : digest * list byte in
  println [ArgStr "1sha156"] ;;
  d <- (if 0 <? Zlength p then
          println [ArgStr "1sha157"] ;;
          let (x', n) := copy (x d) 0 p in
          println [ArgStr "1sha160"] ;;
          ret (set_nx (set_x d x') n)
        else ret d) ;;
  println [ArgStr "1sha162"] ;;
  ret (d, nn, None).

(** [checkSum] works on its receiver in place; the digest as it leaves it is
    returned next to the checksum. *)
Definition checkSum (d : digest) : M (digest * list byte) :=
  let len0 := len d in
  (* Padding.  Add a 1 bit and 0 bits until 56 bytes mod 64. *)
  let tmp := u8 0x80 :: tl (make 64) in
  r <- (if len0 mod 64 <? 56
        then Write d (slice 0 (56 - len0 mod 64) tmp)
        else Write d (slice 0 (64 + 56 - len0 mod 64) tmp)) ;;
  let d := fst (fst r) in
  (* Length in bits. *)
  let len1 := uint64 (Z.shiftl len0 3) in
  let tmp := fst (copy tmp 0 (PutUint64 len1)) in
  r <- Write d (slice 0 8 tmp) ;;
  let d := fst (fst r) in
  if negb (nx d =? 0) then panic "d.nx != 0"
  else
    ret (d, PutUint32 (nth 0 (h d) 0) ++ PutUint32 (nth 1 (h d) 0) ++
            PutUint32 (nth 2 (h d) 0) ++ PutUint32 (nth 3 (h d) 0) ++
            PutUint32 (nth 4 (h d) 0)).

(** The method [(d *digest) Sum(in)]: a copy of [d] is finalised, so the
    caller can keep writing and summing. *)
Definition digest_Sum (d : digest) (input : list byte) : M (list byte) :=
  let d0 := d in
  r <- checkSum d0 ;;
  ret (input ++ snd r).

(** [Sum] returns the SHA-1 checksum of the data. *)
Definition Sum (data : list byte) : M (list byte) :=
  let d := Reset zero in
  r <- Write d data ;;
  r <- checkSum (fst (fst r)) ;;
  ret (snd r).

(** The digest states a program can hold: a digest that was [Reset], and
    whatever [Write] and [Reset] make of such a state. *)
Inductive reachable : digest -> Prop :=
| reach_Reset : forall d0, Zlength (x d0) = chunk -> reachable (Reset d0)
| reach_Write : forall d p r,
    reachable d -> value (Write d p) = Ret r -> reachable (fst (fst r)).

(** [ConstantTimeSum] computes the same result of [Sum] but in constant
    time.  [constSum] works on its receiver in place; the digest as it
    leaves it is returned next to the checksum. *)
Definition constSum (d : digest) : digest * list byte :=
  let l := uint64 (Z.shiftl (len d) 3) in
  let length := map (fun i => u8 (Z.shiftr l (56 - 8 * i))) (upto 8) in
  let nx_ := u8 (nx d) in
  let t := bsub nx_ (u8 56) in                 (* if nx < 56 then the MSB of t is one *)
  let mask1b := u8 (Z.shiftr (int8 t) 7) in    (* mask1b is 0xFF iff one block is enough *)
  let separator := u8 0x80 in                  (* gets reset to 0x00 once used *)
  let '(x1, separator) :=
    fold_left
      (fun (s : list byte * byte) (i : Z) =>
         let (x, separator) := s in
         let mask := u8 (Z.shiftr (int8 (bsub (u8 i) nx_)) 7) in (* 0x00 after the end of data *)
         (* if we reached the end of the data, replace with 0x80 or 0x00 *)
         let x := store x i (bor (band (bnot mask) separator) (band mask (index x i x00))) in
         (* zero the separator once used *)
         let separator := band separator mask in
         let x := if 56 <=? i
                  then (* we might have to write the length here if all fit in one block *)
                    store x i (bor (index x i x00) (band mask1b (index length (i - 56) x00)))
                  else x in
         (x, separator))
      (upto chunk) (x d, separator) in
  let d := set_x d x1 in
  (* compress, and only keep the digest if all fit in one block *)
  let d := set_h d (block (h d) (x d)) in
  let digest :=
    flat_map (fun i => let s := index (h d) i 0 in
                       [band mask1b (u8 (Z.shiftr s 24)); band mask1b (u8 (Z.shiftr s 16));
                        band mask1b (u8 (Z.shiftr s 8)); band mask1b (u8 s)])
             (upto 5) in
  let '(x2, separator) :=
    fold_left
      (fun (s : list byte * byte) (i : Z) =>
         let (x, separator) := s in
         (* second block, it's always past the end of data, might start with 0x80 *)
         if i <? 56 then (store x i separator, u8 0)
         else (store x i (index length (i - 56) x00), separator))
      (upto chunk) (x d, separator) in
  let d := set_x d x2 in
  (* compress, and only keep the digest if we actually needed the second block *)
  let d := set_h d (block (h d) (x d)) in
  let digest :=
    flat_map (fun i => let s := index (h d) i 0 in
                       [bor (index digest (i * 4) x00) (band (bnot mask1b) (u8 (Z.shiftr s 24)));
                        bor (index digest (i * 4 + 1) x00) (band (bnot mask1b) (u8 (Z.shiftr s 16)));
                        bor (index digest (i * 4 + 2) x00) (band (bnot mask1b) (u8 (Z.shiftr s 8)));
                        bor (index digest (i * 4 + 3) x00) (band (bnot mask1b) (u8 s))])
             (upto 5) in
  (d, digest).

Definition ConstantTimeSum (d : digest) (input : list byte) : list byte :=
  let d0 := d in
  let hash := snd (constSum d0) in
  input ++ hash.

End Block.

(** ** Marshalling the state of a digest *)

(** The values the types of the fields admit: [h [5]uint32],
    [x [chunk]byte], [len uint64]. *)
Definition wellTyped (d : digest) : Prop :=
  Zlength (h d) = 5 /\ Forall (fun v => 0 <= v < 2 ^ 32) (h d) /\
  Zlength (x d) = chunk /\ 0 <= len d < 2 ^ 64.

(** An error made by [errors.New]. *)
Inductive errorString := errors_New (text : string).

(** [magic] is the string "sha\x01". *)
Definition magic : list byte := [x73; x68; x61; x01].
Definition marshaledSize : Z := Zlength magic + 5 * 4 + chunk + 8.

Definition appendUint64 (b : list byte) (v : Z) : list byte := b ++ PutUint64 v.
Definition appendUint32 (b : list byte) (v : Z) : list byte := b ++ PutUint32 v.

Definition consumeUint64 (b : list byte) : M (list byte * Z) :=
  if Zlength b <=? 7 then panic "index out of range [7]"
  else
    let at_ (i : Z) := Z_of_byte (index b i x00) in
    let v := Z.lor (Z.lor (Z.lor (Z.lor (Z.lor (Z.lor (Z.lor
               (at_ 7)
               (uint64 (Z.shiftl (at_ 6) 8)))
               (uint64 (Z.shiftl (at_ 5) 16)))
               (uint64 (Z.shiftl (at_ 4) 24)))
               (uint64 (Z.shiftl (at_ 3) 32)))
               (uint64 (Z.shiftl (at_ 2) 40)))
               (uint64 (Z.shiftl (at_ 1) 48)))
               (uint64 (Z.shiftl (at_ 0) 56)) in
    ret (drop 8 b, v).

Definition consumeUint32 (b : list byte) : M (list byte * Z) :=
  if Zlength b <=? 3 then panic "index out of range [3]"
  else
    let at_ (i : Z) := Z_of_byte (index b i x00) in
    let v := Z.lor (Z.lor (Z.lor
               (at_ 3)
               (uint32 (Z.shiftl (at_ 2) 8)))
               (uint32 (Z.shiftl (at_ 1) 16)))
               (uint32 (Z.shiftl (at_ 0) 24)) in
    ret (drop 4 b, v).

Definition MarshalBinary (d : digest) : M (list byte * option errorString) :=
  let b := [] : list byte in (* make([]byte, 0, marshaledSize) *)
  let b := b ++ magic in
  let b := appendUint32 b (index (h d) 0 0) in
  let b := appendUint32 b (index (h d) 1 0) in
  let b := appendUint32 b (index (h d) 2 0) in
  let b := appendUint32 b (index (h d) 3 0) in
  let b := appendUint32 b (index (h d) 4 0) in
  if (nx d <? 0) || (Zlength (x d) <? nx d) then panic "slice bounds out of range"
  else
    let b := b ++ take (nx d) (x d) in
    let n := int (Zlength b + Zlength (x d) - int (nx d)) in
    if (n <? 0) || (marshaledSize <? n) then panic "slice bounds out of range"
    else
      let b := if n <=? Zlength b then take n b
               else b ++ make (n - Zlength b) (* already zero *) in
      let b := appendUint64 b (len d) in
      ret (b, None).

Definition UnmarshalBinary (d : digest) (b : list byte) : M (digest * option errorString) :=
  if (Zlength b <? Zlength magic) || negb (bytes_eqb (take (Zlength magic) b) magic) then
    ret (d, Some (errors_New "crypto/sha1: invalid hash state identifier"))
  else if negb (Zlength b =? marshaledSize) then
    ret (d, Some (errors_New "crypto/sha1: invalid hash state size"))
  else
    let b := drop (Zlength magic) b in
    r <- consumeUint32 b ;; let b := fst r in let d := set_h d (store (h d) 0 (snd r)) in
    r <- consumeUint32 b ;; let b := fst r in let d := set_h d (store (h d) 1 (snd r)) in
    r <- consumeUint32 b ;; let b := fst r in let d := set_h d (store (h d) 2 (snd r)) in
    r <- consumeUint32 b ;; let b := fst r in let d := set_h d (store (h d) 3 (snd r)) in
    r <- consumeUint32 b ;; let b := fst r in let d := set_h d (store (h d) 4 (snd r)) in
    let (x', n) := copy (x d) 0 b in
    let d := set_x d x' in
    let b := drop n b in
    r <- consumeUint64 b ;; let b := fst r in let d := set_len d (snd r) in
    let d := set_nx d (int (len d mod chunk)) in
    ret (d, None).

End sha1.

(* ================================================================== *)
(** * Package encoding: the MPI and OID fields *)

Module encoding.

(** Modelled from the spec: package openpgp/internal/encoding is not among
    the sources.  Section 2 and the glossary give its contract: an MPI is a
    2-byte bit-length prefix followed by big-endian bytes with no leading
    zero byte, an OID a 1-byte length prefix followed by raw bytes; a field
    exposes read-from-stream, its encoded byte length and its encoded
    bytes.  A [Field] value is what the interface [encoding.Field] holds. *)
Inductive Field :=
| MPI (bitLength : Z) (bytes : list byte)
| OID (bytes : list byte).

Definition Bytes (f : Field) : list byte :=
  match f with MPI _ b => b | OID b => b end.

Definition BitLength (f : Field) : Z :=
  match f with MPI bl _ => bl | OID b => uint16 (8 * Zlength b) end.

Definition EncodedBytes (f : Field) : list byte :=
  match f with
  | MPI bl b => [u8 (Z.shiftr bl 8); u8 bl] ++ b
  | OID b => [u8 (Zlength b)] ++ b
  end.

Definition EncodedLength (f : Field) : Z :=
  match f with
  | MPI _ b => 2 + Zlength b
  | OID b => 1 + Zlength b
  end.

(** An [io.Reader] over bytes already in memory: what is left to read. *)
Definition Reader := list byte.

(** [readFull(r, buf)] with [len(buf) = n] and [buf] zeroed: the buffer and
    the reader after the call, and [io.ErrUnexpectedEOF] when fewer than
    [n] bytes were left. *)
Definition readFull (r : Reader) (n : Z) : list byte * Reader * error :=
  if n <=? Zlength r then (take n r, drop n r, None)
  else (r ++ make (n - Zlength r), [], Some ErrUnexpectedEOF).

(** [new(encoding.MPI).ReadFrom(r)] *)
Definition MPI_ReadFrom (r : Reader) : Field * Reader * error :=
  let '(buf, r, e) := readFull r 2 in
  match e with
  | Some _ => (MPI 0 [], r, e)
  | None =>
      let bitLength :=
        Z.lor (Z.shiftl (Z_of_byte (nth 0 buf x00)) 8) (Z_of_byte (nth 1 buf x00)) in
      let '(bytes, r, e) := readFull r ((bitLength + 7) / 8) in
      (MPI bitLength bytes, r, e)
  end.

(** [new(encoding.OID).ReadFrom(r)] *)
Definition OID_ReadFrom (r : Reader) : Field * Reader * error :=
  let '(buf, r, e) := readFull r 1 in
  match e with
  | Some _ => (OID [], r, e)
  | None =>
      let '(bytes, r, e) := readFull r (Z_of_byte (nth 0 buf x00)) in
      (OID bytes, r, e)
  end.

(** [bits.Len8] and the [BitLen] of a [big.Int]: the length of the binary
    numeral. *)
Definition BitLen (v : Z) : Z := if v =? 0 then 0 else Z.log2 (Z.abs v) + 1.




(** math/big: [SetBytes] reads a big-endian numeral, [Bytes] writes the
    absolute value as one, without leading zero bytes. *)
Definition SetBytes (b : list byte) : Z :=
  fold_left (fun acc c => 256 * acc + Z_of_byte c) b 0.

Fixpoint bigBytes_aux (fuel : nat) (v : Z) (acc : list byte) : list byte :=
  match fuel with
  | O => acc
  | S fuel' => if v =? 0 then acc else bigBytes_aux fuel' (v / 256) (u8 v :: acc)
  end.

Definition bigBytes (v : Z) : list byte :=
  bigBytes_aux (S (Z.to_nat (Z.log2 (Z.abs v)))) (Z.abs v) [].

(** [new(encoding.MPI).SetBig(v)] *)
Definition SetBig (v : Z) : Field := MPI (uint16 (BitLen v)) (bigBytes v).

End encoding.
Import encoding.

(* ================================================================== *)
(** * Package packet: public keys *)

Module packet.

(** ** What the file takes from its collaborators *)

(** Package ecc: the family of a curve and the signature scheme it is
    registered for. *)
Inductive CurveType := NISTCurve | Curve25519 | BitCurve | BrainpoolCurve.
Inductive SignatureAlgorithm := ECDSA | EdDSA.

Record CurveInfo (Curve : Type) := mkCurveInfo {
  Name : string;
  Oid : Field;
  Curve_ : Curve;
  CurveType_ : CurveType;
  SigAlgorithm : SignatureAlgorithm
}.
Arguments Name {Curve} _.
Arguments Oid {Curve} _.
Arguments Curve_ {Curve} _.
Arguments CurveType_ {Curve} _.
Arguments SigAlgorithm {Curve} _.

(** The native keys of crypto/rsa, crypto/dsa, openpgp/elgamal,
    crypto/ecdsa and openpgp/ecdh; a [*big.Int] is an integer, and an
    optional one where the code leaves it [nil]. *)
Record rsa_PublicKey := { rsa_N : Z; rsa_E : Z }.
Record dsa_PublicKey := { dsa_P : Z; dsa_Q : Z; dsa_G : Z; dsa_Y : Z }.
Record elgamal_PublicKey := { elgamal_P : Z; elgamal_G : Z; elgamal_Y : Z }.
Record ecdsa_PublicKey (Curve : Type) :=
  { ecdsa_Curve : Curve; ecdsa_X : Z; ecdsa_Y : Z }.
Record ecdh_PublicKey (Curve KdfHash KdfCipher : Type) := {
  ecdh_CurveType : CurveType;
  ecdh_Curve : Curve;
  ecdh_X : Z;
  ecdh_Y : option Z;
  ecdh_Hash : KdfHash;
  ecdh_Cipher : KdfCipher
}.
Arguments ecdsa_Curve {Curve} _.
Arguments ecdsa_X {Curve} _.
Arguments ecdsa_Y {Curve} _.
Arguments ecdh_CurveType {Curve KdfHash KdfCipher} _.
Arguments ecdh_Curve {Curve KdfHash KdfCipher} _.
Arguments ecdh_X {Curve KdfHash KdfCipher} _.
Arguments ecdh_Y {Curve KdfHash KdfCipher} _.
Arguments ecdh_Hash {Curve KdfHash KdfCipher} _.
Arguments ecdh_Cipher {Curve KdfHash KdfCipher} _.

(** A [Signature], as far as this file reads it (signature.go is not among
    the sources).  A field that holds a pointer or an interface is optional:
    [None] is [nil]. *)
Inductive Signature := mkSignature {
  sig_Version : Z;
  SigType : Z;
  sig_PubKeyAlgo : Z;
  Hash : Z;
  HashSuffix : list byte;
  HashTag : byte * byte;
  RSASignature : option Field;
  DSASigR : option Field;
  DSASigS : option Field;
  ECDSASigR : option Field;
  ECDSASigS : option Field;
  EdDSASigR : option Field;
  EdDSASigS : option Field;
  FlagSign : bool;
  EmbeddedSignature : option Signature
}.

(** The functions and tables the file calls and does not define: the
    compression function of sha1, the checksum of sha256, the hash
    contexts of the other hash packages, the curve registry, the KDF
    tables, the asymmetric verification primitives, and from the other
    files of package packet the packet header and the hash-suffix
    metadata of a signature. *)
Class Collaborators := {
  Curve : Type;
  KdfHash : Type;
  KdfCipher : Type;
  sha1_block : list Z -> list byte -> list Z;
  sha256_Sum256 : list byte -> list byte;
  sha256_Sum256_size : forall b, Zlength (sha256_Sum256 b) = 32;
  (* crypto.Hash: [Available] and the digest of the hash it names *)
  Hash_Available : Z -> bool;
  Hash_digest : Z -> list byte -> list byte;
  (* ecc and crypto/elliptic *)
  FindByOid : Field -> option (CurveInfo Curve);
  FindByCurve : Curve -> option (CurveInfo Curve);
  FindByName : string -> option (CurveInfo Curve);
  elliptic_Marshal : Curve -> Z -> Z -> list byte;
  elliptic_Unmarshal : Curve -> list byte -> option (Z * Z);
  (* algorithm.HashById, algorithm.CipherById and their [Id] methods *)
  HashById : byte -> option KdfHash;
  CipherById : byte -> option KdfCipher;
  KdfHash_Id : KdfHash -> byte;
  KdfCipher_Id : KdfCipher -> byte;
  (* the verification primitives *)
  rsa_VerifyPKCS1v15 : rsa_PublicKey -> Z -> list byte -> list byte -> error;
  padToKeySize : rsa_PublicKey -> list byte -> list byte;
  dsa_Verify : dsa_PublicKey -> list byte -> Z -> Z -> bool;
  ecdsa_Verify : ecdsa_PublicKey Curve -> list byte -> Z -> Z -> bool;
  ed25519_Verify : list byte -> list byte -> list byte -> bool;
  (* packet.go: the bytes [serializeHeader] writes for a type and a length *)
  headerBytes : Z -> Z -> list byte;
  (* signature.go: the hash suffix [AddMetadataToHashSuffix] leaves in the
     signature; it rewrites [sig.HashSuffix] alone *)
  metadataHashSuffix : Signature -> list byte
}.

(** ** Constants of packet.go and of package crypto *)

(** Modelled from the spec: the algorithm tags of section 3,
    {RSA, RSA-encrypt-only, RSA-sign-only, DSA, ElGamal, ECDSA, ECDH, EdDSA}.
    packet.go, which declares the constants, is not among the sources; the
    numbers are the identifiers of RFC 4880 section 9.1 and RFC 6637, which
    the file follows.  A [PublicKeyAlgorithm] is a [uint8]. *)
Definition PubKeyAlgoRSA : Z := 1.
Definition PubKeyAlgoRSAEncryptOnly : Z := 2.
Definition PubKeyAlgoRSASignOnly : Z := 3.
Definition PubKeyAlgoElGamal : Z := 16.
Definition PubKeyAlgoDSA : Z := 17.
Definition PubKeyAlgoECDH : Z := 18.
Definition PubKeyAlgoECDSA : Z := 19.
Definition PubKeyAlgoEdDSA : Z := 22.

(** The packet types of packet.go, which are the tags of RFC 4880
    section 4.3. *)
Definition packetTypePublicKey : Z := 6.
Definition packetTypePublicSubkey : Z := 14.

(** [crypto.SHA1], [crypto.SHA256] and [crypto.SHA512] of the standard
    library. *)
Definition crypto_SHA1 : Z := 3.
Definition crypto_SHA256 : Z := 5.
Definition crypto_SHA512 : Z := 7.

(** The signature types of packet.go, with the numbers of RFC 4880
    section 5.2.1: the two that sign a document, and the ones that bind a
    key or sign one directly. *)
Definition SigTypeBinary : Z := 0x00.
Definition SigTypeText : Z := 0x01.
Definition SigTypeSubkeyBinding : Z := 0x18.
Definition SigTypePrimaryKeyBinding : Z := 0x19.
Definition SigTypeDirectSignature : Z := 0x1F.

(** The case lists of [switch pk.PubKeyAlgo] in [parse],
    [algorithmSpecificByteCount], [serializeWithoutHeaders] and
    [BitLength]. *)
Inductive algoCase :=
| CaseRSA | CaseDSA | CaseElGamal | CaseECDSA | CaseECDH | CaseEdDSA | CaseDefault.

Definition switchAlgo (a : Z) : algoCase :=
  if (a =? PubKeyAlgoRSA) || (a =? PubKeyAlgoRSAEncryptOnly) || (a =? PubKeyAlgoRSASignOnly)
  then CaseRSA
  else if a =? PubKeyAlgoDSA then CaseDSA
  else if a =? PubKeyAlgoElGamal then CaseElGamal
  else if a =? PubKeyAlgoECDSA then CaseECDSA
  else if a =? PubKeyAlgoECDH then CaseECDH
  else if a =? PubKeyAlgoEdDSA then CaseEdDSA
  else CaseDefault.

Section WithCollaborators.
Context {X : Collaborators}.

(** What the field [PublicKey interface{}] holds. *)
Inductive nativeKey :=
| NoKey
| RSAKey (k : rsa_PublicKey)
| DSAKey (k : dsa_PublicKey)
| ElGamalKey (k : elgamal_PublicKey)
| ECDSAKey (k : ecdsa_PublicKey Curve)
| ECDHKey (k : ecdh_PublicKey Curve KdfHash KdfCipher)
| EdDSAKey (k : list byte).

(** [PublicKey] represents an OpenPGP public key.  [CreationTime] is kept
    as the seconds since the epoch, which is all the file reads of it. *)
Record PublicKey := mkPublicKey {
  Version : Z;
  CreationTime : Z;
  PubKeyAlgo : Z;
  PublicKey_ : nativeKey;
  Fingerprint : list byte;
  KeyId : Z;
  IsSubkey : bool;
  (* RFC 4880 fields *)
  n : option Field;
  e : option Field;
  p : option Field;
  q : option Field;
  g : option Field;
  y : option Field;
  (* RFC 6637 fields *)
  oid : option Field;
  kdf : option Field
}.

(** The zero value [PublicKey{}]. *)
Definition zeroPublicKey : PublicKey :=
  mkPublicKey 0 0 0 NoKey [] 0 false None None None None None None None None.

Definition set_Version (pk : PublicKey) (v : Z) : PublicKey :=
  mkPublicKey v (CreationTime pk) (PubKeyAlgo pk) (PublicKey_ pk) (Fingerprint pk)
    (KeyId pk) (IsSubkey pk) (n pk) (e pk) (p pk) (q pk) (g pk) (y pk) (oid pk) (kdf pk).
Definition set_CreationTime (pk : PublicKey) (v : Z) : PublicKey :=
  mkPublicKey (Version pk) v (PubKeyAlgo pk) (PublicKey_ pk) (Fingerprint pk)
    (KeyId pk) (IsSubkey pk) (n pk) (e pk) (p pk) (q pk) (g pk) (y pk) (oid pk) (kdf pk).
Definition set_PubKeyAlgo (pk : PublicKey) (v : Z) : PublicKey :=
  mkPublicKey (Version pk) (CreationTime pk) v (PublicKey_ pk) (Fingerprint pk)
    (KeyId pk) (IsSubkey pk) (n pk) (e pk) (p pk) (q pk) (g pk) (y pk) (oid pk) (kdf pk).
Definition set_PublicKey (pk : PublicKey) (v : nativeKey) : PublicKey :=
  mkPublicKey (Version pk) (CreationTime pk) (PubKeyAlgo pk) v (Fingerprint pk)
    (KeyId pk) (IsSubkey pk) (n pk) (e pk) (p pk) (q pk) (g pk) (y pk) (oid pk) (kdf pk).
Definition set_Fingerprint (pk : PublicKey) (v : list byte) : PublicKey :=
  mkPublicKey (Version pk) (CreationTime pk) (PubKeyAlgo pk) (PublicKey_ pk) v
    (KeyId pk) (IsSubkey pk) (n pk) (e pk) (p pk) (q pk) (g pk) (y pk) (oid pk) (kdf pk).
Definition set_KeyId (pk : PublicKey) (v : Z) : PublicKey :=
  mkPublicKey (Version pk) (CreationTime pk) (PubKeyAlgo pk) (PublicKey_ pk) (Fingerprint pk)
    v (IsSubkey pk) (n pk) (e pk) (p pk) (q pk) (g pk) (y pk) (oid pk) (kdf pk).
Definition set_n (pk : PublicKey) (v : option Field) : PublicKey :=
  mkPublicKey (Version pk) (CreationTime pk) (PubKeyAlgo pk) (PublicKey_ pk) (Fingerprint pk)
    (KeyId pk) (IsSubkey pk) v (e pk) (p pk) (q pk) (g pk) (y pk) (oid pk) (kdf pk).
Definition set_e (pk : PublicKey) (v : option Field) : PublicKey :=
  mkPublicKey (Version pk) (CreationTime pk) (PubKeyAlgo pk) (PublicKey_ pk) (Fingerprint pk)
    (KeyId pk) (IsSubkey pk) (n pk) v (p pk) (q pk) (g pk) (y pk) (oid pk) (kdf pk).
Definition set_p (pk : PublicKey) (v : option Field) : PublicKey :=
  mkPublicKey (Version pk) (CreationTime pk) (PubKeyAlgo pk) (PublicKey_ pk) (Fingerprint pk)
    (KeyId pk) (IsSubkey pk) (n pk) (e pk) v (q pk) (g pk) (y pk) (oid pk) (kdf pk).
Definition set_q (pk : PublicKey) (v : option Field) : PublicKey :=
  mkPublicKey (Version pk) (CreationTime pk) (PubKeyAlgo pk) (PublicKey_ pk) (Fingerprint pk)
    (KeyId pk) (IsSubkey pk) (n pk) (e pk) (p pk) v (g pk) (y pk) (oid pk) (kdf pk).
Definition set_g (pk : PublicKey) (v : option Field) : PublicKey :=
  mkPublicKey (Version pk) (CreationTime pk) (PubKeyAlgo pk) (PublicKey_ pk) (Fingerprint pk)
    (KeyId pk) (IsSubkey pk) (n pk) (e pk) (p pk) (q pk) v (y pk) (oid pk) (kdf pk).
Definition set_y (pk : PublicKey) (v : option Field) : PublicKey :=
  mkPublicKey (Version pk) (CreationTime pk) (PubKeyAlgo pk) (PublicKey_ pk) (Fingerprint pk)
    (KeyId pk) (IsSubkey pk) (n pk) (e pk) (p pk) (q pk) (g pk) v (oid pk) (kdf pk).
Definition set_oid (pk : PublicKey) (v : option Field) : PublicKey :=
  mkPublicKey (Version pk) (CreationTime pk) (PubKeyAlgo pk) (PublicKey_ pk) (Fingerprint pk)
    (KeyId pk) (IsSubkey pk) (n pk) (e pk) (p pk) (q pk) (g pk) (y pk) v (kdf pk).
Definition set_kdf (pk : PublicKey) (v : option Field) : PublicKey :=
  mkPublicKey (Version pk) (CreationTime pk) (PubKeyAlgo pk) (PublicKey_ pk) (Fingerprint pk)
    (KeyId pk) (IsSubkey pk) (n pk) (e pk) (p pk) (q pk) (g pk) (y pk) (oid pk) v.

(** A method call through a field that may be [nil]. *)
Definition deref {A} (f : option A) : M A :=
  match f with
  | Some v => ret v
  | None => panic "invalid memory address or nil pointer dereference"
  end.

(** ** Serialization *)

Definition algorithmSpecificByteCount (pk : PublicKey) : M Z :=
  let length := 0 in
  match switchAlgo (PubKeyAlgo pk) with
  | CaseRSA =>
      f <- deref (n pk) ;; let length := int (length + int (EncodedLength f)) in
      f <- deref (e pk) ;; let length := int (length + int (EncodedLength f)) in
      ret length
  | CaseDSA =>
      f <- deref (p pk) ;; let length := int (length + int (EncodedLength f)) in
      f <- deref (q pk) ;; let length := int (length + int (EncodedLength f)) in
      f <- deref (g pk) ;; let length := int (length + int (EncodedLength f)) in
      f <- deref (y pk) ;; let length := int (length + int (EncodedLength f)) in
      ret length
  | CaseElGamal =>
      f <- deref (p pk) ;; let length := int (length + int (EncodedLength f)) in
      f <- deref (g pk) ;; let length := int (length + int (EncodedLength f)) in
      f <- deref (y pk) ;; let length := int (length + int (EncodedLength f)) in
      ret length
  | CaseECDSA =>
      f <- deref (oid pk) ;; let length := int (length + int (EncodedLength f)) in
      f <- deref (p pk) ;; let length := int (length + int (EncodedLength f)) in
      ret length
  | CaseECDH =>
      f <- deref (oid pk) ;; let length := int (length + int (EncodedLength f)) in
      f <- deref (p pk) ;; let length := int (length + int (EncodedLength f)) in
      f <- deref (kdf pk) ;; let length := int (length + int (EncodedLength f)) in
      ret length
  | CaseEdDSA =>
      f <- deref (oid pk) ;; let length := int (length + int (EncodedLength f)) in
      f <- deref (p pk) ;; let length := int (length + int (EncodedLength f)) in
      ret length
  | CaseDefault => panic "unknown public key algorithm"
  end.

(** [SerializeSignaturePrefix] writes the prefix for this public key to the
    given Writer; the error of the write is dropped. *)
Definition SerializeSignaturePrefix {W} `{Writer W} (pk : PublicKey) (w : W) : M W :=
  fmt_Println [ArgStr "pk462"] ;;
  pLength <- algorithmSpecificByteCount pk ;;
  if Version pk =? 5 then
    (* version, timestamp (4), algorithm, key octet count (4). *)
    let pLength := int (pLength + 10) in
    println [ArgStr "writing to hash 1"] ;;
    r <- Write w [u8 0x9A;
                  u8 (Z.shiftr pLength 24);
                  u8 (Z.shiftr pLength 16);
                  u8 (Z.shiftr pLength 8);
                  u8 pLength] ;;
    println [ArgStr "done writing"] ;;
    ret (fst r)
  else
    let pLength := int (pLength + 6) in
    fmt_Println [ArgStr "pk475"] ;;
    println [ArgStr "writing to hash 2"] ;;
    r <- Write w [u8 0x99; u8 (Z.shiftr pLength 8); u8 pLength] ;;
    println [ArgStr "done writing"] ;;
    ret (fst r).

(** [serializeWithoutHeaders] marshals the PublicKey to w in the form of an
    OpenPGP public key packet, not including the packet header. *)
Definition serializeWithoutHeaders {W} `{Writer W} (pk : PublicKey) (w : W) : M (W * error) :=
  println [ArgStr "pk531"] ;;
  let t := uint32 (CreationTime pk) in
  println [ArgStr "writing to hash 3"] ;;
  r <- Write w [u8 (Version pk);
                u8 (Z.shiftr t 24); u8 (Z.shiftr t 16); u8 (Z.shiftr t 8); u8 t;
                u8 (PubKeyAlgo pk)] ;;
  let (w, err) := r : W * error in
  match err with
  | Some _ => println [ArgStr "pk538"] ;; ret (w, err)
  | None =>
  println [ArgStr "done writing"] ;;
  println [ArgStr "pk540"] ;;
  r <- (if Version pk =? 5 then
          n <- algorithmSpecificByteCount pk ;;
          println [ArgStr "writing to hash 5"] ;;
          r <- Write w [u8 (Z.shiftr n 24); u8 (Z.shiftr n 16); u8 (Z.shiftr n 8); u8 n] ;;
          match snd r with
          | Some _ => ret r
          | None => println [ArgStr "done writing"] ;; ret r
          end
        else ret (w, None)) ;;
  let (w, err) := r : W * error in
  match err with
  | Some _ => ret (w, err)
  | None =>
  println [ArgStr "pk549"] ;;
  match switchAlgo (PubKeyAlgo pk) with
  | CaseRSA =>
      println [ArgStr "pk520"] ;;
      println [ArgStr "writing to hash 6"] ;;
      f <- deref (n pk) ;;
      r <- Write w (EncodedBytes f) ;;
      let (w, err) := r : W * error in
      match err with Some _ => ret (w, err) | None =>
      println [ArgStr "done writing"] ;;
      println [ArgStr "pk524"] ;;
      println [ArgStr "writing to hash 7"] ;;
      f <- deref (e pk) ;;
      r <- Write w (EncodedBytes f) ;;
      println [ArgStr "done writing"] ;;
      println [ArgStr "pk526"] ;;
      ret r
      end
  | CaseDSA =>
      println [ArgStr "pk529"] ;;
      f <- deref (p pk) ;;
      r <- Write w (EncodedBytes f) ;;
      let (w, err) := r : W * error in
      match err with Some _ => ret (w, err) | None =>
      println [ArgStr "pk533"] ;;
      f <- deref (q pk) ;;
      r <- Write w (EncodedBytes f) ;;
      let (w, err) := r : W * error in
      match err with Some _ => ret (w, err) | None =>
      println [ArgStr "pk536"] ;;
      f <- deref (g pk) ;;
      r <- Write w (EncodedBytes f) ;;
      let (w, err) := r : W * error in
      match err with Some _ => ret (w, err) | None =>
      println [ArgStr "pk541"] ;;
      f <- deref (y pk) ;;
      r <- Write w (EncodedBytes f) ;;
      println [ArgStr "pk543"] ;;
      ret r
      end end end
  | CaseElGamal =>
      println [ArgStr "pk546"] ;;
      f <- deref (p pk) ;;
      r <- Write w (EncodedBytes f) ;;
      let (w, err) := r : W * error in
      match err with Some _ => ret (w, err) | None =>
      println [ArgStr "pk550"] ;;
      f <- deref (g pk) ;;
      r <- Write w (EncodedBytes f) ;;
      let (w, err) := r : W * error in
      match err with Some _ => ret (w, err) | None =>
      println [ArgStr "pk554"] ;;
      f <- deref (y pk) ;;
      r <- Write w (EncodedBytes f) ;;
      println [ArgStr "pk556"] ;;
      ret r
      end end
  | CaseECDSA =>
      println [ArgStr "pk559"] ;;
      f <- deref (oid pk) ;;
      r <- Write w (EncodedBytes f) ;;
      let (w, err) := r : W * error in
      match err with Some _ => ret (w, err) | None =>
      println [ArgStr "pk563"] ;;
      f <- deref (p pk) ;;
      r <- Write w (EncodedBytes f) ;;
      println [ArgStr "pk565"] ;;
      ret r
      end
  | CaseECDH =>
      println [ArgStr "pk568"] ;;
      f <- deref (oid pk) ;;
      r <- Write w (EncodedBytes f) ;;
      let (w, err) := r : W * error in
      match err with Some _ => ret (w, err) | None =>
      println [ArgStr "pk571"] ;;
      f <- deref (p pk) ;;
      r <- Write w (EncodedBytes f) ;;
      let (w, err) := r : W * error in
      match err with Some _ => ret (w, err) | None =>
      println [ArgStr "pk576"] ;;
      f <- deref (kdf pk) ;;
      r <- Write w (EncodedBytes f) ;;
      println [ArgStr "pk578"] ;;
      ret r
      end end
  | CaseEdDSA =>
      println [ArgStr "pk581"] ;;
      f <- deref (oid pk) ;;
      r <- Write w (EncodedBytes f) ;;
      let (w, err) := r : W * error in
      match err with Some _ => ret (w, err) | None =>
      println [ArgStr "pk585"] ;;
      f <- deref (p pk) ;;
      r <- Write w (EncodedBytes f) ;;
      println [ArgStr "pk587"] ;;
      ret r
      end
  | CaseDefault => ret (w, Some (InvalidArgumentError "bad public-key algorithm"))
  end
  end
  end.

(** [SerializeForHash] serializes the PublicKey to w with the special packet
    header format needed for hashing. *)
Definition SerializeForHash {W} `{Writer W} (pk : PublicKey) (w : W) : M (W * error) :=
  fmt_Println [ArgStr "pk415"] ;;
  w <- SerializeSignaturePrefix pk w ;;
  fmt_Println [ArgStr "pk417"] ;;
  serializeWithoutHeaders pk w.

(** [serializeHeader(w, ptype, length)] of packet.go. *)
Definition serializeHeader {W} `{Writer W} (w : W) (ptype length : Z) : M (W * error) :=
  Write w (headerBytes ptype length).

Definition Serialize {W} `{Writer W} (pk : PublicKey) (w : W) : M (W * error) :=
  let length := 6 in (* 6 byte header *)
  c <- algorithmSpecificByteCount pk ;;
  let length := int (length + c) in
  let length := if Version pk =? 5 then int (length + 4) (* octet key count *) else length in
  let packetType := if IsSubkey pk then packetTypePublicSubkey else packetTypePublicKey in
  r <- serializeHeader w packetType length ;;
  let (w, err) := r : W * error in
  match err with
  | Some _ => ret (w, err)
  | None => serializeWithoutHeaders pk w
  end.

(** ** Fingerprint and key id *)

Definition setFingerprintAndKeyId (pk : PublicKey) : M PublicKey :=
  (* RFC 4880, section 12.2 *)
  pk <- (if Version pk =? 5 then
           r <- SerializeForHash pk ([] : list byte) ;;
           let buffer := fst r in
           let pk := set_Fingerprint pk (make 32) in
           let h := sha256_Sum256 buffer in
           let pk := set_Fingerprint pk (fst (copy (Fingerprint pk) 0 h)) in
           ret (set_KeyId pk (Uint64 (slice 0 8 (Fingerprint pk))))
         else
           r <- SerializeForHash pk ([] : list byte) ;;
           let buffer := fst r in
           let pk := set_Fingerprint pk (make 20) in
           h <- sha1.Sum sha1_block buffer ;;
           let pk := set_Fingerprint pk (fst (copy (Fingerprint pk) 0 h)) in
           ret (set_KeyId pk (Uint64 (slice 12 20 (Fingerprint pk))))) ;;
  fmt_Printf "keyid: %x\n" [ArgInt (KeyId pk)] ;;
  fmt_Printf "fingerprint: %x\n" [ArgBytes (Fingerprint pk)] ;;
  ret pk.

(** [UpgradeToV5] updates the version of the key to v5, and updates all
    necessary fields. *)
Definition UpgradeToV5 (pk : PublicKey) : M PublicKey :=
  let pk := set_Version pk 5 in
  setFingerprintAndKeyId pk.

(** [KeyIdString] returns the public key's fingerprint in capital hex
    (e.g. "6C7EE1B8621CC013"). *)
Definition KeyIdString (pk : PublicKey) : M string :=
  if Zlength (Fingerprint pk) <? 20 then panic "slice bounds out of range"
  else ret (Sprintf_X (slice 12 20 (Fingerprint pk))).

(** [KeyIdShortString] returns the short form of public key's fingerprint
    in capital hex, as shown by gpg --list-keys (e.g. "621CC013"). *)
Definition KeyIdShortString (pk : PublicKey) : M string :=
  if Zlength (Fingerprint pk) <? 20 then panic "slice bounds out of range"
  else ret (Sprintf_X (slice 16 20 (Fingerprint pk))).

(** ** Constructors *)

(** [NewRSAPublicKey] returns a PublicKey that wraps the given
    rsa.PublicKey. *)
Definition NewRSAPublicKey (creationTime : Z) (pub : rsa_PublicKey) : M PublicKey :=
  let pk := mkPublicKey 4 creationTime PubKeyAlgoRSA (RSAKey pub) [] 0 false
              (Some (SetBig (rsa_N pub))) (Some (SetBig (int (rsa_E pub))))
              None None None None None None in
  setFingerprintAndKeyId pk.






(** ** Parsing *)

(** [fmt.Sprintf("unsupported oid: %x", pk.oid)] *)
Definition unsupportedOid (f : Field) : err :=
  UnsupportedError (String.append "unsupported oid: &{" (String.append (Sprintf_x (Bytes f)) "}")).

(** [parseRSA] parses RSA public key material from the given Reader. See
    RFC 4880, section 5.5.2. *)
Definition parseRSA (pk : PublicKey) (r : Reader) : PublicKey * Reader * error :=
  let '(fn, r, err) := MPI_ReadFrom r in
  let pk := set_n pk (Some fn) in
  match err with Some _ => (pk, r, err) | None =>
  let '(fe, r, err) := MPI_ReadFrom r in
  let pk := set_e pk (Some fe) in
  match err with Some _ => (pk, r, err) | None =>
  if 3 <? Zlength (Bytes fe) then
    (pk, r, Some (UnsupportedError "large public exponent"))
  else
    let E := fold_left (fun E b => Z.lor (int (Z.shiftl E 8)) (int (Z_of_byte b)))
                       (Bytes fe) 0 in
    let rsa := {| rsa_N := SetBytes (Bytes fn); rsa_E := E |} in
    (set_PublicKey pk (RSAKey rsa), r, None)
  end end.

(** [parseDSA] parses DSA public key material from the given Reader. See
    RFC 4880, section 5.5.2. *)
Definition parseDSA (pk : PublicKey) (r : Reader) : PublicKey * Reader * error :=
  let '(fp, r, err) := MPI_ReadFrom r in
  let pk := set_p pk (Some fp) in
  match err with Some _ => (pk, r, err) | None =>
  let '(fq, r, err) := MPI_ReadFrom r in
  let pk := set_q pk (Some fq) in
  match err with Some _ => (pk, r, err) | None =>
  let '(fg, r, err) := MPI_ReadFrom r in
  let pk := set_g pk (Some fg) in
  match err with Some _ => (pk, r, err) | None =>
  let '(fy, r, err) := MPI_ReadFrom r in
  let pk := set_y pk (Some fy) in
  match err with Some _ => (pk, r, err) | None =>
  let dsa := {| dsa_P := SetBytes (Bytes fp); dsa_Q := SetBytes (Bytes fq);
                dsa_G := SetBytes (Bytes fg); dsa_Y := SetBytes (Bytes fy) |} in
  (set_PublicKey pk (DSAKey dsa), r, None)
  end end end end.

(** [parseElGamal] parses ElGamal public key material from the given
    Reader. See RFC 4880, section 5.5.2. *)
Definition parseElGamal (pk : PublicKey) (r : Reader) : PublicKey * Reader * error :=
  let '(fp, r, err) := MPI_ReadFrom r in
  let pk := set_p pk (Some fp) in
  match err with Some _ => (pk, r, err) | None =>
  let '(fg, r, err) := MPI_ReadFrom r in
  let pk := set_g pk (Some fg) in
  match err with Some _ => (pk, r, err) | None =>
  let '(fy, r, err) := MPI_ReadFrom r in
  let pk := set_y pk (Some fy) in
  match err with Some _ => (pk, r, err) | None =>
  let elgamal := {| elgamal_P := SetBytes (Bytes fp); elgamal_G := SetBytes (Bytes fg);
                    elgamal_Y := SetBytes (Bytes fy) |} in
  (set_PublicKey pk (ElGamalKey elgamal), r, None)
  end end end.

(** [parseECDSA] parses ECDSA public key material from the given Reader.
    See RFC 6637, Section 9. *)
Definition parseECDSA (pk : PublicKey) (r : Reader) : PublicKey * Reader * error :=
  let '(foid, r, err) := OID_ReadFrom r in
  let pk := set_oid pk (Some foid) in
  match err with Some _ => (pk, r, err) | None =>
  let '(fp, r, err) := MPI_ReadFrom r in
  let pk := set_p pk (Some fp) in
  match err with Some _ => (pk, r, err) | None =>
  match FindByOid foid with
  | None => (pk, r, Some (unsupportedOid foid))
  | Some curveInfo =>
      match SigAlgorithm curveInfo with
      | ECDSA =>
          let c := Curve_ curveInfo in
          match elliptic_Unmarshal c (Bytes fp) with
          | None => (pk, r, Some (UnsupportedError "failed to parse EC point"))
          | Some (x, y) =>
              (set_PublicKey pk (ECDSAKey {| ecdsa_Curve := c; ecdsa_X := x; ecdsa_Y := y |}),
               r, None)
          end
      | _ => (pk, r, Some (unsupportedOid foid))
      end
  end
  end end.

(** [parseECDH] parses ECDH public key material from the given Reader. See
    RFC 6637, Section 9. *)
Definition parseECDH (pk : PublicKey) (r : Reader) : PublicKey * Reader * error :=
  let '(foid, r, err) := OID_ReadFrom r in
  let pk := set_oid pk (Some foid) in
  match err with Some _ => (pk, r, err) | None =>
  let '(fp, r, err) := MPI_ReadFrom r in
  let pk := set_p pk (Some fp) in
  match err with Some _ => (pk, r, err) | None =>
  let '(fkdf, r, err) := OID_ReadFrom r in
  let pk := set_kdf pk (Some fkdf) in
  match err with Some _ => (pk, r, err) | None =>
  match FindByOid foid with
  | None => (pk, r, Some (unsupportedOid foid))
  | Some curveInfo =>
      let c := Curve_ curveInfo in
      let cType := CurveType_ curveInfo in
      let xy : option Z * option Z :=
        match cType with
        | Curve25519 => (Some (SetBytes (Bytes fp)), None)
        | _ => match elliptic_Unmarshal c (Bytes fp) with
               | Some (x, y) => (Some x, Some y)
               | None => (None, None)
               end
        end in
      match fst xy with
      | None => (pk, r, Some (UnsupportedError "failed to parse EC point"))
      | Some x =>
          let kdfLen := Zlength (Bytes fkdf) in
          if kdfLen <? 3 then
            (pk, r, Some (UnsupportedError
                            (String.append "unsupported ECDH KDF length: " (Itoa kdfLen))))
          else
            let reserved := nth 0 (Bytes fkdf) x00 in
            if negb (Z_of_byte reserved =? 0x01) then
              (pk, r, Some (UnsupportedError
                              (String.append "unsupported KDF reserved field: "
                                 (Itoa (Z_of_byte reserved)))))
            else
              match HashById (nth 1 (Bytes fkdf) x00) with
              | None =>
                  (pk, r, Some (UnsupportedError
                                  (String.append "unsupported ECDH KDF hash: "
                                     (Itoa (Z_of_byte (nth 1 (Bytes fkdf) x00))))))
              | Some kdfHash =>
                  match CipherById (nth 2 (Bytes fkdf) x00) with
                  | None =>
                      (pk, r, Some (UnsupportedError
                                      (String.append "unsupported ECDH KDF cipher: "
                                         (Itoa (Z_of_byte (nth 2 (Bytes fkdf) x00))))))
                  | Some kdfCipher =>
                      (set_PublicKey pk
                         (ECDHKey {| ecdh_CurveType := cType; ecdh_Curve := c;
                                     ecdh_X := x; ecdh_Y := snd xy;
                                     ecdh_Hash := kdfHash; ecdh_Cipher := kdfCipher |}),
                       r, None)
                  end
              end
      end
  end
  end end end.

(** [ed25519.PublicKeySize] *)
Definition ed25519_PublicKeySize : Z := 32.

Definition parseEdDSA (pk : PublicKey) (r : Reader) : M (PublicKey * Reader * error) :=
  let '(foid, r, err) := OID_ReadFrom r in
  let pk := set_oid pk (Some foid) in
  match err with Some _ => ret (pk, r, err) | None =>
  let unsupported := ret (pk, r, Some (unsupportedOid foid)) in
  match FindByOid foid with
  | None => unsupported
  | Some curveInfo =>
      match SigAlgorithm curveInfo with
      | EdDSA =>
          let '(fp, r, err) := MPI_ReadFrom r in
          let pk := set_p pk (Some fp) in
          match err with Some _ => ret (pk, r, err) | None =>
          let eddsa := make ed25519_PublicKeySize in
          match Bytes fp with
          | [] => panic "index out of range [0] with length 0"
          | flag :: rest =>
              if Z_of_byte flag =? 0x04 then
                (* TODO: see _grcy_ecc_eddsa_ensure_compact in grcypt *)
                ret (pk, r, Some (UnsupportedError
                                    (String.append "unsupported EdDSA compression: "
                                       (Itoa (Z_of_byte flag)))))
              else if Z_of_byte flag =? 0x40 then
                let eddsa := fst (copy eddsa 0 rest) in
                ret (set_PublicKey pk (EdDSAKey eddsa), r, None)
              else
                ret (pk, r, Some (UnsupportedError
                                    (String.append "unsupported EdDSA compression: "
                                       (Itoa (Z_of_byte flag)))))
          end
          end
      | _ => unsupported
      end
  end
  end.

Definition parse (pk : PublicKey) (r : Reader) : M (PublicKey * Reader * error) :=
  (* RFC 4880, section 5.5.2 *)
  let '(buf, r, err) := readFull r 6 in
  match err with Some _ => ret (pk, r, err) | None =>
  let b (i : nat) := Z_of_byte (nth i buf x00) in
  if negb (b 0%nat =? 4) && negb (b 0%nat =? 5) then
    ret (pk, r, Some (UnsupportedError
                        (String.append "public key version " (Itoa (b 0%nat)))))
  else
  let pk := set_Version pk (b 0%nat) in
  let '(_, r, err) := if Version pk =? 5 then readFull r 4 else ([], r, None) in
  match err with Some _ => ret (pk, r, err) | None =>
  let pk := set_CreationTime pk
              (uint32 (Z.lor (Z.lor (Z.lor (uint32 (Z.shiftl (b 1%nat) 24))
                                           (uint32 (Z.shiftl (b 2%nat) 16)))
                                    (uint32 (Z.shiftl (b 3%nat) 8)))
                             (b 4%nat))) in
  let pk := set_PubKeyAlgo pk (b 5%nat) in
  res <- match switchAlgo (PubKeyAlgo pk) with
         | CaseRSA => ret (parseRSA pk r)
         | CaseDSA => ret (parseDSA pk r)
         | CaseElGamal => ret (parseElGamal pk r)
         | CaseECDSA => ret (parseECDSA pk r)
         | CaseECDH => ret (parseECDH pk r)
         | CaseEdDSA => parseEdDSA pk r
         | CaseDefault =>
             ret (pk, r, Some (UnsupportedError
                                 (String.append "public key type: " (Itoa (PubKeyAlgo pk)))))
         end ;;
  let '(pk, r, err) := res : PublicKey * Reader * error in
  match err with Some _ => ret (pk, r, err) | None =>
  pk <- setFingerprintAndKeyId pk ;;
  ret (pk, r, None)
  end end end.

(** ** Signature verification *)

(** A [hash.Hash].  The digest of package sha1 is the one above; the
    contexts of the other hash packages are kept as the hash they compute
    and the bytes written so far. *)
Inductive hashCtx :=
| Sha1Ctx (d : sha1.digest)
| ExtCtx (hashFunc : Z) (written : list byte).

Definition hash_Write (h : hashCtx) (b : list byte) : M (hashCtx * error) :=
  match h with
  | Sha1Ctx d => r <- sha1.Write sha1_block d b ;; ret (Sha1Ctx (fst (fst r)), snd r)
  | ExtCtx f written => ret (ExtCtx f (written ++ b), None)
  end.

#[export] Instance hashCtx_Writer : Writer hashCtx := {| Write := hash_Write |}.

(** [h.Sum(nil)] *)
Definition hash_Sum (h : hashCtx) : M (list byte) :=
  match h with
  | Sha1Ctx d => sha1.digest_Sum sha1_block d []
  | ExtCtx f written => ret (Hash_digest f written)
  end.

Definition set_HashSuffix (sig : Signature) (v : list byte) : Signature :=
  mkSignature (sig_Version sig) (SigType sig) (sig_PubKeyAlgo sig) (Hash sig) v
    (HashTag sig) (RSASignature sig) (DSASigR sig) (DSASigS sig) (ECDSASigR sig)
    (ECDSASigS sig) (EdDSASigR sig) (EdDSASigS sig) (FlagSign sig) (EmbeddedSignature sig).

Definition set_EmbeddedSignature (sig : Signature) (v : option Signature) : Signature :=
  mkSignature (sig_Version sig) (SigType sig) (sig_PubKeyAlgo sig) (Hash sig)
    (HashSuffix sig) (HashTag sig) (RSASignature sig) (DSASigR sig) (DSASigS sig)
    (ECDSASigR sig) (ECDSASigS sig) (EdDSASigR sig) (EdDSASigS sig) (FlagSign sig) v.

(** [sig.AddMetadataToHashSuffix()] of signature.go. *)
Definition AddMetadataToHashSuffix (sig : Signature) : Signature :=
  set_HashSuffix sig (metadataHashSuffix sig).

(** [ed25519.SignatureSize] *)
Definition ed25519_SignatureSize : Z := 64.

(** [CanSign] returns true iff this public key can generate signatures *)
Definition CanSign (pk : PublicKey) : bool :=
  negb (PubKeyAlgo pk =? PubKeyAlgoRSAEncryptOnly)
  && negb (PubKeyAlgo pk =? PubKeyAlgoElGamal)
  && negb (PubKeyAlgo pk =? PubKeyAlgoECDH).

(** [VerifySignature] returns nil iff sig is a valid signature, made by this
    public key, of the data hashed into signed. signed is mutated by this
    call, and so is sig. *)
Definition VerifySignature (pk : PublicKey) (signed : hashCtx) (sig : Signature)
  : M (hashCtx * Signature * error) :=
  println [ArgStr "pk647"] ;;
  if negb (CanSign pk) then
    ret (signed, sig, Some (InvalidArgumentError "public key cannot generate signatures"))
  else
  println [ArgStr "pk651"] ;;
  let sig := if (sig_Version sig =? 5) && ((SigType sig =? 0x00) || (SigType sig =? 0x01))
             then AddMetadataToHashSuffix sig else sig in
  println [ArgStr "pk655"] ;;
  println [ArgStr "writing to hash 8"] ;;
  r <- Write signed (HashSuffix sig) ;;
  let signed := fst r in
  println [ArgStr "done writing"] ;;
  hashBytes <- hash_Sum signed ;;
  match hashBytes with
  | [] => panic "index out of range [0] with length 0"
  | [_] =>
      fmt_Fprintf Stderr "h0 %x\n" [ArgBytes (take 1 hashBytes)] ;;
      fmt_Fprintf Stderr "s0 %x\n" [ArgBytes [fst (HashTag sig)]] ;;
      panic "index out of range [1] with length 1"
  | hb0 :: hb1 :: _ =>
  fmt_Fprintf Stderr "h0 %x\n" [ArgBytes [hb0]] ;;
  fmt_Fprintf Stderr "s0 %x\n" [ArgBytes [fst (HashTag sig)]] ;;
  fmt_Fprintf Stderr "h1 %x\n" [ArgBytes [hb1]] ;;
  fmt_Fprintf Stderr "s1 %x\n" [ArgBytes [snd (HashTag sig)]] ;;
  if negb (Byte.eqb hb0 (fst (HashTag sig))) || negb (Byte.eqb hb1 (snd (HashTag sig))) then
    ret (signed, sig, Some (SignatureError "hash tag doesn't match"))
  else
  println [ArgStr "pk661"] ;;
  if negb (PubKeyAlgo pk =? sig_PubKeyAlgo sig) then
    ret (signed, sig,
         Some (InvalidArgumentError "public key and signature use different algorithms"))
  else
  println [ArgStr "pk665"] ;;
  if (PubKeyAlgo pk =? PubKeyAlgoRSA) || (PubKeyAlgo pk =? PubKeyAlgoRSASignOnly) then
    println [ArgStr "pk668"] ;;
    s <- deref (RSASignature sig) ;;
    match PublicKey_ pk with
    | RSAKey rsaPublicKey =>
        match rsa_VerifyPKCS1v15 rsaPublicKey (Hash sig) hashBytes
                (padToKeySize rsaPublicKey (Bytes s)) with
        | Some _ => ret (signed, sig, Some (SignatureError "RSA verification failure"))
        | None => println [ArgStr "pk674"] ;; ret (signed, sig, None)
        end
    | _ => panic "invalid memory address or nil pointer dereference"
    end
  else if PubKeyAlgo pk =? PubKeyAlgoDSA then
    match PublicKey_ pk with
    | DSAKey dsaPublicKey =>
        (* Need to truncate hashBytes to match FIPS 186-3 section 4.6. *)
        let subgroupSize := (BitLen (dsa_Q dsaPublicKey) + 7) / 8 in
        let hashBytes := if subgroupSize <? Zlength hashBytes
                         then take subgroupSize hashBytes else hashBytes in
        r <- deref (DSASigR sig) ;;
        s <- deref (DSASigS sig) ;;
        if negb (dsa_Verify dsaPublicKey hashBytes (SetBytes (Bytes r)) (SetBytes (Bytes s)))
        then ret (signed, sig, Some (SignatureError "DSA verification failure"))
        else ret (signed, sig, None)
    | _ => panic "invalid memory address or nil pointer dereference"
    end
  else if PubKeyAlgo pk =? PubKeyAlgoECDSA then
    match PublicKey_ pk with
    | ECDSAKey ecdsaPublicKey =>
        r <- deref (ECDSASigR sig) ;;
        s <- deref (ECDSASigS sig) ;;
        if negb (ecdsa_Verify ecdsaPublicKey hashBytes (SetBytes (Bytes r)) (SetBytes (Bytes s)))
        then ret (signed, sig, Some (SignatureError "ECDSA verification failure"))
        else ret (signed, sig, None)
    | _ => panic "interface conversion: interface {} is not *ecdsa.PublicKey"
    end
  else if PubKeyAlgo pk =? PubKeyAlgoEdDSA then
    match PublicKey_ pk with
    | EdDSAKey eddsaPublicKey =>
        r <- deref (EdDSASigR sig) ;;
        let sigR := Bytes r in
        s <- deref (EdDSASigS sig) ;;
        let sigS := Bytes s in
        let eddsaSig := make ed25519_SignatureSize in
        if 32 <? Zlength sigR then panic "slice bounds out of range" else
        let eddsaSig := fst (copy (take 32 eddsaSig ++ drop 32 eddsaSig)
                                  (32 - Zlength sigR) (take (Zlength sigR) sigR)) in
        if 64 <? Zlength sigS then panic "slice bounds out of range" else
        let eddsaSig := fst (copy eddsaSig (64 - Zlength sigS) sigS) in
        if negb (ed25519_Verify eddsaPublicKey hashBytes eddsaSig)
        then ret (signed, sig, Some (SignatureError "EdDSA verification failure"))
        else ret (signed, sig, None)
    | _ => panic "interface conversion: interface {} is not *ed25519.PublicKey"
    end
  else
    ret (signed, sig,
         Some (SignatureError "Unsupported public key algorithm used in signature"))
  end.

(** [keySignatureHash] returns a Hash of the message that needs to be signed
    for pk to assert a subkey relationship to signed. *)
Definition keySignatureHash (pk signed : PublicKey) (hashFunc : Z)
  : M (option hashCtx * error) :=
  println [ArgStr "pk715"] ;;
  if negb (Hash_Available hashFunc) then
    ret (None, Some (UnsupportedError "hash function"))
  else
  println [ArgStr "pk719"] ;;
  println [ArgStr "hash"; ArgInt hashFunc] ;;
  h <- (if hashFunc =? crypto_SHA1 then d <- sha1.New ;; ret (Sha1Ctx d)
        else if hashFunc =? crypto_SHA256 then ret (ExtCtx crypto_SHA256 [])
        else if hashFunc =? crypto_SHA512 then ret (ExtCtx crypto_SHA512 [])
        else ret (ExtCtx hashFunc [])) ;;
  println [ArgStr "pk722"] ;;
  (* RFC 4880, section 5.2.4 *)
  r <- SerializeForHash pk h ;;
  let (h, err) := r : hashCtx * error in
  match err with
  | Some _ => ret (None, err)
  | None =>
      println [ArgStr "p728"] ;;
      r <- SerializeForHash signed h ;;
      println [ArgStr "pk730"] ;;
      ret (Some (fst r), snd r)
  end.

(** [VerifyKeySignature] returns nil iff sig is a valid signature, made by
    this public key, of signed. *)
Definition VerifyKeySignature (pk signed : PublicKey) (sig : Signature)
  : M (Signature * error) :=
  println [ArgStr "pk737"] ;;
  r <- keySignatureHash pk signed (Hash sig) ;;
  match r with
  | (_, Some err) => ret (sig, Some err)
  | (None, None) => panic "invalid memory address or nil pointer dereference"
  | (Some h, None) =>
  println [ArgStr "pk741"] ;;
  r <- VerifySignature pk h sig ;;
  let '(_, sig, err) := r : hashCtx * Signature * error in
  match err with
  | Some err =>
      println [ArgStr "pk744"] ;;
      println [ArgStr (Error err)] ;;
      ret (sig, Some err)
  | None =>
  println [ArgStr "pk747"] ;;
  if FlagSign sig then
    (* Signing subkeys must be cross-signed. See
       https://www.gnupg.org/faq/subkey-cross-certify.html. *)
    println [ArgStr "pk751"] ;;
    match EmbeddedSignature sig with
    | None => ret (sig, Some (StructuralError "signing subkey is missing cross-signature"))
    | Some embedded =>
        println [ArgStr "pk755"] ;;
        (* Verify the cross-signature. This is calculated over the same
           data as the main signature, so we cannot just recursively
           call signed.VerifyKeySignature(...) *)
        println [ArgStr "pk759"] ;;
        r <- keySignatureHash pk signed (Hash embedded) ;;
        match r with
        | (_, Some err) =>
            ret (sig, Some (StructuralError
                              (String.append "error while hashing for cross-signature: "
                                 (Error err))))
        | (None, None) => panic "invalid memory address or nil pointer dereference"
        | (Some h, None) =>
            println [ArgStr "pk763"] ;;
            r <- VerifySignature signed h embedded ;;
            let '(_, embedded, err) := r : hashCtx * Signature * error in
            let sig := set_EmbeddedSignature sig (Some embedded) in
            match err with
            | Some err =>
                ret (sig, Some (StructuralError
                                  (String.append "error while verifying cross-signature: "
                                     (Error err))))
            | None => println [ArgStr "pk767"] ;; ret (sig, None)
            end
        end
    end
  else ret (sig, None)
  end
  end.

(** [hashFunc.New()] on a hash that is available: the constructor that was
    registered for it.  [init] of this file registers [sha1.New] of the
    package above for [crypto.SHA1]; the contexts of the other hashes are
    those of [hashCtx]. *)
Definition crypto_New (hashFunc : Z) : M hashCtx :=
  if hashFunc =? crypto_SHA1 then d <- sha1.New ;; ret (Sha1Ctx d)
  else ret (ExtCtx hashFunc []).

Definition keyRevocationHash (pk : PublicKey) (hashFunc : Z)
  : M (option hashCtx * error) :=
  if negb (Hash_Available hashFunc) then
    ret (None, Some (UnsupportedError "hash function"))
  else
  h <- crypto_New hashFunc ;;
  (* RFC 4880, section 5.2.4 *)
  r <- SerializeForHash pk h ;;
  ret (Some (fst r), snd r).

(** [VerifyRevocationSignature] returns nil iff sig is a valid signature,
    made by this public key. *)
Definition VerifyRevocationSignature (pk : PublicKey) (sig : Signature)
  : M (Signature * error) :=
  r <- keyRevocationHash pk (Hash sig) ;;
  match r with
  | (_, Some err) => ret (sig, Some err)
  | (None, None) => panic "invalid memory address or nil pointer dereference"
  | (Some h, None) =>
      r <- VerifySignature pk h sig ;;
      let '(_, sig, err) := r : hashCtx * Signature * error in
      ret (sig, err)
  end.

(** [VerifySubkeyRevocationSignature] returns nil iff sig is a valid subkey
    revocation signature, made by the passed in signingKey. *)
Definition VerifySubkeyRevocationSignature (pk : PublicKey) (sig : Signature)
    (signingKey : PublicKey) : M (Signature * error) :=
  r <- keyRevocationHash pk (Hash sig) ;;
  match r with
  | (_, Some err) => ret (sig, Some err)
  | (None, None) => panic "invalid memory address or nil pointer dereference"
  | (Some h, None) =>
      r <- VerifySignature signingKey h sig ;;
      let '(_, sig, err) := r : hashCtx * Signature * error in
      ret (sig, err)
  end.

(** [userIdSignatureHash] returns a Hash of the message that needs to be
    signed to assert that pk is a valid key for id.  The string [id] is
    kept as its bytes; the error of [serializeWithoutHeaders] and those of
    the writes are dropped. *)
Definition userIdSignatureHash (id : list byte) (pk : PublicKey) (hashFunc : Z)
  : M (option hashCtx * error) :=
  if negb (Hash_Available hashFunc) then
    ret (None, Some (UnsupportedError "hash function"))
  else
  h <- (if hashFunc =? crypto_SHA1 then d <- sha1.New ;; ret (Sha1Ctx d)
        else if hashFunc =? crypto_SHA256 then ret (ExtCtx crypto_SHA256 [])
        else if hashFunc =? crypto_SHA512 then ret (ExtCtx crypto_SHA512 [])
        else ret (ExtCtx hashFunc [])) ;;
  (* RFC 4880, section 5.2.4 *)
  h <- SerializeSignaturePrefix pk h ;;
  r <- serializeWithoutHeaders pk h ;;
  let h := fst r in
  let buf := [u8 0xb4;
              u8 (Z.shiftr (Zlength id) 24);
              u8 (Z.shiftr (Zlength id) 16);
              u8 (Z.shiftr (Zlength id) 8);
              u8 (Zlength id)] in
  println [ArgStr "writing to hash 9"] ;;
  r <- Write h buf ;;
  let h := fst r in
  println [ArgStr "done writing"] ;;
  println [ArgStr "writing to hash 4"] ;;
  r <- Write h id ;;
  let h := fst r in
  println [ArgStr "done writing"] ;;
  ret (Some h, None).

(** [VerifyUserIdSignature] returns nil iff sig is a valid signature, made
    by this public key, that id is the identity of pub. *)
Definition VerifyUserIdSignature (pk : PublicKey) (id : list byte) (pub : PublicKey)
    (sig : Signature) : M (Signature * error) :=
  r <- userIdSignatureHash id pub (Hash sig) ;;
  match r with
  | (_, Some err) => ret (sig, Some err)
  | (None, None) => panic "invalid memory address or nil pointer dereference"
  | (Some h, None) =>
      r <- VerifySignature pk h sig ;;
      let '(_, sig, err) := r : hashCtx * Signature * error in
      ret (sig, err)
  end.

(** [BitLength] returns the bit length for the given public key. *)
Definition BitLength (pk : PublicKey) : M (Z * error) :=
  match switchAlgo (PubKeyAlgo pk) with
  | CaseRSA => f <- deref (n pk) ;; ret (encoding.BitLength f, None)
  | CaseDSA => f <- deref (p pk) ;; ret (encoding.BitLength f, None)
  | CaseElGamal => f <- deref (p pk) ;; ret (encoding.BitLength f, None)
  | CaseECDSA => f <- deref (p pk) ;; ret (encoding.BitLength f, None)
  | CaseECDH => f <- deref (p pk) ;; ret (encoding.BitLength f, None)
  | CaseEdDSA => f <- deref (p pk) ;; ret (encoding.BitLength f, None)
  | CaseDefault => ret (0, Some (InvalidArgumentError "bad public-key algorithm"))
  end.

(** ** What the code hashes *)

(** The bytes [SerializeForHash] leaves in an empty buffer.  This is the
    output of the code above, whatever it is; the layout the
    specification asks for is [Spec.preimage]. *)
Definition hashPreimage (pk : PublicKey) : list byte :=
  match value (SerializeForHash pk ([] : list byte)) with
  | Ret (buffer, _) => buffer
  | Panic _ => []
  end.

(** The fingerprint and the key id of the key are those
    [setFingerprintAndKeyId] computes from these bytes. *)
Definition fingerprinted (pk : PublicKey) : Prop :=
  (Version pk = 4 ->
     value (sha1.Sum sha1_block (hashPreimage pk)) = Ret (Fingerprint pk) /\
     Zlength (Fingerprint pk) = 20 /\
     PutUint64 (KeyId pk) = slice 12 20 (Fingerprint pk)) /\
  (Version pk = 5 ->
     Fingerprint pk = sha256_Sum256 (hashPreimage pk) /\
     Zlength (Fingerprint pk) = 32 /\
     PutUint64 (KeyId pk) = slice 0 8 (Fingerprint pk)).

End WithCollaborators.
End packet.

(* ================================================================== *)
(** * The specification's side *)

Module Spec.
Import packet.

(** A [k]-byte big-endian numeral. *)
Fixpoint bigEndian (k : nat) (v : Z) : list byte :=
  match k with
  | O => []
  | S k' => bigEndian k' (v / 256) ++ [u8 v]
  end.

(** An MPI whose bit length fits its two-byte prefix and announces the
    bytes that follow, an OID whose length fits its one-byte prefix. *)
Definition wfField (f : Field) : bool :=
  match f with
  | MPI bl b => (0 <=? bl) && (bl <? 2 ^ 16) && (Zlength b =? (bl + 7) / 8)
  | OID b => Zlength b <? 256
  end.

Section WithCollaborators.
Context {X : Collaborators}.

(** Section 3: the fields of each algorithm, in their declared order. *)
Definition declaredFields (pk : PublicKey) : list (option Field) :=
  match switchAlgo (PubKeyAlgo pk) with
  | CaseRSA => [n pk; e pk]
  | CaseDSA => [p pk; q pk; g pk; y pk]
  | CaseElGamal => [p pk; g pk; y pk]
  | CaseECDSA => [oid pk; p pk]
  | CaseECDH => [oid pk; p pk; kdf pk]
  | CaseEdDSA => [oid pk; p pk]
  | CaseDefault => []
  end.

Definition knownAlgorithm (pk : PublicKey) : bool :=
  match switchAlgo (PubKeyAlgo pk) with CaseDefault => false | _ => true end.

(** The algorithm is one of the eight tags and each field it declares is
    there. *)
Definition fieldsPresent (pk : PublicKey) : bool :=
  knownAlgorithm pk
  && forallb (fun f => match f with Some _ => true | None => false end) (declaredFields pk).

(** A PublicKeyMaterial value of section 3: version 4 or 5, a creation time
    that fits 32 bits, one of the eight tags, and the fields of the
    algorithm, each well formed. *)
Definition wellFormed (pk : PublicKey) : bool :=
  ((Version pk =? 4) || (Version pk =? 5))
  && (0 <=? CreationTime pk) && (CreationTime pk <? 2 ^ 32)
  && knownAlgorithm pk
  && forallb (fun f => match f with Some f => wfField f | None => false end)
             (declaredFields pk).

(** Section 4.3: the bytes of the algorithm-specific fields, their length
    [L], the body and the prefix of the hash preimage. *)
Definition fieldBytes (pk : PublicKey) : list byte :=
  List.concat (map (fun f => match f with Some f => EncodedBytes f | None => [] end)
              (declaredFields pk)).

Definition L (pk : PublicKey) : Z := Zlength (fieldBytes pk).

Definition preimageBody (pk : PublicKey) : list byte :=
  [u8 (Version pk)] ++ bigEndian 4 (CreationTime pk) ++ [u8 (PubKeyAlgo pk)]
  ++ (if Version pk =? 5 then bigEndian 4 (L pk) else [])
  ++ fieldBytes pk.

Definition preimagePrefix (pk : PublicKey) : list byte :=
  if Version pk =? 5 then [u8 0x9A] ++ bigEndian 4 (L pk + 10)
  else [u8 0x99] ++ bigEndian 2 (L pk + 6).

Definition preimage (pk : PublicKey) : list byte :=
  preimagePrefix pk ++ preimageBody pk.


(** A key that [parse] can return: a well-formed value whose fields are
    MPIs and OIDs as section 3 has them, with no field of another
    algorithm, and with parameters that section 4.1 accepts. *)
Definition isMPI (f : option Field) : bool :=
  match f with Some (MPI _ _) => true | _ => false end.
Definition isOID (f : option Field) : bool :=
  match f with Some (OID _) => true | _ => false end.
Definition absent (f : option Field) : bool :=
  match f with None => true | Some _ => false end.

Definition fieldKinds (pk : PublicKey) : bool :=
  match switchAlgo (PubKeyAlgo pk) with
  | CaseRSA =>
      isMPI (n pk) && isMPI (e pk)
      && absent (p pk) && absent (q pk) && absent (g pk) && absent (y pk)
      && absent (oid pk) && absent (kdf pk)
  | CaseDSA =>
      isMPI (p pk) && isMPI (q pk) && isMPI (g pk) && isMPI (y pk)
      && absent (n pk) && absent (e pk) && absent (oid pk) && absent (kdf pk)
  | CaseElGamal =>
      isMPI (p pk) && isMPI (g pk) && isMPI (y pk)
      && absent (n pk) && absent (e pk) && absent (q pk)
      && absent (oid pk) && absent (kdf pk)
  | CaseECDSA | CaseEdDSA =>
      isOID (oid pk) && isMPI (p pk)
      && absent (n pk) && absent (e pk) && absent (q pk) && absent (g pk)
      && absent (y pk) && absent (kdf pk)
  | CaseECDH =>
      isOID (oid pk) && isMPI (p pk) && isOID (kdf pk)
      && absent (n pk) && absent (e pk) && absent (q pk) && absent (g pk)
      && absent (y pk)
  | CaseDefault => false
  end.

Definition bytesOf (f : option Field) : list byte :=
  match f with Some f => Bytes f | None => [] end.

Definition resolves (f : option Field) (sig : SignatureAlgorithm) : bool :=
  match f with
  | Some f =>
      match FindByOid f with
      | Some curveInfo =>
          match SigAlgorithm curveInfo, sig with
          | ECDSA, ECDSA | EdDSA, EdDSA => true
          | _, _ => false
          end
      | None => false
      end
  | None => false
  end.

Definition parametersSupported (pk : PublicKey) : bool :=
  match switchAlgo (PubKeyAlgo pk) with
  | CaseRSA => Zlength (bytesOf (e pk)) <=? 3
  | CaseDSA | CaseElGamal => true
  | CaseECDSA =>
      resolves (oid pk) ECDSA
      && match oid pk with
         | Some f =>
             match FindByOid f with
             | Some curveInfo =>
                 match elliptic_Unmarshal (Curve_ curveInfo) (bytesOf (p pk)) with
                 | Some _ => true
                 | None => false
                 end
             | None => false
             end
         | None => false
         end
  | CaseECDH =>
      match oid pk with
      | Some f =>
          match FindByOid f with
          | Some curveInfo =>
              match CurveType_ curveInfo with
              | Curve25519 => true
              | _ => match elliptic_Unmarshal (Curve_ curveInfo) (bytesOf (p pk)) with
                     | Some _ => true
                     | None => false
                     end
              end
          | None => false
          end
      | None => false
      end
      && (3 <=? Zlength (bytesOf (kdf pk)))
      && (Z_of_byte (nth 0 (bytesOf (kdf pk)) x00) =? 0x01)
      && match HashById (nth 1 (bytesOf (kdf pk)) x00) with Some _ => true | None => false end
      && match CipherById (nth 2 (bytesOf (kdf pk)) x00) with Some _ => true | None => false end
  | CaseEdDSA =>
      resolves (oid pk) EdDSA
      && match bytesOf (p pk) with
         | flag :: _ => Z_of_byte flag =? 0x40
         | [] => false
         end
  | CaseDefault => false
  end.

Definition validKey (pk : PublicKey) : bool :=
  wellFormed pk && fieldKinds pk && parametersSupported pk.

(** Section 4.4, step 2.  [suffixFed meta]: a call of [VerifySignature] on
    a key that can sign leaves the signature with the metadata appended to
    its hash suffix exactly when [meta] holds of it, and leaves the hash
    context as one write of that hash suffix makes it. *)
Definition suffixFed (meta : Signature -> bool)
    (pk : PublicKey) (signed : hashCtx) (sig : Signature) : Prop :=
  forall h' sig' err,
    value (VerifySignature pk signed sig) = Ret (h', sig', err) ->
    CanSign pk = true ->
    sig' = (if meta sig then AddMetadataToHashSuffix sig else sig) /\
    exists e, value (Write signed (HashSuffix sig')) = Ret (h', e).

(** The signature types of the spec's sentence, "a binding/direct-key
    type", and the ones the code tests for. *)
Definition isBindingOrDirectKey (sig : Signature) : bool :=
  (sig_Version sig =? 5)
  && ((SigType sig =? SigTypeSubkeyBinding) || (SigType sig =? SigTypePrimaryKeyBinding)
      || (SigType sig =? SigTypeDirectSignature)).

Definition isDocument (sig : Signature) : bool :=
  (sig_Version sig =? 5)
  && ((SigType sig =? SigTypeBinary) || (SigType sig =? SigTypeText)).

(** The 64 bytes [VerifySignature] hands to ed25519: R right-aligned in the
    first half, then S right-aligned at the end, over whatever it covers. *)
Definition eddsaSignature (sigR sigS : list byte) : list byte :=
  take (64 - Zlength sigS) (make (32 - Zlength sigR) ++ sigR ++ make 32) ++ sigS.

(** The primitive of the key's algorithm accepts the signature on the
    digest. *)
Definition accepted (pk : PublicKey) (sig : Signature) (hashBytes : list byte) : Prop :=
  match PublicKey_ pk with
  | RSAKey k =>
      (PubKeyAlgo pk = PubKeyAlgoRSA \/ PubKeyAlgo pk = PubKeyAlgoRSASignOnly) /\
      exists s, RSASignature sig = Some s /\
        rsa_VerifyPKCS1v15 k (Hash sig) hashBytes (padToKeySize k (Bytes s)) = None
  | DSAKey k =>
      PubKeyAlgo pk = PubKeyAlgoDSA /\
      exists r s, DSASigR sig = Some r /\ DSASigS sig = Some s /\
        dsa_Verify k (take ((BitLen (dsa_Q k) + 7) / 8) hashBytes)
          (SetBytes (Bytes r)) (SetBytes (Bytes s)) = true
  | ECDSAKey k =>
      PubKeyAlgo pk = PubKeyAlgoECDSA /\
      exists r s, ECDSASigR sig = Some r /\ ECDSASigS sig = Some s /\
        ecdsa_Verify k hashBytes (SetBytes (Bytes r)) (SetBytes (Bytes s)) = true
  | EdDSAKey k =>
      PubKeyAlgo pk = PubKeyAlgoEdDSA /\
      exists r s, EdDSASigR sig = Some r /\ EdDSASigS sig = Some s /\
        Zlength (Bytes r) <= 32 /\ Zlength (Bytes s) <= 64 /\
        ed25519_Verify k hashBytes (eddsaSignature (Bytes r) (Bytes s)) = true
  | _ => False
  end.

(** Two keys that differ in fingerprint and key id at most. *)
Definition sameKey (pk pk' : PublicKey) : Prop :=
  Version pk' = Version pk /\ CreationTime pk' = CreationTime pk /\
  PubKeyAlgo pk' = PubKeyAlgo pk /\ PublicKey_ pk' = PublicKey_ pk /\
  IsSubkey pk' = IsSubkey pk /\
  n pk' = n pk /\ e pk' = e pk /\ p pk' = p pk /\ q pk' = q pk /\
  g pk' = g pk /\ y pk' = y pk /\ oid pk' = oid pk /\ kdf pk' = kdf pk.

End WithCollaborators.
End Spec.

(* ================================================================== *)
(** * A small instance of the collaborators, and keys to run the code on *)

Module Toy.
Import packet.

(** A compression function that rotates the chaining value. *)
Definition block (h : list Z) (b : list byte) : list Z :=
  match h with
  | a :: r => r ++ [a]
  | [] => []
  end.

(** A 32-byte checksum: the bytes 0x16, 0x17, ..., 0x35, whatever the
    input. *)
Definition Sum256 (b : list byte) : list byte :=
  Eval vm_compute in map (fun i => u8 (Z.of_nat i + 22)) (seq 0 32).

Definition ed25519Info : CurveInfo unit :=
  mkCurveInfo unit "Ed25519" (OID [x01]) tt Curve25519 EdDSA.
Definition p256Info : CurveInfo unit :=
  mkCurveInfo unit "P-256" (OID [x02]) tt NISTCurve ECDSA.

Definition FindByOid (f : Field) : option (CurveInfo unit) :=
  match Bytes f with
  | [b] => if Byte.eqb b x01 then Some ed25519Info
           else if Byte.eqb b x02 then Some p256Info else None
  | _ => None
  end.

#[export] Instance collaborators : Collaborators := {|
  Curve := unit;
  KdfHash := byte;
  KdfCipher := byte;
  sha1_block := block;
  sha256_Sum256 := Sum256;
  sha256_Sum256_size := fun _ => eq_refl;
  Hash_Available := fun _ => true;
  Hash_digest := fun _ _ => [x05; x23];
  packet.FindByOid := FindByOid;
  FindByCurve := fun _ => Some p256Info;
  FindByName := fun name => if String.eqb name "Ed25519" then Some ed25519Info else None;
  elliptic_Marshal := fun _ _ _ => [x04; x01; x02];
  elliptic_Unmarshal := fun _ b =>
    match b with
    | [_; _; _] => Some (1, 2)
    | _ => None
    end;
  HashById := fun b => Some b;
  CipherById := fun b => Some b;
  KdfHash_Id := fun b => b;
  KdfCipher_Id := fun b => b;
  rsa_VerifyPKCS1v15 := fun _ _ _ _ => None;
  padToKeySize := fun _ b => b;
  dsa_Verify := fun _ _ _ _ => true;
  ecdsa_Verify := fun _ _ _ _ => true;
  ed25519_Verify := fun _ _ _ => true;
  headerBytes := fun _ _ => [xc6];
  metadataHashSuffix := fun sig => HashSuffix sig ++ [xff]
|}.

Definition abc : list byte := [u8 97; u8 98; u8 99].

(** The digest after [Reset] and a write of the three bytes. *)
Definition digestAfterAbc : sha1.digest :=
  match value (sha1.Write block (sha1.Reset sha1.zero) abc) with
  | Ret r => fst (fst r)
  | Panic _ => sha1.zero
  end.

(** An RSA key with modulus 0x0CA1 and exponent 0x11, created at second
    0x01020304, before its fingerprint is derived. *)
Definition rsaFields (version : Z) : PublicKey :=
  mkPublicKey version 0x01020304 PubKeyAlgoRSA
    (RSAKey {| rsa_N := 0x0CA1; rsa_E := 0x11 |}) [] 0 false
    (Some (MPI 12 [u8 0x0C; u8 0xA1])) (Some (MPI 5 [u8 0x11]))
    None None None None None None.

(** The key [NewRSAPublicKey] makes of these, and its version 5. *)
Definition rsaKey4 : PublicKey :=
  match value (NewRSAPublicKey 0x01020304 {| rsa_N := 0x0CA1; rsa_E := 0x11 |}) with
  | Ret pk => pk
  | Panic _ => zeroPublicKey
  end.

Definition rsaKey5 : PublicKey :=
  match value (UpgradeToV5 rsaKey4) with
  | Ret pk => pk
  | Panic _ => zeroPublicKey
  end.

(** A version 5 subkey-binding signature whose hash tag matches nothing. *)
Definition bindingSig : Signature :=
  mkSignature 5 SigTypeSubkeyBinding PubKeyAlgoRSA crypto_SHA256
    [u8 1; u8 2; u8 3] (u8 0xEE, u8 0xEE)
    (Some (MPI 1 [u8 1])) None None None None None None false None.

(** A version 5 document signature. *)
Definition documentSig : Signature :=
  mkSignature 5 SigTypeBinary PubKeyAlgoRSA crypto_SHA256
    [u8 1; u8 2; u8 3] (u8 0xEE, u8 0xEE)
    (Some (MPI 1 [u8 1])) None None None None None None false None.

(** A second RSA key, the subkey of [rsaKey4]. *)
Definition subkey : PublicKey :=
  match value (NewRSAPublicKey 0x01020305 {| rsa_N := 0x0D2B; rsa_E := 0x11 |}) with
  | Ret pk => pk
  | Panic _ => zeroPublicKey
  end.

(** A subkey binding that declares signing capability and embeds the
    cross-signature of the subkey; the hash tags are the two bytes
    [Hash_digest] gives. *)
Definition crossSig : Signature :=
  mkSignature 4 SigTypePrimaryKeyBinding PubKeyAlgoRSA crypto_SHA256
    [u8 4; u8 5; u8 6] (u8 5, u8 35)
    (Some (MPI 1 [u8 1])) None None None None None None false None.

Definition signingBinding (embedded : option Signature) : Signature :=
  mkSignature 4 SigTypeSubkeyBinding PubKeyAlgoRSA crypto_SHA256
    [u8 1; u8 2; u8 3] (u8 5, u8 35)
    (Some (MPI 1 [u8 1])) None None None None None None true embedded.

(** The hash context of a signature over the pair of keys: it has been fed
    the preimage of the signing key and then that of the signed key. *)
Definition keyHash : hashCtx :=
  ExtCtx crypto_SHA256 (Spec.preimage rsaKey4 ++ Spec.preimage subkey).

(** The body of an RSA packet with a one-byte exponent, and the body of
    an EdDSA packet whose point has no bytes. *)
Definition rsaFieldsBytes : list byte :=
  EncodedBytes (MPI 12 [u8 0x0C; u8 0xA1]) ++ EncodedBytes (MPI 5 [u8 0x11]).

Definition eddsaFieldsBytes : list byte :=
  EncodedBytes (OID [u8 1]) ++ EncodedBytes (MPI 0 []).

(** A compression function that takes its input byte by byte, so that it
    can be fed in pieces. *)
Definition absorb (h : list Z) (b : list byte) : list Z :=
  fold_left (fun h c => match h with
                        | a :: r => r ++ [(a + Z_of_byte c) mod 2 ^ 32]
                        | [] => []
                        end) b h.

(** A marshalled state: the magic string and 92 zero bytes. *)
Definition marshalled : list byte := sha1.magic ++ make 92.

(** The collaborators with no hash function available. *)
Definition noHash : Collaborators := {|
  Curve := unit;
  KdfHash := byte;
  KdfCipher := byte;
  sha1_block := block;
  sha256_Sum256 := Sum256;
  sha256_Sum256_size := fun _ => eq_refl;
  Hash_Available := fun _ => false;
  Hash_digest := fun _ _ => [x05; x23];
  packet.FindByOid := FindByOid;
  FindByCurve := fun _ => Some p256Info;
  FindByName := fun name => if String.eqb name "Ed25519" then Some ed25519Info else None;
  elliptic_Marshal := fun _ _ _ => [x04; x01; x02];
  elliptic_Unmarshal := fun _ b =>
    match b with
    | [_; _; _] => Some (1, 2)
    | _ => None
    end;
  HashById := fun b => Some b;
  CipherById := fun b => Some b;
  KdfHash_Id := fun b => b;
  KdfCipher_Id := fun b => b;
  rsa_VerifyPKCS1v15 := fun _ _ _ _ => None;
  padToKeySize := fun _ b => b;
  dsa_Verify := fun _ _ _ _ => true;
  ecdsa_Verify := fun _ _ _ _ => true;
  ed25519_Verify := fun _ _ _ => true;
  headerBytes := fun _ _ => [xc6];
  metadataHashSuffix := fun sig => HashSuffix sig ++ [xff]
|}.

(** An ElGamal key, which cannot sign. *)
Definition elgamalKey : PublicKey :=
  mkPublicKey 4 0x01020304 PubKeyAlgoElGamal
    (ElGamalKey {| elgamal_P := 11; elgamal_G := 2; elgamal_Y := 3 |}) [] 0 false
    None None
    (Some (MPI 4 [u8 11])) None (Some (MPI 2 [u8 2])) (Some (MPI 2 [u8 3]))
    None None.

(** An EdDSA key, and a signature for it whose R has 33 bytes; the hash
    tag is the two bytes [Hash_digest] gives. *)
Definition eddsaKey : PublicKey :=
  mkPublicKey 4 0x01020304 PubKeyAlgoEdDSA (EdDSAKey (make 32)) [] 0 false
    None None
    (Some (MPI 263 (x40 :: make 32))) None None None
    (Some (OID [x01])) None.

Definition oversizedSig : Signature :=
  mkSignature 4 SigTypeBinary PubKeyAlgoEdDSA crypto_SHA256
    [u8 1; u8 2; u8 3] (u8 5, u8 35)
    None None None None None
    (Some (MPI 264 (make 33))) (Some (MPI 1 [x01])) false None.

(** A version 4 document signature by an RSA key, with that hash tag. *)
Definition rsaSig : Signature :=
  mkSignature 4 SigTypeBinary PubKeyAlgoRSA crypto_SHA256
    [u8 1; u8 2; u8 3] (u8 5, u8 35)
    (Some (MPI 1 [u8 1])) None None None None None None false None.

(** The body of an RSA packet of version 4, and the key [parse] makes of
    it. *)
Definition rsaPacket : list byte :=
  [u8 4; u8 1; u8 2; u8 3; u8 4; u8 1] ++ rsaFieldsBytes.

Definition parsedRsa : PublicKey :=
  match value (parse zeroPublicKey rsaPacket) with
  | Ret (pk, _, _) => pk
  | Panic _ => zeroPublicKey
  end.

(** The body of an EdDSA packet whose point has no bytes, and a packet of
    a version that is not supported. *)
Definition eddsaPacket : list byte :=
  [u8 4; u8 1; u8 2; u8 3; u8 4; u8 22] ++ eddsaFieldsBytes.

Definition version3Packet : list byte :=
  [u8 3; u8 1; u8 2; u8 3; u8 4; u8 1] ++ rsaFieldsBytes.

End Toy.
(* ================================================================== *)
(** * Facts about the Go values and the effects *)

Module GoFacts.

Lemma Zlength_nonneg {A} (l : list A) : 0 <= Zlength l.
Proof. rewrite Zlength_correct. lia. Qed.

Lemma Zlength_app {A} (l1 l2 : list A) : Zlength (l1 ++ l2) = Zlength l1 + Zlength l2.
Proof. rewrite !Zlength_correct, length_app. lia. Qed.

Lemma Zlength_take {A} (k : Z) (l : list A) :
  0 <= k <= Zlength l -> Zlength (take k l) = k.
Proof.
  intros Hk. unfold take. rewrite Zlength_correct in *.
  rewrite length_firstn. lia.
Qed.

Lemma Zlength_drop {A} (k : Z) (l : list A) :
  0 <= k <= Zlength l -> Zlength (drop k l) = Zlength l - k.
Proof.
  intros Hk. unfold drop. rewrite !Zlength_correct in *.
  rewrite length_skipn. lia.
Qed.

Lemma Zlength_make (k : Z) : 0 <= k -> Zlength (make k) = k.
Proof.
  intros Hk. unfold make. rewrite Zlength_correct, repeat_length. lia.
Qed.

Lemma take_all {A} (k : Z) (l : list A) : Zlength l <= k -> take k l = l.
Proof.
  intros Hk. unfold take. apply firstn_all2.
  rewrite Zlength_correct in Hk. lia.
Qed.

Lemma drop_all {A} (k : Z) (l : list A) : Zlength l <= k -> drop k l = [].
Proof.
  intros Hk. unfold drop. apply skipn_all2.
  rewrite Zlength_correct in Hk. lia.
Qed.

Lemma drop_0 {A} (l : list A) : drop 0 l = l.
Proof. reflexivity. Qed.

Lemma take_app_exact {A} (l1 l2 : list A) : take (Zlength l1) (l1 ++ l2) = l1.
Proof.
  unfold take. rewrite Zlength_correct, Nat2Z.id.
  rewrite firstn_app, Nat.sub_diag, firstn_all. simpl. apply app_nil_r.
Qed.

Lemma drop_app_exact {A} (l1 l2 : list A) : drop (Zlength l1) (l1 ++ l2) = l2.
Proof.
  unfold drop. rewrite Zlength_correct, Nat2Z.id.
  rewrite skipn_app, Nat.sub_diag, skipn_all. reflexivity.
Qed.

(** The length [copy] returns is the length it copied, and the array keeps
    its size. *)
Lemma copy_length {A} (dst : list A) (off : Z) (src : list A) :
  0 <= off <= Zlength dst ->
  Zlength (fst (copy dst off src)) = Zlength dst.
Proof.
  intros Hoff. unfold copy. cbn [fst].
  pose proof (Zlength_nonneg src).
  rewrite !Zlength_app, !Zlength_take, Zlength_drop by lia. lia.
Qed.

Lemma Z_of_byte_range (b : byte) : 0 <= Z_of_byte b < 256.
Proof.
  unfold Z_of_byte. pose proof (Byte.to_N_bounded b). lia.
Qed.

Lemma Z_of_byte_u8 (v : Z) : Z_of_byte (u8 v) = v mod 256.
Proof.
  unfold Z_of_byte, u8.
  assert (H : 0 <= v mod 256 < 256) by (apply Z.mod_pos_bound; lia).
  destruct (Byte.of_N (Z.to_N (v mod 256))) as [b|] eqn:E.
  - apply Byte.to_of_N in E. rewrite E. lia.
  - apply Byte.of_N_None_iff in E. lia.
Qed.

Lemma u8_Z_of_byte (b : byte) : u8 (Z_of_byte b) = b.
Proof.
  unfold u8, Z_of_byte. pose proof (Byte.to_N_bounded b).
  rewrite Z.mod_small by lia. rewrite N2Z.id, Byte.of_to_N. reflexivity.
Qed.

Lemma Z_of_byte_inj (a b : byte) : Z_of_byte a = Z_of_byte b -> a = b.
Proof.
  intros H. rewrite <- (u8_Z_of_byte a), <- (u8_Z_of_byte b). now rewrite H.
Qed.

(** [v &^ 63] rounds [v] down to a multiple of 64. *)
Lemma ldiff_63 (v : Z) : Z.ldiff v 63 = v - v mod 64.
Proof.
  change 63 with (Z.ones 6). rewrite Z.ldiff_ones_r by lia.
  rewrite Z.shiftr_div_pow2, Z.shiftl_mul_pow2 by lia.
  change (2 ^ 6) with 64. pose proof (Z.div_mod v 64). lia.
Qed.

Lemma copy_count {A} (dst : list A) (off : Z) (src : list A) :
  snd (copy dst off src) = Z.min (Zlength dst - off) (Zlength src).
Proof. reflexivity. Qed.

Lemma int_small (v : Z) : - 2 ^ 63 <= v < 2 ^ 63 -> int v = v.
Proof. intros H. unfold int. rewrite Z.mod_small by lia. lia. Qed.

Lemma Z_of_byte_testbit_high (b : byte) (m : Z) :
  8 <= m -> Z.testbit (Z_of_byte b) m = false.
Proof.
  intros Hm. pose proof (Z_of_byte_range b).
  rewrite <- (Z.mod_small (Z_of_byte b) (2 ^ 8)) by (change (2 ^ 8) with 256; lia).
  apply Z.mod_pow2_bits_high. lia.
Qed.

Ltac bits_by_cases :=
  let i := fresh "i" in
  let Hi := fresh "Hi" in
  apply Z.bits_inj'; intros i Hi;
  repeat first
    [ rewrite Z.testbit_mod_pow2 by lia
    | rewrite Z.lor_spec
    | rewrite Z.shiftl_spec by lia
    | rewrite Z.shiftr_spec by lia ];
  repeat match goal with
  | |- context [?a <? ?b] => destruct (Z.ltb_spec a b); cbn [andb orb]
  end;
  repeat match goal with
  | |- context [Z.testbit ?a ?m] =>
      first [ rewrite (Z.testbit_neg_r a m) by lia
            | rewrite (Z_of_byte_testbit_high _ m) by lia
            | rewrite (Z.shiftr_spec _ _ m) by lia
            | rewrite (Z.shiftl_spec _ _ m) by lia ]
  end;
  cbn [andb orb];
  rewrite ?orb_false_r, ?orb_false_l;
  try reflexivity; try lia;
  try (f_equal; lia).

Lemma be16_roundtrip (v : Z) :
  Z.lor (Z.shiftl (Z_of_byte (u8 (Z.shiftr v 8))) 8) (Z_of_byte (u8 v)) = v mod 2 ^ 16.
Proof.
  rewrite !Z_of_byte_u8. change 256 with (2 ^ 8).
  bits_by_cases.
Qed.

Lemma be32_roundtrip (v : Z) :
  uint32 (Z.lor (Z.lor (Z.lor (uint32 (Z.shiftl (Z_of_byte (u8 (Z.shiftr v 24))) 24))
                              (uint32 (Z.shiftl (Z_of_byte (u8 (Z.shiftr v 16))) 16)))
                       (uint32 (Z.shiftl (Z_of_byte (u8 (Z.shiftr v 8))) 8)))
                (Z_of_byte (u8 v)))
  = v mod 2 ^ 32.
Proof.
  unfold uint32. rewrite !Z_of_byte_u8. change 256 with (2 ^ 8).
  bits_by_cases.
Qed.

Lemma PutUint64_Uint64 (b : list byte) :
  Zlength b = 8 -> PutUint64 (Uint64 b) = b.
Proof.
  intros Hb. rewrite Zlength_correct in Hb.
  do 8 (destruct b as [|? b]; [discriminate|]).
  destruct b; [|cbn in Hb; lia].
  unfold PutUint64, Uint64.
  repeat (f_equal; [apply Z_of_byte_inj; rewrite Z_of_byte_u8; change 256 with (2 ^ 8);
                    bits_by_cases|]).
  f_equal. apply Z_of_byte_inj. rewrite Z_of_byte_u8. change 256 with (2 ^ 8).
  bits_by_cases.
Qed.

Lemma value_bind {A B} (m : M A) (k : A -> M B) :
  value (bind m k) =
  match value m with Ret a => value (k a) | Panic msg => Panic msg end.
Proof. destruct m as [[a|msg] l]; reflexivity. Qed.

Lemma output_bind {A B} (m : M A) (k : A -> M B) :
  output (bind m k) =
  match value m with Ret a => output m ++ output (k a) | Panic _ => output m end.
Proof. destruct m as [[a|msg] l]; reflexivity. Qed.

End GoFacts.
Import GoFacts.

(* ================================================================== *)
(** * Facts about package sha1 *)

Module Sha1Facts.
Import sha1.

Section Block.
Variable block : list Z -> list byte -> list Z.

Ltac digest_cbn :=
  cbn [x nx len h set_len set_nx set_x set_h bind println emit fmt_Fprintf ret
       fst snd value panic].

(** The second half of [Write], from a state with an empty buffer. *)
Ltac split_copy dst off src x' n Hx' Hn :=
  let E := fresh "E" in
  destruct (copy dst off src) as [x' n] eqn:E;
  assert (Hx' : Zlength x' = Zlength dst)
    by (change x' with (fst (x', n)); rewrite <- E; apply copy_length; lia);
  assert (Hn : n = Z.min (Zlength dst - off) (Zlength src))
    by (change n with (snd (x', n)); rewrite <- E; apply copy_count);
  clear E.

Ltac mod_lia :=
  repeat match goal with
  | H : (_ <? _) = true |- _ => apply Z.ltb_lt in H
  | H : (_ <? _) = false |- _ => apply Z.ltb_ge in H
  | H : (_ <=? _) = true |- _ => apply Z.leb_le in H
  | H : (_ <=? _) = false |- _ => apply Z.leb_gt in H
  | H : (_ =? _) = true |- _ => apply Z.eqb_eq in H
  | H : (_ =? _) = false |- _ => apply Z.eqb_neq in H
  | H : context [Zlength (drop ?k ?l)] |- _ =>
      rewrite (Zlength_drop k l) in H
        by (pose proof (Z.mod_pos_bound (Zlength l) 64); lia)
  end;
  Z.to_euclidean_division_equations; lia.

Ltac write_tail :=
  match goal with
  | |- context [64 <=? Zlength ?p1] =>
      let E3 := fresh "E3" in
      destruct (64 <=? Zlength p1) eqn:E3; digest_cbn;
      [ rewrite ldiff_63;
        rewrite (Zlength_drop (Zlength p1 - Zlength p1 mod 64) p1)
          by (pose proof (Z.mod_pos_bound (Zlength p1) 64); lia) | ]
  end;
  match goal with
  | |- context [0 <? ?l] =>
      let E4 := fresh "E4" in
      destruct (0 <? l) eqn:E4; digest_cbn
  end;
  try match goal with
  | |- context [copy ?dst 0 ?src] =>
      let x' := fresh "x'" in let n := fresh "n" in
      let Hx' := fresh "Hx'" in let Hn := fresh "Hn" in
      split_copy dst 0 src x' n Hx' Hn
  end;
  digest_cbn;
  eexists; (split; [reflexivity|]); digest_cbn;
  (split; [lia|]); (split; [reflexivity|]).

Lemma Write_state (d : digest) (b : list byte) :
  Zlength (x d) = chunk -> 0 <= nx d < chunk ->
  exists d',
    value (Write block d b) = Ret (d', Zlength b, None) /\
    Zlength (x d') = chunk /\
    len d' = uint64 (len d + Zlength b) /\
    nx d' = (nx d + Zlength b) mod chunk.
Proof.
  intros Hx Hnx. unfold Write, chunk in *.
  pose proof (Zlength_nonneg b) as Hb.
  destruct d as [dh dx dnx dlen]. digest_cbn. cbn [x nx] in Hx, Hnx.
  assert (Hlen : uint64 (dlen + uint64 (Zlength b)) = uint64 (dlen + Zlength b)).
  { unfold uint64. rewrite Z.add_mod_idemp_r by lia. reflexivity. }
  rewrite Hlen. clear Hlen.
  change (64 - 1) with 63.
  destruct (0 <? dnx) eqn:E1; digest_cbn.
  - split_copy dx dnx b x1 n1 Hx1 Hn1. digest_cbn.
    assert (Hp1 : Zlength (drop n1 b) = Zlength b - n1) by (apply Zlength_drop; lia).
    remember (drop n1 b) as p1 eqn:Ep1. clear Ep1.
    destruct (dnx + n1 =? 64) eqn:E2; digest_cbn.
    + write_tail; mod_lia.
    + write_tail; mod_lia.
  - write_tail; mod_lia.
Qed.

Definition buffered (d : digest) : Prop :=
  Zlength (x d) = chunk /\ nx d = len d mod chunk.

Lemma buffered_Write (d : digest) (b : list byte) :
  buffered d ->
  exists d', value (Write block d b) = Ret (d', Zlength b, None) /\ buffered d' /\
             nx d' = (nx d + Zlength b) mod chunk.
Proof.
  intros [Hx Hnx]. unfold chunk in *.
  destruct (Write_state d b) as (d' & Hv & Hx' & Hlen & Hnx'); unfold chunk.
  - exact Hx.
  - rewrite Hnx. apply Z.mod_pos_bound. lia.
  - exists d'. split; [exact Hv|]. split; [|exact Hnx'].
    split; [exact Hx'|]. rewrite Hnx', Hlen, Hnx. unfold uint64, chunk.
    change (2 ^ 64) with (64 * 2 ^ 58).
    rewrite Z.add_mod_idemp_l by lia.
    rewrite Z.rem_mul_r by lia.
    rewrite Z.mul_comm, Z.mod_add by lia. rewrite Z.mod_mod by lia. reflexivity.
Qed.

Lemma reachable_buffered (d : digest) : reachable block d -> buffered d.
Proof.
  induction 1 as [d0 Hx | d b r Hd IH Hw].
  - split; [exact Hx | reflexivity].
  - destruct (buffered_Write d b IH) as (d' & Hv & Hb & _).
    rewrite Hw in Hv. injection Hv as ->. exact Hb.
Qed.

Lemma checkSum_buffered (d : digest) :
  buffered d ->
  exists d' sum,
    value (checkSum block d) = Ret (d', sum) /\ nx d' = 0 /\ Zlength sum = Size.
Proof.
  intros Hd. pose proof Hd as [Hx Hnx]. unfold checkSum.
  set (tmp := u8 128 :: tl (make 64)).
  assert (Htmp : Zlength tmp = 64) by reflexivity.
  assert (Hmod : 0 <= len d mod 64 < 64) by (apply Z.mod_pos_bound; lia).
  assert (H1 : exists d1, value (if len d mod 64 <? 56
                                 then Write block d (slice 0 (56 - len d mod 64) tmp)
                                 else Write block d (slice 0 (64 + 56 - len d mod 64) tmp))
                          = Ret d1 /\ buffered (fst (fst d1)) /\ nx (fst (fst d1)) = 56).
  { destruct (len d mod 64 <? 56) eqn:E.
    - apply Z.ltb_lt in E.
      destruct (buffered_Write d (slice 0 (56 - len d mod 64) tmp) Hd) as (d1 & Hv & Hb & Hn).
      eexists. split; [exact Hv|]. split; [exact Hb|]. cbn [fst]. rewrite Hn.
      unfold slice. rewrite drop_0, Zlength_take by lia. rewrite Hnx. unfold chunk.
      replace (len d mod 64 + (56 - len d mod 64 - 0)) with 56 by lia. reflexivity.
    - apply Z.ltb_ge in E.
      destruct (buffered_Write d (slice 0 (64 + 56 - len d mod 64) tmp) Hd) as (d1 & Hv & Hb & Hn).
      eexists. split; [exact Hv|]. split; [exact Hb|]. cbn [fst]. rewrite Hn.
      unfold slice. rewrite drop_0, Zlength_take by lia. rewrite Hnx. unfold chunk.
      replace (len d mod 64 + (64 + 56 - len d mod 64 - 0)) with (56 + 1 * 64) by lia.
      rewrite Z.mod_add by lia. reflexivity. }
  destruct H1 as (r1 & Hv1 & Hb1 & Hn1).
  rewrite value_bind, Hv1.
  set (tmp2 := fst (copy tmp 0 (PutUint64 (uint64 (Z.shiftl (len d) 3))))).
  destruct (buffered_Write (fst (fst r1)) (slice 0 8 tmp2) Hb1) as (d2 & Hv2 & Hb2 & Hn2).
  rewrite value_bind, Hv2. cbn [fst].
  assert (Hz : nx d2 = 0).
  { rewrite Hn2, Hn1. unfold slice. rewrite drop_0, Zlength_take.
    - reflexivity.
    - unfold tmp2. rewrite copy_length; rewrite Htmp; lia. }
  rewrite Hz. cbn [Z.eqb negb]. eexists _, _. split; [reflexivity|].
  split; [exact Hz | reflexivity].
Qed.

(** [Sum] returns: no input makes the final check of [checkSum] fail. *)
Lemma Sum_total (data : list byte) :
  exists sum, value (Sum block data) = Ret sum /\ Zlength sum = Size.
Proof.
  unfold Sum.
  assert (H0 : buffered (Reset zero)) by (split; reflexivity).
  destruct (buffered_Write (Reset zero) data H0) as (d1 & Hv & Hb & _).
  rewrite value_bind, Hv. cbn [fst].
  destruct (checkSum_buffered d1 Hb) as (d2 & sum & Hc & _ & Hs).
  rewrite value_bind, Hc. exists sum. split; [reflexivity | exact Hs].
Qed.

(** C9.  In every digest state reachable through [Reset] and [Write],
    [checkSum] writes the padding and the bit length, finds the buffer
    consumed ([nx = 0]) and returns the 20-byte checksum: the call
    [panic("d.nx != 0")] is never reached. *)
Theorem checkSum_consumes_buffer (d : digest) :
  reachable block d ->
  exists d' sum,
    value (checkSum block d) = Ret (d', sum) /\ nx d' = 0 /\ Zlength sum = Size.
Proof.
  intros Hd. apply checkSum_buffered. apply reachable_buffered. exact Hd.
Qed.

End Block.

(** The digest after [Reset] and a write of three bytes is reachable, and
    its checksum is computed. *)
Lemma checkSum_consumes_buffer_witness :
  reachable Toy.block Toy.digestAfterAbc /\
  exists d' sum,
    value (checkSum Toy.block Toy.digestAfterAbc) = Ret (d', sum) /\
    nx d' = 0 /\ Zlength sum = Size.
Proof.
  assert (H : reachable Toy.block Toy.digestAfterAbc).
  { apply (reach_Write Toy.block (Reset zero) Toy.abc (Toy.digestAfterAbc, 3, None)).
    - apply reach_Reset. reflexivity.
    - vm_compute. reflexivity. }
  split; [exact H | exact (checkSum_consumes_buffer Toy.block _ H)].
Defined.

End Sha1Facts.

(* ================================================================== *)
(** * Facts about package packet *)

Module PacketFacts.
Import packet Spec Sha1Facts.

Lemma readFull_app (a rest : list byte) :
  readFull (a ++ rest) (Zlength a) = (a, rest, None).
Proof.
  unfold readFull. pose proof (Zlength_nonneg rest).
  rewrite Zlength_app.
  destruct (Zlength a <=? Zlength a + Zlength rest) eqn:E;
    [|apply Z.leb_gt in E; lia].
  now rewrite take_app_exact, drop_app_exact.
Qed.

Lemma readFull_ok (r : Reader) (k : Z) (b : list byte) (r' : Reader) :
  0 <= k -> readFull r k = (b, r', None) -> r = b ++ r' /\ Zlength b = k.
Proof.
  unfold readFull. intros Hk. destruct (k <=? Zlength r) eqn:E; [|discriminate].
  apply Z.leb_le in E. intros H. injection H as <- <-. split.
  - unfold take, drop. symmetry. apply firstn_skipn.
  - apply Zlength_take. lia.
Qed.

Lemma lor_shiftl_byte (v : Z) (b : byte) :
  Z.lor (Z.shiftl v 8) (Z_of_byte b) = 256 * v + Z_of_byte b.
Proof.
  assert (H : Z.land (Z.shiftl v 8) (Z_of_byte b) = 0).
  { apply Z.bits_inj'. intros i Hi. rewrite Z.land_spec, Z.bits_0.
    destruct (Z.ltb_spec i 8).
    - rewrite Z.shiftl_spec_low by lia. reflexivity.
    - rewrite Z_of_byte_testbit_high by lia. apply andb_false_r. }
  pose proof (Z.add_lor_land (Z.shiftl v 8) (Z_of_byte b)) as Hadd.
  rewrite H in Hadd. rewrite Z.shiftl_mul_pow2 in * by lia.
  change (2 ^ 8) with 256 in *. lia.
Qed.

(** A field that [MPI_ReadFrom] read in full is a well-formed MPI, and its
    encoding is what was read. *)
Lemma MPI_ReadFrom_ok (r r' : Reader) (f : Field) :
  MPI_ReadFrom r = (f, r', None) ->
  wfField f = true /\ r = EncodedBytes f ++ r'.
Proof.
  unfold MPI_ReadFrom.
  destruct (readFull r 2) as [[buf r1] [e1|]] eqn:E1; [discriminate|].
  apply readFull_ok in E1 as [-> Hbuf]; [|lia].
  rewrite Zlength_correct in Hbuf.
  destruct buf as [|b1 [|b0 [|? ?]]]; cbn in Hbuf; try lia.
  cbn [nth].
  set (bl := Z.lor _ _).
  destruct (readFull r1 ((bl + 7) / 8)) as [[bytes r2] e2] eqn:E2.
  intros H. injection H as <- <- ->.
  assert (Hbl : 0 <= bl < 2 ^ 16).
  { unfold bl. rewrite lor_shiftl_byte.
    pose proof (Z_of_byte_range b0). pose proof (Z_of_byte_range b1).
    change (2 ^ 16) with 65536. lia. }
  apply readFull_ok in E2 as [-> Hlen];
    [|apply Z.div_pos; lia].
  split.
  - cbn [wfField]. rewrite Hlen, Z.eqb_refl.
    destruct Hbl as [H1 H2]. apply Z.leb_le in H1. apply Z.ltb_lt in H2.
    now rewrite H1, H2.
  - cbn [EncodedBytes app]. f_equal; [|f_equal].
    + apply Z_of_byte_inj. rewrite Z_of_byte_u8. unfold bl.
      rewrite lor_shiftl_byte, Z.shiftr_div_pow2 by lia. change (2 ^ 8) with 256.
      pose proof (Z_of_byte_range b0). pose proof (Z_of_byte_range b1).
      Z.to_euclidean_division_equations. lia.
    + apply Z_of_byte_inj. rewrite Z_of_byte_u8. unfold bl.
      rewrite lor_shiftl_byte.
      pose proof (Z_of_byte_range b0). pose proof (Z_of_byte_range b1).
      Z.to_euclidean_division_equations. lia.
Qed.

Lemma OID_ReadFrom_ok (r r' : Reader) (f : Field) :
  OID_ReadFrom r = (f, r', None) ->
  wfField f = true /\ r = EncodedBytes f ++ r'.
Proof.
  unfold OID_ReadFrom.
  destruct (readFull r 1) as [[buf r1] [e1|]] eqn:E1; [discriminate|].
  apply readFull_ok in E1 as [-> Hbuf]; [|lia].
  rewrite Zlength_correct in Hbuf.
  destruct buf as [|b0 [|? ?]]; cbn in Hbuf; try lia.
  cbn [nth]. pose proof (Z_of_byte_range b0) as Hb0.
  destruct (readFull r1 (Z_of_byte b0)) as [[bytes r2] e2] eqn:E2.
  intros H. injection H as <- <- ->.
  apply readFull_ok in E2 as [-> Hlen]; [|lia].
  split.
  - cbn [wfField]. apply Z.ltb_lt. lia.
  - cbn [EncodedBytes app]. rewrite Hlen, u8_Z_of_byte. reflexivity.
Qed.

(** Reading back what was encoded. *)
Lemma MPI_ReadFrom_encoded (bl : Z) (b rest : list byte) :
  wfField (MPI bl b) = true ->
  MPI_ReadFrom (EncodedBytes (MPI bl b) ++ rest) = (MPI bl b, rest, None).
Proof.
  cbn [wfField]. intros H.
  apply andb_prop in H as [H H3]. apply andb_prop in H as [H1 H2].
  apply Z.leb_le in H1. apply Z.ltb_lt in H2. apply Z.eqb_eq in H3.
  unfold MPI_ReadFrom. cbn [EncodedBytes].
  rewrite <- app_assoc.
  change 2 with (Zlength [u8 (Z.shiftr bl 8); u8 bl]) at 1.
  rewrite readFull_app. cbn [nth].
  rewrite be16_roundtrip, Z.mod_small by lia.
  rewrite <- H3, readFull_app. reflexivity.
Qed.

Lemma OID_ReadFrom_encoded (b rest : list byte) :
  wfField (OID b) = true ->
  OID_ReadFrom (EncodedBytes (OID b) ++ rest) = (OID b, rest, None).
Proof.
  cbn [wfField]. intros H. apply Z.ltb_lt in H. pose proof (Zlength_nonneg b).
  unfold OID_ReadFrom. cbn [EncodedBytes].
  rewrite <- app_assoc.
  change 1 with (Zlength [u8 (Zlength b)]) at 1.
  rewrite readFull_app. cbn [nth].
  rewrite Z_of_byte_u8, Z.mod_small by lia.
  rewrite readFull_app. reflexivity.
Qed.

Lemma Write_prints_input (block : list Z -> list byte -> list Z)
    (d : sha1.digest) (b : list byte) :
  In (Printf Stderr "bytes to digest: %x\n" [ArgBytes b]) (output (sha1.Write block d b)).
Proof.
  unfold sha1.Write.
  cbn [bind println emit fmt_Fprintf output snd fst app].
  do 3 right. left. reflexivity.
Qed.

Lemma Sum_prints_input (block : list Z -> list byte -> list Z) (data : list byte) :
  In (Printf Stderr "bytes to digest: %x\n" [ArgBytes data]) (output (sha1.Sum block data)).
Proof.
  unfold sha1.Sum. rewrite output_bind.
  pose proof (Write_prints_input block (sha1.Reset sha1.zero) data) as Hin.
  destruct (value _); [apply in_or_app; left|]; exact Hin.
Qed.

Section WithCollaborators.
Context {X : Collaborators}.

Ltac run :=
  cbn [bind ret emit println fmt_Println fmt_Printf fmt_Fprintf fst snd value output
       deref panic Write Buffer_Writer
       Version CreationTime PubKeyAlgo PublicKey_ Fingerprint KeyId IsSubkey
       n e p q g y oid kdf].

Lemma SerializeForHash_buffer (pk : PublicKey) (buf : list byte) :
  fieldsPresent pk = true ->
  exists c,
    value (algorithmSpecificByteCount pk) = Ret c /\
    c = fold_left
          (fun acc f => int (acc + match f with Some f => int (EncodedLength f) | None => 0 end))
          (declaredFields pk) 0 /\
    value (SerializeForHash pk buf) =
    Ret (buf
         ++ (if Version pk =? 5
             then [u8 0x9A; u8 (Z.shiftr (int (c + 10)) 24); u8 (Z.shiftr (int (c + 10)) 16);
                   u8 (Z.shiftr (int (c + 10)) 8); u8 (int (c + 10))]
             else [u8 0x99; u8 (Z.shiftr (int (c + 6)) 8); u8 (int (c + 6))])
         ++ [u8 (Version pk);
             u8 (Z.shiftr (uint32 (CreationTime pk)) 24);
             u8 (Z.shiftr (uint32 (CreationTime pk)) 16);
             u8 (Z.shiftr (uint32 (CreationTime pk)) 8);
             u8 (uint32 (CreationTime pk));
             u8 (PubKeyAlgo pk)]
         ++ (if Version pk =? 5
             then [u8 (Z.shiftr c 24); u8 (Z.shiftr c 16); u8 (Z.shiftr c 8); u8 c]
             else [])
         ++ fieldBytes pk, None).
Proof.
  unfold fieldsPresent, knownAlgorithm, fieldBytes, declaredFields.
  unfold SerializeForHash, SerializeSignaturePrefix, serializeWithoutHeaders,
    algorithmSpecificByteCount.
  destruct pk as [v t a k fp kid sub fn fe fp' fq fg fy foid fkdf]. run.
  destruct (switchAlgo a) eqn:Ea; cbn [forallb andb map List.concat fold_left];
    try discriminate;
    repeat match goal with
    | |- context [match ?f with Some _ => _ | None => _ end] =>
        is_var f; destruct f; try discriminate
    end;
    intros _; run; (eexists; split; [reflexivity|]; split; [reflexivity|]);
    destruct (v =? 5) eqn:Ev; run;
    rewrite <- ?app_assoc, ?app_nil_r; reflexivity.
Qed.


Lemma bigEndian_2 (v : Z) : bigEndian 2 v = [u8 (Z.shiftr v 8); u8 v].
Proof.
  cbn [bigEndian app]. rewrite Z.shiftr_div_pow2 by lia. reflexivity.
Qed.

Lemma bigEndian_4 (v : Z) :
  bigEndian 4 v = [u8 (Z.shiftr v 24); u8 (Z.shiftr v 16); u8 (Z.shiftr v 8); u8 v].
Proof.
  cbn [bigEndian app]. rewrite !Z.shiftr_div_pow2 by lia.
  rewrite !Z.div_div by lia. reflexivity.
Qed.

Lemma SetBytes_snoc (b : list byte) (c : byte) :
  SetBytes (b ++ [c]) = 256 * SetBytes b + Z_of_byte c.
Proof. unfold SetBytes. rewrite fold_left_app. reflexivity. Qed.

Lemma SetBytes_bigEndian (k : nat) (v : Z) :
  SetBytes (bigEndian k v) = v mod 256 ^ Z.of_nat k.
Proof.
  revert v. induction k as [|k IH]; intros v.
  - cbn. now rewrite Z.mod_1_r.
  - cbn [bigEndian]. rewrite SetBytes_snoc, IH, Z_of_byte_u8.
    rewrite Nat2Z.inj_succ, Z.pow_succ_r by lia.
    assert (0 < 256 ^ Z.of_nat k) by (apply Z.pow_pos_nonneg; lia).
    rewrite Z.rem_mul_r by lia. apply Z.add_comm.
Qed.

Lemma wfField_length (f : Field) :
  wfField f = true ->
  int (EncodedLength f) = Zlength (EncodedBytes f) /\
  0 <= Zlength (EncodedBytes f) <= 8194.
Proof.
  destruct f as [bl b | b]; cbn [wfField EncodedLength EncodedBytes]; intros H.
  - apply andb_prop in H as [H H3]. apply andb_prop in H as [H1 H2].
    apply Z.leb_le in H1. apply Z.ltb_lt in H2. apply Z.eqb_eq in H3.
    rewrite Zlength_app. change (Zlength [u8 (Z.shiftr bl 8); u8 bl]) with 2.
    change (2 ^ 16) with 65536 in H2.
    assert (0 <= (bl + 7) / 8 <= 8192) by (Z.to_euclidean_division_equations; lia).
    rewrite int_small by lia. lia.
  - apply Z.ltb_lt in H. pose proof (Zlength_nonneg b).
    rewrite Zlength_app. change (Zlength [u8 (Zlength b)]) with 1.
    rewrite int_small by lia. lia.
Qed.

Lemma wfFields_length (fs : list (option Field)) (acc : Z) :
  forallb (fun f => match f with Some f => wfField f | None => false end) fs = true ->
  0 <= acc -> acc + 8194 * Zlength fs < 2 ^ 63 ->
  fold_left
    (fun acc f => int (acc + match f with Some f => int (EncodedLength f) | None => 0 end))
    fs acc
  = acc + Zlength (List.concat
                     (map (fun f => match f with Some f => EncodedBytes f | None => [] end) fs))
  /\ 0 <= Zlength (List.concat
                     (map (fun f => match f with Some f => EncodedBytes f | None => [] end) fs))
       <= 8194 * Zlength fs.
Proof.
  revert acc.
  induction fs as [|[f|] fs IH]; cbn [forallb map fold_left List.concat];
    intros acc H Hacc Hbound.
  - split; [cbn; lia|]. cbn. lia.
  - apply andb_prop in H as [Hf Hfs].
    destruct (wfField_length f Hf) as [E1 E2].
    pose proof (Zlength_nonneg fs) as Hfs0.
    rewrite Zlength_cons in Hbound.
    rewrite Zlength_app, Zlength_cons, E1.
    rewrite int_small by lia.
    destruct (IH (acc + Zlength (EncodedBytes f)) Hfs) as [IH1 IH2]; [lia | lia |].
    rewrite IH1. split; lia.
  - discriminate.
Qed.

Lemma wellFormed_fieldsPresent (pk : PublicKey) :
  wellFormed pk = true -> fieldsPresent pk = true.
Proof.
  unfold wellFormed, fieldsPresent. intros H.
  apply andb_prop in H as [H Hf]. apply andb_prop in H as [_ Hk].
  rewrite Hk. cbn [andb]. rewrite forallb_forall in *.
  intros [f|] Hin; [reflexivity|]. exact (Hf None Hin).
Qed.

Lemma declaredFields_length (pk : PublicKey) : Zlength (declaredFields pk) <= 4.
Proof.
  unfold declaredFields. destruct (switchAlgo (PubKeyAlgo pk)); cbn; lia.
Qed.

(** The count the code keeps is the length [L] of the field bytes. *)
Lemma wellFormed_count (pk : PublicKey) :
  wellFormed pk = true ->
  value (algorithmSpecificByteCount pk) = Ret (L pk) /\ 0 <= L pk <= 32776.
Proof.
  intros Hwf.
  destruct (SerializeForHash_buffer pk [] (wellFormed_fieldsPresent pk Hwf))
    as (c & Hc & Ec & _).
  unfold wellFormed in Hwf. apply andb_prop in Hwf as [_ Hf].
  pose proof (declaredFields_length pk) as Hn.
  pose proof (Zlength_nonneg (declaredFields pk)) as Hn0.
  destruct (wfFields_length _ 0 Hf) as [E1 E2]; [lia | lia |].
  unfold L, fieldBytes. rewrite Hc, Ec, E1. split; [reflexivity | lia].
Qed.

(** C1.  For every PublicKeyMaterial value, of version 4 or 5 and of any of
    the algorithms, what [SerializeForHash] writes is the prefix followed
    by the body of section 4.3: the body is the version byte, the 4-byte
    big-endian creation time, the algorithm tag, for version 5 the 4-byte
    big-endian count [L], and the encoded fields in their declared order;
    the version 4 prefix is 0x99 and two bytes that read [L + 6], the
    version 5 prefix is 0x9A and four bytes that read [L + 10]. *)
Theorem SerializeForHash_is_prefix_then_body (pk : PublicKey) :
  wellFormed pk = true ->
  value (SerializeForHash pk ([] : list byte))
    = Ret (preimagePrefix pk ++ preimageBody pk, None)
  /\ (Version pk = 4 ->
        exists hi lo, preimagePrefix pk = [u8 0x99; hi; lo] /\ SetBytes [hi; lo] = L pk + 6)
  /\ (Version pk = 5 ->
        exists b3 b2 b1 b0,
          preimagePrefix pk = [u8 0x9A; b3; b2; b1; b0] /\
          SetBytes [b3; b2; b1; b0] = L pk + 10)
  /\ SetBytes (bigEndian 4 (CreationTime pk)) = CreationTime pk
  /\ SetBytes (bigEndian 4 (L pk)) = L pk.
Proof.
  intros Hwf. pose proof (wellFormed_count pk Hwf) as [Hcount HL].
  destruct (SerializeForHash_buffer pk [] (wellFormed_fieldsPresent pk Hwf))
    as (c & Hc & _ & Hs).
  rewrite Hcount in Hc. injection Hc as <-.
  unfold wellFormed in Hwf.
  apply andb_prop in Hwf as [Hwf _]. apply andb_prop in Hwf as [Hwf _].
  apply andb_prop in Hwf as [Hwf Ht2]. apply andb_prop in Hwf as [Hv Ht1].
  apply Z.leb_le in Ht1. apply Z.ltb_lt in Ht2.
  assert (Ht : uint32 (CreationTime pk) = CreationTime pk)
    by (unfold uint32; apply Z.mod_small; lia).
  split; [|split; [|split; [|split]]].
  - rewrite Hs, Ht. rewrite (int_small (L pk + 10)), (int_small (L pk + 6)) by lia.
    unfold preimagePrefix, preimageBody.
    rewrite !bigEndian_4, bigEndian_2. cbn [app].
    destruct (Version pk =? 5); reflexivity.
  - intros E4. unfold preimagePrefix. rewrite E4. cbn [Z.eqb Pos.eqb].
    rewrite bigEndian_2. eexists _, _. split; [reflexivity|].
    rewrite <- bigEndian_2, SetBytes_bigEndian. apply Z.mod_small.
    change (256 ^ Z.of_nat 2) with 65536. lia.
  - intros E5. unfold preimagePrefix. rewrite E5. cbn [Z.eqb Pos.eqb].
    rewrite bigEndian_4. eexists _, _, _, _. split; [reflexivity|].
    rewrite <- bigEndian_4, SetBytes_bigEndian. apply Z.mod_small.
    change (256 ^ Z.of_nat 4) with 4294967296. lia.
  - rewrite SetBytes_bigEndian. apply Z.mod_small.
    change (256 ^ Z.of_nat 4) with 4294967296. lia.
  - rewrite SetBytes_bigEndian. apply Z.mod_small.
    change (256 ^ Z.of_nat 4) with 4294967296. lia.
Qed.

Lemma copy_full {A} (dst src : list A) :
  Zlength dst = Zlength src -> fst (copy dst 0 src) = src.
Proof.
  intros H. unfold copy. cbn [fst]. rewrite Z.sub_0_r, H, Z.min_id, Z.add_0_l.
  rewrite <- H at 2. rewrite (drop_all (Zlength dst) dst) by lia.
  rewrite (take_all (Zlength src) src) by lia.
  unfold take. cbn. apply app_nil_r.
Qed.

Lemma Zlength_slice {A} (lo hi : Z) (l : list A) :
  0 <= lo <= hi -> hi <= Zlength l -> Zlength (slice lo hi l) = hi - lo.
Proof.
  intros H1 H2. unfold slice. rewrite Zlength_take; [lia|].
  rewrite Zlength_drop by lia. lia.
Qed.

Lemma SerializeForHash_set (pk : PublicKey) (fpr : list byte) (kid : Z) (buf : list byte) :
  SerializeForHash (set_KeyId (set_Fingerprint pk fpr) kid) buf = SerializeForHash pk buf.
Proof. destruct pk. reflexivity. Qed.

Lemma hashPreimage_set (pk : PublicKey) (fpr : list byte) (kid : Z) :
  hashPreimage (set_KeyId (set_Fingerprint pk fpr) kid) = hashPreimage pk.
Proof. unfold hashPreimage. now rewrite SerializeForHash_set. Qed.

Lemma SerializeForHash_total (pk : PublicKey) :
  fieldsPresent pk = true ->
  value (SerializeForHash pk ([] : list byte)) = Ret (hashPreimage pk, None).
Proof.
  intros H. destruct (SerializeForHash_buffer pk [] H) as (c & _ & _ & Hs).
  unfold hashPreimage. rewrite Hs. reflexivity.
Qed.

(** What [setFingerprintAndKeyId] does to a key whose fields are there. *)
Lemma setFingerprintAndKeyId_derived (pk : PublicKey) :
  fieldsPresent pk = true ->
  exists pk',
    value (setFingerprintAndKeyId pk) = Ret pk' /\ sameKey pk pk' /\ fingerprinted pk'.
Proof.
  intros Hp. unfold setFingerprintAndKeyId.
  pose proof (SerializeForHash_total pk Hp) as Hs.
  destruct (Version pk =? 5) eqn:Ev.
  - apply Z.eqb_eq in Ev.
    rewrite !value_bind, Hs. cbn [fst value ret bind fmt_Printf emit].
    eexists. split; [reflexivity|].
    split; [destruct pk; repeat split|].
    unfold fingerprinted. rewrite hashPreimage_set.
    destruct pk as [v t a k fpr kid sub fn fe fp' fq fg fy foid fkdf].
    cbn [Version Fingerprint KeyId set_Fingerprint set_KeyId] in *. subst v.
    split; [discriminate|]. intros _.
    set (pre := hashPreimage _).
    rewrite copy_full by (rewrite sha256_Sum256_size; reflexivity).
    split; [reflexivity|]. split; [apply sha256_Sum256_size|].
    apply PutUint64_Uint64. apply Zlength_slice; [lia|].
    rewrite sha256_Sum256_size. lia.
  - apply Z.eqb_neq in Ev.
    destruct (Sum_total sha1_block (hashPreimage pk)) as (sum & Hsum & Hlen).
    rewrite !value_bind, Hs. cbn [fst]. rewrite !value_bind, Hsum.
    cbn [fst value ret bind fmt_Printf emit].
    eexists. split; [reflexivity|].
    split; [destruct pk; repeat split|].
    unfold fingerprinted. rewrite hashPreimage_set.
    destruct pk as [v t a k fpr kid sub fn fe fp' fq fg fy foid fkdf].
    cbn [Version Fingerprint KeyId set_Fingerprint set_KeyId] in *.
    split; [|intros E5; contradiction].
    intros _. set (pre := hashPreimage _) in *.
    rewrite copy_full by (rewrite Hlen; reflexivity).
    split; [exact Hsum|]. split; [exact Hlen|].
    apply PutUint64_Uint64. apply Zlength_slice; [lia|].
    rewrite Hlen. unfold sha1.Size. lia.
Qed.

(** [parse] after a header of version 4 or 5: the key with the header
    fields set goes to the reader of its algorithm, and a key read without
    error gets its fingerprint. *)
Lemma parse_header (pk : PublicKey) (v t3 t2 t1 t0 a : byte) (count r0 : list byte) :
  (Z_of_byte v = 4 /\ count = []) \/ (Z_of_byte v = 5 /\ Zlength count = 4) ->
  let pk1 :=
    set_PubKeyAlgo
      (set_CreationTime (set_Version pk (Z_of_byte v))
         (uint32 (Z.lor (Z.lor (Z.lor (uint32 (Z.shiftl (Z_of_byte t3) 24))
                                      (uint32 (Z.shiftl (Z_of_byte t2) 16)))
                               (uint32 (Z.shiftl (Z_of_byte t1) 8)))
                        (Z_of_byte t0))))
      (Z_of_byte a) in
  value (parse pk ([v; t3; t2; t1; t0; a] ++ count ++ r0)) =
  match value (match switchAlgo (Z_of_byte a) with
               | CaseRSA => ret (parseRSA pk1 r0)
               | CaseDSA => ret (parseDSA pk1 r0)
               | CaseElGamal => ret (parseElGamal pk1 r0)
               | CaseECDSA => ret (parseECDSA pk1 r0)
               | CaseECDH => ret (parseECDH pk1 r0)
               | CaseEdDSA => parseEdDSA pk1 r0
               | CaseDefault =>
                   ret (pk1, r0,
                        Some (UnsupportedError
                                (String.append "public key type: " (Itoa (Z_of_byte a)))))
               end) with
  | Ret (pk2, r, Some err) => Ret (pk2, r, Some err)
  | Ret (pk2, r, None) =>
      match value (setFingerprintAndKeyId pk2) with
      | Ret pk3 => Ret (pk3, r, None)
      | Panic msg => Panic msg
      end
  | Panic msg => Panic msg
  end.
Proof.
  intros Hv pk1. unfold parse.
  change 6 with (Zlength [v; t3; t2; t1; t0; a]). rewrite readFull_app.
  cbn [nth].
  assert (Hr : (if Version (set_Version pk (Z_of_byte v)) =? 5
                then readFull (count ++ r0) 4 else ([], count ++ r0, None))
               = (count, r0, None)).
  { destruct pk. cbn [Version set_Version].
    destruct Hv as [[-> ->] | [-> Hc]]; cbn [Z.eqb Pos.eqb app].
    - reflexivity.
    - rewrite <- Hc. apply readFull_app. }
  assert (Hver : negb (Z_of_byte v =? 4) && negb (Z_of_byte v =? 5) = false)
    by (destruct Hv as [[-> _] | [-> _]]; reflexivity).
  unfold Reader in *. rewrite Hver, Hr.
  destruct pk as [v0 t a0 k fpr kid sub fn fe fp' fq fg fy foid fkdf].
  cbn [set_Version set_CreationTime set_PubKeyAlgo Version CreationTime PubKeyAlgo
       PublicKey_ Fingerprint KeyId IsSubkey n e p q g y oid kdf] in *.
  fold pk1. rewrite value_bind.
  destruct (value _) as [[[pk2 r] [err|]]|msg]; try reflexivity.
  rewrite value_bind. destruct (value (setFingerprintAndKeyId pk2)); reflexivity.
Qed.


Lemma parseRSA_read (pk : PublicKey) (r r1 r2 : Reader) (fn fe : Field) :
  MPI_ReadFrom r = (fn, r1, None) -> MPI_ReadFrom r1 = (fe, r2, None) ->
  parseRSA pk r =
  if 3 <? Zlength (Bytes fe) then
    (set_e (set_n pk (Some fn)) (Some fe), r2,
     Some (UnsupportedError "large public exponent"))
  else
    (set_PublicKey (set_e (set_n pk (Some fn)) (Some fe))
       (RSAKey {| rsa_N := SetBytes (Bytes fn);
                  rsa_E := fold_left
                             (fun E b => Z.lor (int (Z.shiftl E 8)) (int (Z_of_byte b)))
                             (Bytes fe) 0 |}),
     r2, None).
Proof.
  intros H1 H2. unfold parseRSA. rewrite H1, H2. reflexivity.
Qed.

(** The loop [E <<= 8; E |= int(b)] over at most three bytes reads them as
    a big-endian numeral below 2^24: nothing is shifted out of the [int]. *)
Lemma exponent_accumulate (b : list byte) :
  Zlength b <= 3 ->
  fold_left (fun E c => Z.lor (int (Z.shiftl E 8)) (int (Z_of_byte c))) b 0 = SetBytes b
  /\ 0 <= SetBytes b < 2 ^ 24.
Proof.
  intros Hb. rewrite Zlength_correct in Hb.
  assert (Hstep : forall E c, 0 <= E < 2 ^ 16 ->
            Z.lor (int (Z.shiftl E 8)) (int (Z_of_byte c)) = 256 * E + Z_of_byte c).
  { intros E c HE. pose proof (Z_of_byte_range c).
    change (2 ^ 16) with 65536 in HE.
    rewrite (int_small (Z_of_byte c)) by lia.
    rewrite int_small by (rewrite Z.shiftl_mul_pow2 by lia; change (2 ^ 8) with 256; lia).
    apply lor_shiftl_byte. }
  change (2 ^ 24) with 16777216.
  destruct b as [|b0 [|b1 [|b2 [|? ?]]]]; cbn in Hb; try lia;
    unfold SetBytes; cbn [fold_left];
    try pose proof (Z_of_byte_range b0);
    try pose proof (Z_of_byte_range b1);
    try pose proof (Z_of_byte_range b2);
    change (2 ^ 16) with 65536 in Hstep;
    rewrite ?(Hstep 0) by lia;
    rewrite ?(Hstep (256 * 0 + _)) by lia;
    rewrite ?(Hstep (256 * (256 * 0 + _) + _)) by lia;
    split; lia.
Qed.

(** C8.  An RSA-family packet of version 4 or 5 whose two MPIs are read in
    full fails to parse, as unsupported, exactly when the exponent has
    more than 3 bytes; with at most 3 bytes the parse succeeds and the
    exponent, shifted in byte by byte, is below 2^24. *)
Theorem parse_RSA_exponent (pk : PublicKey) (v t3 t2 t1 t0 a : byte)
    (count r0 r1 r2 : list byte) (fn fe : Field) :
  (Z_of_byte v = 4 /\ count = []) \/ (Z_of_byte v = 5 /\ Zlength count = 4) ->
  switchAlgo (Z_of_byte a) = CaseRSA ->
  MPI_ReadFrom r0 = (fn, r1, None) ->
  MPI_ReadFrom r1 = (fe, r2, None) ->
  let packet := [v; t3; t2; t1; t0; a] ++ count ++ r0 in
  ((exists pk' msg,
      value (parse pk packet) = Ret (pk', r2, Some (UnsupportedError msg)))
   <-> 3 < Zlength (Bytes fe))
  /\ (snd (parseRSA pk r0) = Some (UnsupportedError "large public exponent")
      <-> 3 < Zlength (Bytes fe))
  /\ (Zlength (Bytes fe) <= 3 ->
      exists pk',
        value (parse pk packet) = Ret (pk', r2, None) /\
        n pk' = Some fn /\ e pk' = Some fe /\
        PublicKey_ pk' = RSAKey {| rsa_N := SetBytes (Bytes fn);
                                   rsa_E := SetBytes (Bytes fe) |} /\
        0 <= SetBytes (Bytes fe) < 2 ^ 24).
Proof.
  intros Hv Ha Hn He packet. unfold packet.
  rewrite (parse_header pk v t3 t2 t1 t0 a count r0 Hv), Ha.
  cbn [value ret fst].
  set (pk1 := set_PubKeyAlgo _ _).
  rewrite (parseRSA_read pk1 r0 r1 r2 fn fe Hn He).
  rewrite (parseRSA_read pk r0 r1 r2 fn fe Hn He).
  destruct (3 <? Zlength (Bytes fe)) eqn:E3.
  - apply Z.ltb_lt in E3. split; [|split].
    + split; [intros _; exact E3 | intros _; eexists _, _; reflexivity].
    + split; [intros _; exact E3 | reflexivity].
    + intros Hle. lia.
  - apply Z.ltb_ge in E3.
    destruct (exponent_accumulate (Bytes fe) E3) as [HE Hrange]. rewrite HE.
    set (pk2 := set_PublicKey _ _).
    assert (Hp : fieldsPresent pk2 = true).
    { unfold fieldsPresent, knownAlgorithm, declaredFields, pk2, pk1.
      destruct pk. cbn [PubKeyAlgo set_PublicKey set_e set_n set_PubKeyAlgo n e].
      rewrite Ha. reflexivity. }
    destruct (setFingerprintAndKeyId_derived pk2 Hp) as (pk3 & Hv3 & Hsame & _).
    rewrite Hv3. split; [|split].
    + split; [intros (pk' & msg & H); discriminate | lia].
    + cbn [snd]. split; [discriminate | lia].
    + intros _. exists pk3. split; [reflexivity|].
      destruct Hsame as (_ & _ & _ & Hk & _ & Hn' & He' & _).
      rewrite Hn', He', Hk. unfold pk2, pk1. destruct pk.
      cbn [set_PublicKey set_e set_n set_PubKeyAlgo n e PublicKey_].
      repeat split; try reflexivity; lia.
Qed.


(** A packet that [parse] accepts starts with a header of version 4 or 5. *)
Lemma parse_shape (pk pk' : PublicKey) (r r' : Reader) :
  value (parse pk r) = Ret (pk', r', None) ->
  exists v t3 t2 t1 t0 a count r0,
    r = [v; t3; t2; t1; t0; a] ++ count ++ r0 /\
    ((Z_of_byte v = 4 /\ count = []) \/ (Z_of_byte v = 5 /\ Zlength count = 4)).
Proof.
  unfold parse.
  destruct (readFull r 6) as [[buf r1] [e1|]] eqn:E1; [discriminate|].
  apply readFull_ok in E1 as [-> Hbuf]; [|lia].
  rewrite Zlength_correct in Hbuf.
  destruct buf as [|v [|t3 [|t2 [|t1 [|t0 [|a [|? ?]]]]]]]; cbn in Hbuf; try lia.
  cbn [nth].
  destruct (Z_of_byte v =? 4) eqn:E4; [apply Z.eqb_eq in E4|].
  - destruct pk. cbn [negb andb set_Version Version]. rewrite E4. cbn [Z.eqb Pos.eqb].
    intros _. exists v, t3, t2, t1, t0, a, [], r1. split; [reflexivity|]. now left.
  - destruct (Z_of_byte v =? 5) eqn:E5; [apply Z.eqb_eq in E5|discriminate].
    destruct pk. cbn [negb andb set_Version Version]. rewrite E5. cbn [Z.eqb Pos.eqb].
    destruct (readFull r1 4) as [[count r0] [e2|]] eqn:E2; [discriminate|].
    apply readFull_ok in E2 as [-> Hc]; [|lia].
    intros _. exists v, t3, t2, t1, t0, a, count, r0. split; [reflexivity|]. now right.
Qed.

Ltac read_fields :=
  repeat match goal with
  | |- context [MPI_ReadFrom ?r] =>
      let e := fresh "e" in
      destruct (MPI_ReadFrom r) as [[? ?] [e|]]; [discriminate|]
  | |- context [OID_ReadFrom ?r] =>
      let e := fresh "e" in
      destruct (OID_ReadFrom r) as [[? ?] [e|]]; [discriminate|]
  end.

(** The key a field reader returns without error has the fields of its
    algorithm. *)
Lemma readers_fill_fields (pk1 pk2 : PublicKey) (r r' : Reader) :
  value (match switchAlgo (PubKeyAlgo pk1) with
         | CaseRSA => ret (parseRSA pk1 r)
         | CaseDSA => ret (parseDSA pk1 r)
         | CaseElGamal => ret (parseElGamal pk1 r)
         | CaseECDSA => ret (parseECDSA pk1 r)
         | CaseECDH => ret (parseECDH pk1 r)
         | CaseEdDSA => parseEdDSA pk1 r
         | CaseDefault =>
             ret (pk1, r,
                  Some (UnsupportedError
                          (String.append "public key type: " (Itoa (PubKeyAlgo pk1)))))
         end) = Ret (pk2, r', None) ->
  fieldsPresent pk2 = true.
Proof.
  unfold fieldsPresent, knownAlgorithm, declaredFields.
  destruct pk1 as [v t a k fpr kid sub fn fe fp' fq fg fy foid fkdf].
  cbn [PubKeyAlgo].
  destruct (switchAlgo a) eqn:Ea; cbn [value ret fst].
  - unfold parseRSA. read_fields.
    destruct (3 <? _); [discriminate|]. intros H. injection H as <- <-.
    cbn. rewrite Ea. reflexivity.
  - unfold parseDSA. read_fields. intros H. injection H as <- <-.
    cbn. rewrite Ea. reflexivity.
  - unfold parseElGamal. read_fields. intros H. injection H as <- <-.
    cbn. rewrite Ea. reflexivity.
  - unfold parseECDSA. read_fields.
    destruct (FindByOid _) as [ci|]; [|discriminate].
    destruct (SigAlgorithm ci); [|discriminate].
    destruct (elliptic_Unmarshal _ _) as [[? ?]|]; [|discriminate].
    intros H. injection H as <- <-. cbn. rewrite Ea. reflexivity.
  - unfold parseECDH. read_fields.
    destruct (FindByOid _) as [ci|]; [|discriminate].
    destruct (fst _); [|discriminate].
    destruct (_ <? 3); [discriminate|].
    destruct (negb _); [discriminate|].
    destruct (HashById _); [|discriminate].
    destruct (CipherById _); [|discriminate].
    intros H. injection H as <- <-. cbn. rewrite Ea. reflexivity.
  - unfold parseEdDSA.
    destruct (OID_ReadFrom r) as [[? ?] [?|]]; [discriminate|].
    destruct (FindByOid _) as [ci|]; [|discriminate].
    destruct (SigAlgorithm ci); [discriminate|].
    destruct (MPI_ReadFrom _) as [[? ?] [?|]]; [discriminate|].
    destruct (Bytes _) as [|flag rest]; [discriminate|].
    destruct (Z_of_byte flag =? 4); [discriminate|].
    destruct (Z_of_byte flag =? 64); [|discriminate].
    intros H. injection H as <- <-. cbn. rewrite Ea. reflexivity.
  - discriminate.
Qed.

Lemma parse_derived (pk pk' : PublicKey) (r r' : Reader) :
  value (parse pk r) = Ret (pk', r', None) -> fingerprinted pk'.
Proof.
  intros H. destruct (parse_shape pk pk' r r' H)
    as (v & t3 & t2 & t1 & t0 & a & count & r0 & -> & Hv).
  rewrite (parse_header pk v t3 t2 t1 t0 a count r0 Hv) in H.
  set (pk1 := set_PubKeyAlgo _ _) in H.
  assert (Ea : PubKeyAlgo pk1 = Z_of_byte a) by (unfold pk1; destruct pk; reflexivity).
  pose proof (readers_fill_fields pk1) as Hfill. rewrite Ea in Hfill.
  destruct (value _) as [[[pk2 r2] [err|]]|msg] eqn:Ed in H; try discriminate.
  specialize (Hfill pk2 r0 r2 Ed).
  destruct (setFingerprintAndKeyId_derived pk2 Hfill) as (pk3 & Hv3 & _ & Hd).
  rewrite Hv3 in H. injection H as <- _. exact Hd.
Qed.

Lemma parseEdDSA_returns (pk : PublicKey) (r0 r1 r2 : list byte) (foid fp : Field)
    (curveInfo : CurveInfo Curve) :
  OID_ReadFrom r0 = (foid, r1, None) ->
  FindByOid foid = Some curveInfo ->
  SigAlgorithm curveInfo = EdDSA ->
  MPI_ReadFrom r1 = (fp, r2, None) ->
  Bytes fp <> [] ->
  exists res, value (parseEdDSA pk r0) = Ret res.
Proof.
  intros Hoid Hfind Hsig Hp Hne.
  unfold parseEdDSA. rewrite Hoid, Hfind, Hsig, Hp.
  destruct (Bytes fp) as [|flag rest]; [contradiction|].
  destruct (Z_of_byte flag =? 4); [eexists; reflexivity|].
  destruct (Z_of_byte flag =? 64); eexists; reflexivity.
Qed.

(** C10.  An EdDSA packet whose curve OID resolves to an EdDSA curve and
    whose point MPI has no content bytes makes the parser index the first
    byte of an empty slice: the outcome of [parseEdDSA], and of [parse], is
    a run-time panic, not an error value.  When the point has a byte, both
    return. *)
Theorem parseEdDSA_empty_point (pk : PublicKey) (v t3 t2 t1 t0 a : byte)
    (count r0 r1 r2 : list byte) (foid fp : Field) (curveInfo : CurveInfo Curve) :
  (Z_of_byte v = 4 /\ count = []) \/ (Z_of_byte v = 5 /\ Zlength count = 4) ->
  switchAlgo (Z_of_byte a) = CaseEdDSA ->
  OID_ReadFrom r0 = (foid, r1, None) ->
  FindByOid foid = Some curveInfo ->
  SigAlgorithm curveInfo = EdDSA ->
  MPI_ReadFrom r1 = (fp, r2, None) ->
  let packet := [v; t3; t2; t1; t0; a] ++ count ++ r0 in
  (Bytes fp = [] ->
     value (parseEdDSA pk r0) = Panic "index out of range [0] with length 0" /\
     value (parse pk packet) = Panic "index out of range [0] with length 0")
  /\ (Bytes fp <> [] ->
      (exists res, value (parseEdDSA pk r0) = Ret res) /\
      (exists res, value (parse pk packet) = Ret res)).
Proof.
  intros Hv Ha Hoid Hfind Hsig Hp packet. unfold packet.
  rewrite (parse_header pk v t3 t2 t1 t0 a count r0 Hv), Ha.
  split.
  - intros Hempty. unfold parseEdDSA. rewrite Hoid, Hfind, Hsig, Hp, Hempty.
    split; reflexivity.
  - intros Hne.
    split; [exact (parseEdDSA_returns pk r0 r1 r2 foid fp curveInfo Hoid Hfind Hsig Hp Hne)|].
    set (pk1 := set_PubKeyAlgo _ _).
    destruct (parseEdDSA_returns pk1 r0 r1 r2 foid fp curveInfo Hoid Hfind Hsig Hp Hne)
      as ([[pk2 r] err] & Hres).
    pose proof (readers_fill_fields pk1 pk2 r0 r) as Hfill.
    assert (Ea : PubKeyAlgo pk1 = Z_of_byte a) by (unfold pk1; destruct pk; reflexivity).
    rewrite Ea, Ha in Hfill. rewrite Hres.
    destruct err as [err|]; [eexists; reflexivity|].
    destruct (setFingerprintAndKeyId_derived pk2 (Hfill Hres)) as (pk3 & Hv3 & _).
    rewrite Hv3. eexists. reflexivity.
Qed.

Lemma constructed_derived (pk : PublicKey) :
  fieldsPresent pk = true ->
  (exists pk', value (setFingerprintAndKeyId pk) = Ret pk' /\ fingerprinted pk') /\
  (forall pk', value (setFingerprintAndKeyId pk) = Ret pk' -> fingerprinted pk').
Proof.
  intros Hp. destruct (setFingerprintAndKeyId_derived pk Hp) as (pk3 & Hv3 & _ & Hd).
  split; [exists pk3; split; assumption|].
  intros pk' H. rewrite Hv3 in H. injection H as <-. exact Hd.
Qed.


Lemma serializeWithoutHeaders_buffer (pk : PublicKey) (buf : list byte) :
  fieldsPresent pk = true ->
  exists c,
    value (algorithmSpecificByteCount pk) = Ret c /\
    value (serializeWithoutHeaders pk buf) =
    Ret (buf
         ++ [u8 (Version pk);
             u8 (Z.shiftr (uint32 (CreationTime pk)) 24);
             u8 (Z.shiftr (uint32 (CreationTime pk)) 16);
             u8 (Z.shiftr (uint32 (CreationTime pk)) 8);
             u8 (uint32 (CreationTime pk));
             u8 (PubKeyAlgo pk)]
         ++ (if Version pk =? 5
             then [u8 (Z.shiftr c 24); u8 (Z.shiftr c 16); u8 (Z.shiftr c 8); u8 c]
             else [])
         ++ fieldBytes pk, None).
Proof.
  unfold fieldsPresent, knownAlgorithm, fieldBytes, declaredFields.
  unfold serializeWithoutHeaders, algorithmSpecificByteCount.
  destruct pk as [v t a k fpr kid sub fn fe fp' fq fg fy foid fkdf]. run.
  destruct (switchAlgo a) eqn:Ea; cbn [forallb andb map List.concat fold_right];
    try discriminate;
    repeat match goal with
    | |- context [match ?f with Some _ => _ | None => _ end] =>
        is_var f; destruct f; try discriminate
    end;
    intros _; run; (eexists; split; [reflexivity|]);
    destruct (v =? 5) eqn:Ev; run;
    rewrite <- ?app_assoc, ?app_nil_r; reflexivity.
Qed.

Lemma wellFormed_time (pk : PublicKey) :
  wellFormed pk = true ->
  ((Version pk = 4) \/ (Version pk = 5)) /\ uint32 (CreationTime pk) = CreationTime pk.
Proof.
  unfold wellFormed. intros Hwf.
  apply andb_prop in Hwf as [Hwf _]. apply andb_prop in Hwf as [Hwf _].
  apply andb_prop in Hwf as [Hwf Ht2]. apply andb_prop in Hwf as [Hv Ht1].
  apply Z.leb_le in Ht1. apply Z.ltb_lt in Ht2. split.
  - apply orb_prop in Hv as [Hv|Hv]; apply Z.eqb_eq in Hv; auto.
  - unfold uint32. apply Z.mod_small. lia.
Qed.

(** On a well-formed key the bytes the code hashes are the hash preimage
    of section 4.3: the prefix, then the body. *)
Lemma hashPreimage_preimage (pk : PublicKey) :
  wellFormed pk = true -> hashPreimage pk = preimage pk.
Proof.
  intros Hwf. pose proof (wellFormed_count pk Hwf) as [Hcount HL].
  destruct (wellFormed_time pk Hwf) as [_ Ht].
  destruct (SerializeForHash_buffer pk [] (wellFormed_fieldsPresent pk Hwf))
    as (c & Hc & _ & Hs).
  rewrite Hcount in Hc. injection Hc as <-.
  unfold hashPreimage. rewrite Hs, Ht.
  rewrite (int_small (L pk + 10)), (int_small (L pk + 6)) by lia.
  unfold preimage, preimagePrefix, preimageBody.
  rewrite !bigEndian_4, bigEndian_2. cbn [app].
  destruct (Version pk =? 5); reflexivity.
Qed.



(** What [serializeWithoutHeaders] writes is the body of the preimage. *)
Lemma serializeWithoutHeaders_body (pk : PublicKey) (buf : list byte) :
  wellFormed pk = true ->
  value (serializeWithoutHeaders pk buf) = Ret (buf ++ preimageBody pk, None).
Proof.
  intros Hwf. pose proof (wellFormed_count pk Hwf) as [Hcount HL].
  destruct (wellFormed_time pk Hwf) as [_ Ht].
  destruct (serializeWithoutHeaders_buffer pk buf (wellFormed_fieldsPresent pk Hwf))
    as (c & Hc & Hs).
  rewrite Hcount in Hc. injection Hc as <-.
  rewrite Hs, Ht. unfold preimageBody. rewrite !bigEndian_4. cbn [app].
  destruct (Version pk =? 5); reflexivity.
Qed.

Lemma Serialize_buffer (pk : PublicKey) (buf : list byte) :
  wellFormed pk = true ->
  value (Serialize pk buf) =
  Ret (buf
       ++ headerBytes (if IsSubkey pk then packetTypePublicSubkey else packetTypePublicKey)
                      (Zlength (preimageBody pk))
       ++ preimageBody pk, None).
Proof.
  intros Hwf. pose proof (wellFormed_count pk Hwf) as [Hcount HL].
  assert (Hbody : Zlength (preimageBody pk)
                  = if Version pk =? 5 then 6 + L pk + 4 else 6 + L pk).
  { unfold preimageBody. rewrite !bigEndian_4. fold (L pk).
    destruct (Version pk =? 5); rewrite !Zlength_app; fold (L pk);
      rewrite ?Zlength_cons, ?Zlength_nil; unfold L; lia. }
  unfold Serialize, serializeHeader. rewrite value_bind, Hcount, Hbody.
  rewrite (int_small (6 + L pk)), (int_small (6 + L pk + 4)) by lia.
  rewrite value_bind. cbn [Write Buffer_Writer value ret fst].
  rewrite serializeWithoutHeaders_body by exact Hwf.
  rewrite <- app_assoc. reflexivity.
Qed.

Ltac split_andb :=
  repeat match goal with
  | H : (_ && _)%bool = true |- _ => apply andb_prop in H as [? ?]
  end.

Ltac field_kinds :=
  repeat match goal with
  | H : isMPI ?f = true |- _ =>
      destruct f as [[? ?|?]|]; try discriminate H; clear H
  | H : isOID ?f = true |- _ =>
      destruct f as [[? ?|?]|]; try discriminate H; clear H
  | H : absent ?f = true |- _ =>
      destruct f as [?|]; try discriminate H; clear H
  end.

Lemma readers_roundtrip (pk : PublicKey) (v1 t1 : Z) (rest : list byte) :
  validKey pk = true ->
  let pk1 := mkPublicKey v1 t1 (PubKeyAlgo pk) NoKey [] 0 false
               None None None None None None None None in
  exists K,
    value (match switchAlgo (PubKeyAlgo pk) with
           | CaseRSA => ret (parseRSA pk1 (fieldBytes pk ++ rest))
           | CaseDSA => ret (parseDSA pk1 (fieldBytes pk ++ rest))
           | CaseElGamal => ret (parseElGamal pk1 (fieldBytes pk ++ rest))
           | CaseECDSA => ret (parseECDSA pk1 (fieldBytes pk ++ rest))
           | CaseECDH => ret (parseECDH pk1 (fieldBytes pk ++ rest))
           | CaseEdDSA => parseEdDSA pk1 (fieldBytes pk ++ rest)
           | CaseDefault =>
               ret (pk1, fieldBytes pk ++ rest,
                    Some (UnsupportedError
                            (String.append "public key type: " (Itoa (PubKeyAlgo pk)))))
           end)
    = Ret (mkPublicKey v1 t1 (PubKeyAlgo pk) K [] 0 false
             (n pk) (e pk) (p pk) (q pk) (g pk) (y pk) (oid pk) (kdf pk), rest, None).
Proof.
  unfold validKey, wellFormed, fieldKinds, parametersSupported, fieldBytes, declaredFields,
    knownAlgorithm.
  destruct pk as [v t a k fpr kid sub fn fe fp' fq fg fy foid fkdf].
  cbn [Version CreationTime PubKeyAlgo n e p q g y oid kdf].
  intros H. cbv zeta.
  destruct (switchAlgo a) eqn:Ea; split_andb; try discriminate; field_kinds;
    cbn [forallb map List.concat bytesOf Bytes] in *; split_andb;
    rewrite <- ?app_assoc, ?app_nil_r, ?app_nil_l; cbn [value ret fst].
  - unfold parseRSA. rewrite !MPI_ReadFrom_encoded by assumption.
    cbn [Bytes].
    match goal with H : (_ <=? 3) = true |- _ => apply Z.leb_le in H;
      apply Z.ltb_ge in H; rewrite H end.
    eexists. reflexivity.
  - unfold parseDSA. rewrite !MPI_ReadFrom_encoded by assumption.
    eexists. reflexivity.
  - unfold parseElGamal. rewrite !MPI_ReadFrom_encoded by assumption.
    eexists. reflexivity.
  - unfold parseECDSA.
    rewrite OID_ReadFrom_encoded, MPI_ReadFrom_encoded by assumption.
    cbn [Bytes set_oid set_p oid p]. unfold resolves in *.
    destruct (FindByOid (OID bytes0)) as [ci|]; [|discriminate].
    destruct (SigAlgorithm ci); [|discriminate].
    destruct (elliptic_Unmarshal (Curve_ ci) bytes) as [[? ?]|]; [|discriminate].
    eexists. reflexivity.
  - unfold parseECDH.
    rewrite !OID_ReadFrom_encoded, MPI_ReadFrom_encoded by assumption.
    rewrite OID_ReadFrom_encoded by assumption.
    cbn [Bytes set_oid set_p set_kdf oid p kdf].
    destruct (FindByOid (OID bytes1)) as [ci|]; [|discriminate].
    repeat match goal with
    | H : (3 <=? _) = true |- _ => apply Z.leb_le in H; apply Z.ltb_ge in H; rewrite H
    | H : (Z_of_byte _ =? 1) = true |- _ => rewrite H
    end.
    cbn [negb].
    destruct (HashById _); [|discriminate].
    destruct (CipherById _); [|discriminate].
    destruct (CurveType_ ci);
      try (destruct (elliptic_Unmarshal (Curve_ ci) bytes) as [[? ?]|]; [|discriminate]);
      cbn [fst snd]; eexists; reflexivity.
  - unfold parseEdDSA.
    rewrite OID_ReadFrom_encoded by assumption. unfold resolves in *.
    destruct (FindByOid (OID bytes0)) as [ci|]; [|discriminate].
    destruct (SigAlgorithm ci); [discriminate|].
    rewrite MPI_ReadFrom_encoded by assumption.
    cbn [Bytes]. destruct bytes as [|flag rest']; [discriminate|].
    match goal with H : (Z_of_byte flag =? 64) = true |- _ =>
      pose proof H as Hflag; apply Z.eqb_eq in Hflag; rewrite H end.
    rewrite Hflag. cbn [Z.eqb Pos.eqb value ret fst].
    eexists. reflexivity.
Qed.

(** The fingerprint and the key id [setFingerprintAndKeyId] computes. *)
Lemma setFingerprintAndKeyId_value (pk : PublicKey) :
  fieldsPresent pk = true ->
  exists F,
    (if Version pk =? 5 then F = sha256_Sum256 (hashPreimage pk)
     else value (sha1.Sum sha1_block (hashPreimage pk)) = Ret F) /\
    value (setFingerprintAndKeyId pk) =
    Ret (set_KeyId (set_Fingerprint pk F)
           (Uint64 (if Version pk =? 5 then slice 0 8 F else slice 12 20 F))).
Proof.
  intros Hp. unfold setFingerprintAndKeyId.
  pose proof (SerializeForHash_total pk Hp) as Hs.
  destruct (Version pk =? 5) eqn:Ev.
  - rewrite !value_bind, Hs. cbn [fst value ret bind fmt_Printf emit].
    eexists. split; [reflexivity|].
    destruct pk. cbn [set_Fingerprint set_KeyId Fingerprint KeyId Version CreationTime
                      PubKeyAlgo PublicKey_ IsSubkey n e p q g y oid kdf].
    rewrite copy_full by (rewrite sha256_Sum256_size; reflexivity). reflexivity.
  - destruct (Sum_total sha1_block (hashPreimage pk)) as (sum & Hsum & Hlen).
    rewrite !value_bind, Hs. cbn [fst]. rewrite !value_bind, Hsum.
    cbn [fst value ret bind fmt_Printf emit].
    exists sum. split; [reflexivity|].
    destruct pk. cbn [set_Fingerprint set_KeyId Fingerprint KeyId Version CreationTime
                      PubKeyAlgo PublicKey_ IsSubkey n e p q g y oid kdf].
    rewrite copy_full by (rewrite Hlen; reflexivity). reflexivity.
Qed.

Lemma knownAlgorithm_byte (pk : PublicKey) :
  knownAlgorithm pk = true -> Z_of_byte (u8 (PubKeyAlgo pk)) = PubKeyAlgo pk.
Proof.
  unfold knownAlgorithm, switchAlgo. intros H. rewrite Z_of_byte_u8.
  repeat match type of H with
  | context [?a =? ?b] => destruct (Z.eqb_spec a b) as [->|_]; [reflexivity|]
  end.
  cbn in H. discriminate.
Qed.

(** C3.  A valid key, written by [Serialize] and read back by [parse] from
    the bytes after the packet header, comes back with the same version,
    creation time, algorithm and fields, and with the fingerprint and the
    key id of the original. *)
Theorem Serialize_then_parse (pk : PublicKey) :
  validKey pk = true ->
  value (setFingerprintAndKeyId pk) = Ret pk ->
  value (Serialize pk ([] : list byte)) =
    Ret (headerBytes (if IsSubkey pk then packetTypePublicSubkey else packetTypePublicKey)
                     (Zlength (preimageBody pk))
         ++ preimageBody pk, None)
  /\ forall rest,
       exists pk',
         value (parse zeroPublicKey (preimageBody pk ++ rest)) = Ret (pk', rest, None) /\
         Version pk' = Version pk /\
         CreationTime pk' = CreationTime pk /\
         PubKeyAlgo pk' = PubKeyAlgo pk /\
         n pk' = n pk /\ e pk' = e pk /\ p pk' = p pk /\ q pk' = q pk /\
         g pk' = g pk /\ y pk' = y pk /\ oid pk' = oid pk /\ kdf pk' = kdf pk /\
         Fingerprint pk' = Fingerprint pk /\
         KeyId pk' = KeyId pk.
Proof.
  intros Hvalid Hfix.
  assert (Hwf : wellFormed pk = true)
    by (unfold validKey in Hvalid; apply andb_prop in Hvalid as [Hvalid _];
        apply andb_prop in Hvalid as [Hvalid _]; exact Hvalid).
  pose proof (wellFormed_fieldsPresent pk Hwf) as Hp.
  split; [apply (Serialize_buffer pk [] Hwf)|].
  intros rest.
  destruct (wellFormed_time pk Hwf) as [Hv Ht].
  pose proof (wellFormed_count pk Hwf) as [_ HL].
  assert (Hk : knownAlgorithm pk = true).
  { unfold fieldsPresent in Hp. apply andb_prop in Hp as [Hp _]. exact Hp. }
  unfold preimageBody. rewrite bigEndian_4.
  change ([u8 (Version pk)] ++
          [u8 (Z.shiftr (CreationTime pk) 24); u8 (Z.shiftr (CreationTime pk) 16);
           u8 (Z.shiftr (CreationTime pk) 8); u8 (CreationTime pk)] ++
          [u8 (PubKeyAlgo pk)] ++
          (if Version pk =? 5 then bigEndian 4 (L pk) else []) ++ fieldBytes pk)
    with ([u8 (Version pk);
           u8 (Z.shiftr (CreationTime pk) 24); u8 (Z.shiftr (CreationTime pk) 16);
           u8 (Z.shiftr (CreationTime pk) 8); u8 (CreationTime pk);
           u8 (PubKeyAlgo pk)] ++
          ((if Version pk =? 5 then bigEndian 4 (L pk) else []) ++ fieldBytes pk)).
  rewrite <- !app_assoc.
  rewrite parse_header.
  2:{ destruct Hv as [E|E]; rewrite E; [left|right]; split; reflexivity. }
  rewrite be32_roundtrip, Z.mod_small
    by (unfold uint32 in Ht; rewrite <- Ht; apply Z.mod_pos_bound; lia).
  rewrite (knownAlgorithm_byte pk Hk).
  assert (Ever : Z_of_byte (u8 (Version pk)) = Version pk)
    by (destruct Hv as [E|E]; rewrite E; reflexivity).
  rewrite Ever.
  unfold set_PubKeyAlgo, set_CreationTime, set_Version, zeroPublicKey.
  cbn [Version CreationTime PubKeyAlgo PublicKey_ Fingerprint KeyId IsSubkey
       n e p q g y oid kdf].
  destruct (readers_roundtrip pk (Version pk) (CreationTime pk) rest Hvalid) as (K & HK).
  cbv zeta in HK. rewrite HK.
  set (pk2 := mkPublicKey _ _ _ K _ _ _ _ _ _ _ _ _ _ _).
  assert (Hp2 : fieldsPresent pk2 = true) by (destruct pk; exact Hp).
  assert (Hpre : hashPreimage pk2 = hashPreimage pk) by (destruct pk; reflexivity).
  destruct (setFingerprintAndKeyId_value pk Hp) as (F & HF & HvF).
  destruct (setFingerprintAndKeyId_value pk2 Hp2) as (F2 & HF2 & HvF2).
  assert (EF : F2 = F).
  { rewrite Hpre in HF2. unfold pk2 in HF2. cbn [Version] in HF2.
    destruct (Version pk =? 5); [congruence|].
    rewrite HF in HF2. now injection HF2. }
  subst F2. rewrite HvF2. rewrite Hfix in HvF. injection HvF as HvF.
  pose proof (f_equal Fingerprint HvF) as EFp.
  pose proof (f_equal KeyId HvF) as EKid.
  eexists. split; [reflexivity|].
  unfold pk2. destruct pk.
  cbn [set_Fingerprint set_KeyId Version CreationTime PubKeyAlgo PublicKey_
       Fingerprint KeyId IsSubkey n e p q g y oid kdf] in *.
  repeat split; try reflexivity; symmetry; assumption.
Qed.

(** C5.  The code prints, which C5 excludes: on every key whose fields are
    there, [setFingerprintAndKeyId] returns and, besides setting
    the two fields, prints the key id and the fingerprint on standard
    output, and for a key that is not version 5 the SHA-1 digest prints the
    whole hash preimage on standard error. *)
Theorem setFingerprintAndKeyId_prints (pk : PublicKey) :
  fieldsPresent pk = true ->
  exists pk',
    value (setFingerprintAndKeyId pk) = Ret pk' /\
    In (Printf Stdout "keyid: %x\n" [ArgInt (KeyId pk')])
       (output (setFingerprintAndKeyId pk)) /\
    In (Printf Stdout "fingerprint: %x\n" [ArgBytes (Fingerprint pk')])
       (output (setFingerprintAndKeyId pk)) /\
    (Version pk <> 5 ->
     In (Printf Stderr "bytes to digest: %x\n" [ArgBytes (hashPreimage pk)])
        (output (setFingerprintAndKeyId pk))).
Proof.
  intros Hp. destruct (setFingerprintAndKeyId_derived pk Hp) as (pk' & Hv & _ & _).
  exists pk'. split; [exact Hv|].
  unfold setFingerprintAndKeyId in *.
  rewrite value_bind in Hv. rewrite output_bind.
  destruct (value (if Version pk =? 5 then _ else _)) as [pk1|msg] eqn:E1;
    [|discriminate].
  cbn [value fmt_Printf emit bind ret fst snd] in Hv. injection Hv as <-.
  split; [|split].
  - apply in_or_app. right. left. reflexivity.
  - apply in_or_app. right. right. left. reflexivity.
  - intros Hv5. apply in_or_app. left.
    apply Z.eqb_neq in Hv5. rewrite Hv5 in *.
    rewrite output_bind.
    pose proof (SerializeForHash_total pk Hp) as Hs. rewrite Hs.
    apply in_or_app. right. cbn [fst]. rewrite output_bind.
    pose proof (Sum_prints_input sha1_block (hashPreimage pk)) as Hin.
    destruct (value (sha1.Sum _ _)); [apply in_or_app; left|]; exact Hin.
Qed.

Lemma fst_bind {A B} (m : M A) (k : A -> M B) :
  fst (bind m k) = match fst m with Ret a => fst (k a) | Panic msg => Panic msg end.
Proof. exact (value_bind m k). Qed.

Ltac run_in H :=
  cbn [bind ret emit println fmt_Println fmt_Printf fmt_Fprintf fst snd value output
       deref panic negb] in H.

(** How a call of [VerifySignature] that returns leaves the hash context
    and the signature. *)
Lemma VerifySignature_returns (pk : PublicKey) (signed h' : hashCtx)
    (sig sig' : Signature) (err : error) :
  value (VerifySignature pk signed sig) = Ret (h', sig', err) ->
  (CanSign pk = false /\ h' = signed /\ sig' = sig /\
   err = Some (InvalidArgumentError "public key cannot generate signatures"))
  \/ (CanSign pk = true /\
      sig' = (if isDocument sig then AddMetadataToHashSuffix sig else sig) /\
      exists e, value (Write signed (HashSuffix sig')) = Ret (h', e)).
Proof.
  unfold VerifySignature, isDocument, SigTypeBinary, SigTypeText.
  set (sigX := if (sig_Version sig =? 5) && ((SigType sig =? 0) || (SigType sig =? 1))
               then AddMetadataToHashSuffix sig else sig).
  unfold value. intros H. rewrite fst_bind in H. run_in H.
  destruct (CanSign pk) eqn:Ecs; run_in H.
  2:{ injection H as <- <- <-. left. repeat split. }
  right. split; [reflexivity|].
  repeat (rewrite fst_bind in H; run_in H).
  destruct (fst (Write signed (HashSuffix sigX))) as [[h1 e1]|] eqn:Ew; [|discriminate].
  repeat (rewrite fst_bind in H; run_in H).
  destruct (fst (hash_Sum h1)) as [hashBytes|]; [|discriminate].
  destruct hashBytes as [|hb0 [|hb1 hbs]]; run_in H; try discriminate.
  repeat match type of H with
  | context [if ?c then _ else _] => destruct c; run_in H
  | context [match ?x with _ => _ end] => destruct x; run_in H
  | fst (bind _ _) = _ => rewrite fst_bind in H; run_in H
  end; try discriminate;
  (injection H as <- <- <-; split; [reflexivity | exists e1; exact Ew]).
Qed.


(** C7 (as the code has it).  On a key that can sign, [VerifySignature]
    appends the metadata to the hash suffix exactly when the signature is
    version 5 and of type 0x00 (binary document) or 0x01 (text document),
    and then writes the hash suffix, extended or not, into the hash context
    once: the context it returns is the one this write leaves. *)
Theorem VerifySignature_feeds_hash_suffix (pk : PublicKey) (signed : hashCtx)
    (sig : Signature) :
  suffixFed isDocument pk signed sig.
Proof.
  intros h' sig' err H Hcs.
  destruct (VerifySignature_returns pk signed h' sig sig' err H)
    as [(Hno & _) | (_ & Hsig & Hw)]; [congruence|].
  split; assumption.
Qed.

Ltac run_ext :=
  cbn [bind ret emit println fmt_Println fmt_Printf fmt_Fprintf fst snd value output
       deref panic Write hashCtx_Writer hash_Write
       Version CreationTime PubKeyAlgo PublicKey_ Fingerprint KeyId IsSubkey
       n e p q g y oid kdf].

(** Into a hash context that keeps what it is fed, [SerializeForHash]
    writes the bytes it leaves in an empty buffer. *)
Lemma SerializeForHash_ExtCtx (pk : PublicKey) (hashFunc : Z) (written : list byte) :
  fieldsPresent pk = true ->
  value (SerializeForHash pk (ExtCtx hashFunc written))
  = Ret (ExtCtx hashFunc (written ++ hashPreimage pk), None).
Proof.
  intros Hp. destruct (SerializeForHash_buffer pk [] Hp) as (c & Hc & _ & Hs).
  unfold hashPreimage. rewrite Hs. clear Hs. revert Hp Hc.
  unfold fieldsPresent, knownAlgorithm, fieldBytes, declaredFields.
  unfold SerializeForHash, SerializeSignaturePrefix, serializeWithoutHeaders,
    algorithmSpecificByteCount.
  destruct pk as [v t a k fpr kid sub fn fe fp' fq fg fy foid fkdf]. run_ext.
  destruct (switchAlgo a) eqn:Ea; cbn [forallb andb map List.concat fold_right];
    try discriminate;
    repeat match goal with
    | |- context [match ?f with Some _ => _ | None => _ end] =>
        is_var f; destruct f; try discriminate
    end;
    intros _; run_ext; intros Hc; injection Hc as <-;
    destruct (v =? 5) eqn:Ev; run_ext;
    rewrite <- ?app_assoc, ?app_nil_r; cbn [app]; reflexivity.
Qed.

Lemma keySignatureHash_ExtCtx (pk signed : PublicKey) (hashFunc : Z) :
  Hash_Available hashFunc = true ->
  hashFunc <> crypto_SHA1 ->
  fieldsPresent pk = true ->
  fieldsPresent signed = true ->
  value (keySignatureHash pk signed hashFunc)
  = Ret (Some (ExtCtx hashFunc (hashPreimage pk ++ hashPreimage signed)), None).
Proof.
  intros Ha Hn Hp Hs. unfold keySignatureHash, value.
  rewrite fst_bind. cbn [println emit fst]. rewrite Ha. cbn [negb].
  repeat (rewrite fst_bind; cbn [println emit fst]).
  apply Z.eqb_neq in Hn. rewrite Hn.
  pose proof (fun f => SerializeForHash_ExtCtx pk f [] Hp) as H1.
  pose proof (fun f => SerializeForHash_ExtCtx signed f (hashPreimage pk) Hs) as H2.
  unfold value in H1, H2.
  destruct (Z.eqb_spec hashFunc crypto_SHA256) as [->|_];
    [|destruct (Z.eqb_spec hashFunc crypto_SHA512) as [->|_]];
    cbn [ret fst];
    repeat (rewrite fst_bind; cbn [println emit fst]);
    rewrite H1; cbn [app]; rewrite fst_bind; cbn [println emit fst]; rewrite fst_bind;
    rewrite H2; reflexivity.
Qed.

(** For well-formed keys these are the hash preimages of section 4.3. *)
Lemma keySignatureHash_preimage (pk signed : PublicKey) (hashFunc : Z) :
  Hash_Available hashFunc = true ->
  hashFunc <> crypto_SHA1 ->
  wellFormed pk = true ->
  wellFormed signed = true ->
  value (keySignatureHash pk signed hashFunc)
  = Ret (Some (ExtCtx hashFunc (preimage pk ++ preimage signed)), None).
Proof.
  intros Ha Hn Hp Hs.
  rewrite <- (hashPreimage_preimage pk Hp), <- (hashPreimage_preimage signed Hs).
  apply keySignatureHash_ExtCtx; auto using wellFormed_fieldsPresent.
Qed.

Lemma AddMetadata_flags (sig : Signature) (b : bool) :
  let sig1 := if b then AddMetadataToHashSuffix sig else sig in
  FlagSign sig1 = FlagSign sig /\ EmbeddedSignature sig1 = EmbeddedSignature sig.
Proof. destruct b, sig; split; reflexivity. Qed.

(** C4.  Once the binding signature has verified under the signing key
    and declares signing capability: without an embedded signature
    [VerifyKeySignature] returns a structural error, which is not a
    signature error; with one, it returns no error exactly when the
    embedded signature verifies under the signed key over
    [keySignatureHash pk signed] of its own hash, and every other outcome
    is a structural error; and for well-formed keys a hash context that
    keeps what it is fed receives from [keySignatureHash] the hash preimage
    of section 4.3 (prefix, then body) of the signing key and then that of
    the signed key. *)
Theorem VerifyKeySignature_cross_signature (pk signed : PublicKey) (sig sig1 : Signature)
    (h h1 : hashCtx) :
  value (keySignatureHash pk signed (Hash sig)) = Ret (Some h, None) ->
  value (VerifySignature pk h sig) = Ret (h1, sig1, None) ->
  FlagSign sig = true ->
  (EmbeddedSignature sig = None ->
     value (VerifyKeySignature pk signed sig)
     = Ret (sig1, Some (StructuralError "signing subkey is missing cross-signature")))
  /\ (forall embedded, EmbeddedSignature sig = Some embedded ->
      (forall h2 h3 embedded',
         value (keySignatureHash pk signed (Hash embedded)) = Ret (Some h2, None) ->
         value (VerifySignature signed h2 embedded) = Ret (h3, embedded', None) ->
         value (VerifyKeySignature pk signed sig)
         = Ret (set_EmbeddedSignature sig1 (Some embedded'), None))
      /\ (forall sig',
            value (VerifyKeySignature pk signed sig) = Ret (sig', None) ->
            exists h2 h3 embedded',
              value (keySignatureHash pk signed (Hash embedded)) = Ret (Some h2, None) /\
              value (VerifySignature signed h2 embedded) = Ret (h3, embedded', None))
      /\ (forall sig' e,
            value (VerifyKeySignature pk signed sig) = Ret (sig', Some e) ->
            exists msg, e = StructuralError msg))
  /\ (forall msg1 msg2, StructuralError msg1 <> SignatureError msg2)
  /\ (forall hashFunc,
        Hash_Available hashFunc = true -> hashFunc <> crypto_SHA1 ->
        wellFormed pk = true -> wellFormed signed = true ->
        value (keySignatureHash pk signed hashFunc)
        = Ret (Some (ExtCtx hashFunc (preimage pk ++ preimage signed)), None)).
Proof.
  intros Hk Hv Hflag.
  destruct (VerifySignature_returns pk h h1 sig sig1 None Hv)
    as [(_ & _ & _ & Hno) | (_ & Hsig & _)]; [discriminate|].
  destruct (AddMetadata_flags sig (isDocument sig)) as [Hf He].
  rewrite <- Hsig in Hf, He. cbv zeta in Hf, He.
  unfold VerifyKeySignature, value in *.
  rewrite fst_bind. run_in Hk. cbn [println emit fst]. rewrite fst_bind, Hk.
  cbn [bind println emit fst snd]. rewrite fst_bind, Hv.
  cbn [bind println emit fst snd]. rewrite Hf, Hflag.
  cbn [bind println emit fst snd]. rewrite He.
  split; [|split; [|split]].
  4:{ intros hashFunc. apply keySignatureHash_preimage. }
  - intros ->. reflexivity.
  - intros embedded ->. cbn [bind println emit fst snd].
    rewrite fst_bind.
    split; [|split].
    + intros h2 h3 embedded' Hk2 Hv2. rewrite Hk2. cbn [bind println emit fst snd].
      rewrite fst_bind, Hv2. reflexivity.
    + intros sig'.
      destruct (fst (keySignatureHash pk signed (Hash embedded)))
        as [[[h2|] [e2|]]|msg]; cbn [bind println emit fst snd ret]; try discriminate.
      rewrite fst_bind.
      destruct (fst (VerifySignature signed h2 embedded))
        as [[[h3 embedded'] [e3|]]|msg] eqn:Ev2; cbn [bind println emit fst snd ret];
        try discriminate.
      intros _. exists h2, h3, embedded'. split; [reflexivity | exact Ev2].
    + intros sig' e.
      destruct (fst (keySignatureHash pk signed (Hash embedded)))
        as [[[h2|] [e2|]]|msg]; cbn [bind println emit fst snd ret panic];
        try discriminate;
        try (intros E; injection E as _ <-; eexists; reflexivity).
      rewrite fst_bind.
      destruct (fst (VerifySignature signed h2 embedded))
        as [[[h3 embedded'] [e3|]]|msg]; cbn [bind println emit fst snd ret];
        try discriminate.
      intros E. injection E as _ <-. eexists. reflexivity.
  - intros msg1 msg2. discriminate.
Qed.

(** For a version 4 key the two strings are those of the key id. *)
Lemma KeyIdString_v4 (pk : PublicKey) :
  fingerprinted pk -> Version pk = 4 ->
  value (KeyIdString pk) = Ret (Sprintf_X (PutUint64 (KeyId pk))) /\
  value (KeyIdShortString pk) = Ret (Sprintf_X (slice 4 8 (PutUint64 (KeyId pk)))).
Proof.
  intros [H4 _] Hv. destruct (H4 Hv) as (_ & Hlen & Hid).
  unfold KeyIdString, KeyIdShortString. rewrite Hlen, Hid. cbn [Z.ltb Z.compare Pos.compare Pos.compare_cont value ret fst].
  split; [reflexivity|].
  rewrite Zlength_correct in Hlen.
  destruct (Fingerprint pk) as [|b0 l]; [discriminate|].
  do 19 (destruct l as [|? l]; [cbn in Hlen; lia|]).
  destruct l; [reflexivity | cbn in Hlen; lia].
Qed.

(** For a version 5 key the two strings are bytes 12 to 19 and 16 to 19 of
    the fingerprint, while the key id is its first 8 bytes. *)
Lemma KeyIdString_v5 (pk : PublicKey) :
  fingerprinted pk -> Version pk = 5 ->
  value (KeyIdString pk) = Ret (Sprintf_X (slice 12 20 (Fingerprint pk))) /\
  value (KeyIdShortString pk) = Ret (Sprintf_X (slice 16 20 (Fingerprint pk))) /\
  PutUint64 (KeyId pk) = slice 0 8 (Fingerprint pk).
Proof.
  intros [_ H5] Hv. destruct (H5 Hv) as (_ & Hlen & Hid).
  unfold KeyIdString, KeyIdShortString. rewrite Hlen.
  split; [reflexivity|]. split; [reflexivity | exact Hid].
Qed.

End WithCollaborators.

(** C6.  For a version 5 key the code does not format the key id: for
    the key [Toy.rsaKey5], whose key id is the first 8 bytes of its 32-byte
    fingerprint, [KeyIdString] and [KeyIdShortString] print bytes 12 to 19
    and 16 to 19 of the fingerprint, which are not the key id and not its
    last 4 bytes. *)
Theorem KeyIdString_of_a_v5_key :
  Version Toy.rsaKey5 = 5 /\
  PutUint64 (KeyId Toy.rsaKey5) = slice 0 8 (Fingerprint Toy.rsaKey5) /\
  Sprintf_X (PutUint64 (KeyId Toy.rsaKey5)) = "161718191A1B1C1D" /\
  value (KeyIdString Toy.rsaKey5) = Ret "2223242526272829" /\
  Sprintf_X (slice 4 8 (PutUint64 (KeyId Toy.rsaKey5))) = "1A1B1C1D" /\
  value (KeyIdShortString Toy.rsaKey5) = Ret "26272829".
Proof.
  vm_compute. repeat split.
Qed.

(** The theorems at the small instance of the collaborators. *)
#[local] Existing Instance Toy.collaborators.

Lemma SerializeForHash_is_prefix_then_body_witness :
  wellFormed Toy.rsaKey4 = true /\
  value (SerializeForHash Toy.rsaKey4 ([] : list byte))
  = Ret (preimagePrefix Toy.rsaKey4 ++ preimageBody Toy.rsaKey4, None).
Proof.
  assert (H : wellFormed Toy.rsaKey4 = true) by (vm_compute; reflexivity).
  split; [exact H | exact (proj1 (SerializeForHash_is_prefix_then_body Toy.rsaKey4 H))].
Defined.

Lemma Serialize_then_parse_witness :
  validKey Toy.rsaKey4 = true /\
  value (setFingerprintAndKeyId Toy.rsaKey4) = Ret Toy.rsaKey4 /\
  exists pk',
    value (parse zeroPublicKey (preimageBody Toy.rsaKey4 ++ [])) = Ret (pk', [], None) /\
    n pk' = n Toy.rsaKey4 /\ e pk' = e Toy.rsaKey4 /\
    Fingerprint pk' = Fingerprint Toy.rsaKey4 /\ KeyId pk' = KeyId Toy.rsaKey4.
Proof.
  assert (H1 : validKey Toy.rsaKey4 = true) by (vm_compute; reflexivity).
  assert (H2 : value (setFingerprintAndKeyId Toy.rsaKey4) = Ret Toy.rsaKey4)
    by (vm_compute; reflexivity).
  split; [exact H1|]. split; [exact H2|].
  destruct (proj2 (Serialize_then_parse Toy.rsaKey4 H1 H2) [])
    as (pk' & Hp & _ & _ & _ & Hn & He & _ & _ & _ & _ & _ & _ & Hf & Hk).
  exists pk'. repeat split; assumption.
Defined.

Lemma setFingerprintAndKeyId_prints_witness :
  fieldsPresent (Toy.rsaFields 4) = true /\
  exists pk',
    value (setFingerprintAndKeyId (Toy.rsaFields 4)) = Ret pk' /\
    In (Printf Stdout "fingerprint: %x\n" [ArgBytes (Fingerprint pk')])
       (output (setFingerprintAndKeyId (Toy.rsaFields 4))).
Proof.
  assert (H : fieldsPresent (Toy.rsaFields 4) = true) by (vm_compute; reflexivity).
  split; [exact H|].
  destruct (setFingerprintAndKeyId_prints (Toy.rsaFields 4) H) as (pk' & Hv & _ & Hf & _).
  exists pk'. split; assumption.
Defined.

Lemma VerifySignature_feeds_hash_suffix_witness :
  value (VerifySignature Toy.rsaKey4 (ExtCtx crypto_SHA256 []) Toy.documentSig)
  = Ret (ExtCtx crypto_SHA256 [u8 1; u8 2; u8 3; u8 0xFF],
         AddMetadataToHashSuffix Toy.documentSig,
         Some (SignatureError "hash tag doesn't match")) /\
  CanSign Toy.rsaKey4 = true /\
  exists e,
    value (Write (ExtCtx crypto_SHA256 [])
                 (HashSuffix (AddMetadataToHashSuffix Toy.documentSig)))
    = Ret (ExtCtx crypto_SHA256 [u8 1; u8 2; u8 3; u8 0xFF], e).
Proof.
  assert (Hv : value (VerifySignature Toy.rsaKey4 (ExtCtx crypto_SHA256 []) Toy.documentSig)
               = Ret (ExtCtx crypto_SHA256 [u8 1; u8 2; u8 3; u8 0xFF],
                      AddMetadataToHashSuffix Toy.documentSig,
                      Some (SignatureError "hash tag doesn't match")))
    by (vm_compute; reflexivity).
  split; [exact Hv|]. split; [reflexivity|].
  exact (proj2 (VerifySignature_feeds_hash_suffix Toy.rsaKey4 (ExtCtx crypto_SHA256 [])
                  Toy.documentSig _ _ _ Hv eq_refl)).
Defined.

(** C7 as the spec states it fails: a version 5 subkey-binding signature
    is of a binding type, and [VerifySignature] feeds its hash suffix as it
    is, with no metadata appended. *)
Lemma binding_signature_suffix_not_extended :
  ~ suffixFed isBindingOrDirectKey Toy.rsaKey4 (ExtCtx crypto_SHA256 []) Toy.bindingSig.
Proof.
  intros H.
  assert (Hv : value (VerifySignature Toy.rsaKey4 (ExtCtx crypto_SHA256 []) Toy.bindingSig)
               = Ret (ExtCtx crypto_SHA256 [u8 1; u8 2; u8 3], Toy.bindingSig,
                      Some (SignatureError "hash tag doesn't match")))
    by (vm_compute; reflexivity).
  destruct (H _ _ _ Hv eq_refl) as [E _].
  vm_compute in E. discriminate E.
Qed.

Lemma VerifyKeySignature_cross_signature_witness :
  value (keySignatureHash Toy.rsaKey4 Toy.subkey
           (Hash (Toy.signingBinding (Some Toy.crossSig))))
  = Ret (Some Toy.keyHash, None) /\
  FlagSign (Toy.signingBinding (Some Toy.crossSig)) = true /\
  value (VerifyKeySignature Toy.rsaKey4 Toy.subkey (Toy.signingBinding (Some Toy.crossSig)))
  = Ret (Toy.signingBinding (Some Toy.crossSig), None).
Proof.
  assert (Hk : value (keySignatureHash Toy.rsaKey4 Toy.subkey
                        (Hash (Toy.signingBinding (Some Toy.crossSig))))
               = Ret (Some Toy.keyHash, None)) by (vm_compute; reflexivity).
  assert (Hv : value (VerifySignature Toy.rsaKey4 Toy.keyHash
                        (Toy.signingBinding (Some Toy.crossSig)))
               = Ret (ExtCtx crypto_SHA256
                        (preimage Toy.rsaKey4 ++ preimage Toy.subkey
                         ++ [u8 1; u8 2; u8 3]),
                      Toy.signingBinding (Some Toy.crossSig), None))
    by (vm_compute; reflexivity).
  assert (Hk2 : value (keySignatureHash Toy.rsaKey4 Toy.subkey (Hash Toy.crossSig))
                = Ret (Some Toy.keyHash, None)) by (vm_compute; reflexivity).
  assert (Hv2 : value (VerifySignature Toy.subkey Toy.keyHash Toy.crossSig)
                = Ret (ExtCtx crypto_SHA256
                         (preimage Toy.rsaKey4 ++ preimage Toy.subkey
                          ++ [u8 4; u8 5; u8 6]),
                       Toy.crossSig, None))
    by (vm_compute; reflexivity).
  split; [exact Hk|]. split; [reflexivity|].
  destruct (VerifyKeySignature_cross_signature Toy.rsaKey4 Toy.subkey _ _ _ _ Hk Hv eq_refl)
    as (_ & Hsome & _).
  destruct (Hsome Toy.crossSig eq_refl) as (Hok & _).
  exact (Hok _ _ _ Hk2 Hv2).
Defined.

Lemma parse_RSA_exponent_witness :
  exists pk',
    value (parse zeroPublicKey
             ([u8 4; u8 1; u8 2; u8 3; u8 4; u8 1] ++ [] ++ Toy.rsaFieldsBytes))
    = Ret (pk', [], None) /\
    PublicKey_ pk' = RSAKey {| rsa_N := 0x0CA1; rsa_E := 0x11 |}.
Proof.
  assert (H1 : MPI_ReadFrom Toy.rsaFieldsBytes
               = (MPI 12 [u8 0x0C; u8 0xA1], EncodedBytes (MPI 5 [u8 0x11]), None))
    by (vm_compute; reflexivity).
  assert (H2 : MPI_ReadFrom (EncodedBytes (MPI 5 [u8 0x11])) = (MPI 5 [u8 0x11], [], None))
    by (vm_compute; reflexivity).
  destruct (parse_RSA_exponent zeroPublicKey (u8 4) (u8 1) (u8 2) (u8 3) (u8 4) (u8 1)
              [] Toy.rsaFieldsBytes _ _ _ _
              (or_introl (conj eq_refl eq_refl)) eq_refl H1 H2)
    as (_ & _ & H3).
  destruct H3 as (pk' & Hp & _ & _ & Hk & _).
  - vm_compute. discriminate.
  - exists pk'. split; [exact Hp | exact Hk].
Defined.

Lemma parseEdDSA_empty_point_witness :
  value (parse zeroPublicKey
           ([u8 4; u8 1; u8 2; u8 3; u8 4; u8 22] ++ [] ++ Toy.eddsaFieldsBytes))
  = Panic "index out of range [0] with length 0".
Proof.
  assert (H1 : OID_ReadFrom Toy.eddsaFieldsBytes
               = (OID [u8 1], EncodedBytes (MPI 0 []), None))
    by (vm_compute; reflexivity).
  assert (H2 : MPI_ReadFrom (EncodedBytes (MPI 0 [])) = (MPI 0 [], [], None))
    by (vm_compute; reflexivity).
  destruct (parseEdDSA_empty_point (X := Toy.collaborators) zeroPublicKey (u8 4) (u8 1) (u8 2) (u8 3) (u8 4) (u8 22)
              [] Toy.eddsaFieldsBytes _ _ _ _ Toy.ed25519Info
              (or_introl (conj eq_refl eq_refl)) eq_refl H1 eq_refl eq_refl H2)
    as (Hempty & _).
  exact (proj2 (Hempty eq_refl)).
Defined.

End PacketFacts.
(* ================================================================== *)
(** * More facts about slices and bytes *)

Module SliceFacts.

Lemma take_nonpos {A} (k : Z) (l : list A) : k <= 0 -> take k l = [].
Proof. intros H. unfold take. replace (Z.to_nat k) with 0%nat by lia. reflexivity. Qed.

Lemma drop_nonpos {A} (k : Z) (l : list A) : k <= 0 -> drop k l = l.
Proof. intros H. unfold drop. replace (Z.to_nat k) with 0%nat by lia. reflexivity. Qed.

Lemma take_drop {A} (k : Z) (l : list A) : take k l ++ drop k l = l.
Proof. apply firstn_skipn. Qed.

Lemma take_app_le {A} (k : Z) (a b : list A) :
  k <= Zlength a -> take k (a ++ b) = take k a.
Proof.
  intros H. unfold take. rewrite Zlength_correct in H.
  rewrite firstn_app. replace (Z.to_nat k - List.length a)%nat with 0%nat by lia.
  cbn. apply app_nil_r.
Qed.

Lemma take_app_ge {A} (k : Z) (a b : list A) :
  Zlength a <= k -> take k (a ++ b) = a ++ take (k - Zlength a) b.
Proof.
  intros H. unfold take. rewrite Zlength_correct in *.
  rewrite firstn_app, firstn_all2 by lia. do 2 f_equal. lia.
Qed.

Lemma drop_app_le {A} (k : Z) (a b : list A) :
  k <= Zlength a -> drop k (a ++ b) = drop k a ++ b.
Proof.
  intros H. unfold drop. rewrite Zlength_correct in H.
  rewrite skipn_app. replace (Z.to_nat k - List.length a)%nat with 0%nat by lia.
  reflexivity.
Qed.

Lemma drop_app_ge {A} (k : Z) (a b : list A) :
  Zlength a <= k -> drop k (a ++ b) = drop (k - Zlength a) b.
Proof.
  intros H. unfold drop. rewrite Zlength_correct in *.
  rewrite skipn_app, skipn_all2 by lia. cbn. f_equal. lia.
Qed.

Lemma drop_drop {A} (a b : Z) (l : list A) :
  0 <= a -> 0 <= b -> drop a (drop b l) = drop (a + b) l.
Proof.
  intros Ha Hb. unfold drop. rewrite skipn_skipn. f_equal. lia.
Qed.

Lemma take_take {A} (a b : Z) (l : list A) :
  a <= b -> take a (take b l) = take a l.
Proof.
  intros H. unfold take. rewrite firstn_firstn. f_equal. lia.
Qed.

Lemma take_take_drop {A} (a b : Z) (l : list A) :
  0 <= a -> 0 <= b -> take a l ++ take b (drop a l) = take (a + b) l.
Proof.
  intros Ha Hb. unfold take, drop.
  replace (Z.to_nat (a + b)) with (Z.to_nat a + Z.to_nat b)%nat by lia.
  generalize (Z.to_nat a) as i. clear. intros i. revert l.
  induction i as [|i IH]; intros l; [reflexivity|].
  destruct l as [|c l]; cbn.
  - now rewrite firstn_nil.
  - f_equal. apply IH.
Qed.

Lemma make_add (a b : Z) : 0 <= a -> 0 <= b -> make (a + b) = make a ++ make b.
Proof.
  intros Ha Hb. unfold make.
  replace (Z.to_nat (a + b)) with (Z.to_nat a + Z.to_nat b)%nat by lia.
  apply repeat_app.
Qed.

Lemma take_make (k m : Z) : 0 <= k <= m -> take k (make m) = make k.
Proof.
  intros H. replace m with (k + (m - k)) by lia.
  rewrite make_add by lia. rewrite take_app_le by (rewrite Zlength_make; lia).
  apply take_all. rewrite Zlength_make; lia.
Qed.

Lemma drop_make (k m : Z) : 0 <= k <= m -> drop k (make m) = make (m - k).
Proof.
  intros H. replace m with (k + (m - k)) at 1 by lia.
  rewrite make_add by lia. rewrite drop_app_ge by (rewrite Zlength_make; lia).
  rewrite Zlength_make by lia. rewrite drop_nonpos by lia. reflexivity.
Qed.

(** ** Loops over an index *)

Lemma upto_length (k : Z) : 0 <= k -> Zlength (upto k) = k.
Proof.
  intros H. unfold upto. rewrite Zlength_correct, length_map, length_seq. lia.
Qed.

Lemma upto_succ (k : Z) : 0 <= k -> upto (k + 1) = upto k ++ [k].
Proof.
  intros H. unfold upto.
  replace (Z.to_nat (k + 1)) with (S (Z.to_nat k)) by lia.
  rewrite seq_S, map_app. cbn. do 2 f_equal. lia.
Qed.

Lemma upto_add (a b : Z) :
  0 <= a -> 0 <= b -> upto (a + b) = upto a ++ map (Z.add a) (upto b).
Proof.
  intros Ha Hb. unfold upto.
  replace (Z.to_nat (a + b)) with (Z.to_nat a + Z.to_nat b)%nat by lia.
  rewrite seq_app, map_app. f_equal. cbn [Nat.add].
  rewrite map_map. rewrite <- (Nat.add_0_r (Z.to_nat a)) at 1.
  generalize 0%nat as s. generalize (Z.to_nat b) as m.
  induction m as [|m IH]; intros s; [reflexivity|].
  cbn [seq map]. f_equal; [lia|].
  rewrite <- IH. f_equal. f_equal. lia.
Qed.

Lemma In_upto (k i : Z) : In i (upto k) -> 0 <= i < k.
Proof.
  unfold upto. rewrite in_map_iff. intros (j & <- & Hj).
  apply in_seq in Hj. lia.
Qed.

Lemma map_index_upto {A} (l : list A) (zero : A) (k : Z) :
  0 <= k <= Zlength l -> map (fun i => index l i zero) (upto k) = take k l.
Proof.
  intros [H0 Hk]. rewrite <- (Z2Nat.id k) by lia.
  rewrite Zlength_correct in Hk.
  assert (Hn : (Z.to_nat k <= List.length l)%nat) by lia. clear H0 Hk.
  induction (Z.to_nat k) as [|m IH].
  - reflexivity.
  - rewrite Nat2Z.inj_succ. unfold Z.succ. rewrite upto_succ by lia.
    rewrite map_app, IH by lia. cbn [map].
    unfold index, take. rewrite !Nat2Z.id.
    replace (Z.to_nat (Z.of_nat m + 1)) with (S m) by lia.
    clear IH. revert l Hn. induction m as [|m IHm]; intros l Hn.
    + destruct l; [cbn in Hn; lia | reflexivity].
    + destruct l as [|c l]; [cbn in Hn; lia|].
      cbn [firstn nth app]. f_equal. apply IHm. cbn in Hn. lia.
Qed.

Lemma map_const_upto (c : byte) (k : Z) :
  map (fun _ => c) (upto k) = repeat c (Z.to_nat k).
Proof.
  unfold upto. rewrite map_map. generalize 0%nat as s.
  induction (Z.to_nat k) as [|m IH]; intros s; [reflexivity|].
  cbn [seq map repeat]. f_equal. apply IH.
Qed.

Lemma index_app_r {A} (a b : list A) (zero : A) (i : Z) :
  Zlength a <= i -> index (a ++ b) i zero = index b (i - Zlength a) zero.
Proof.
  intros H. unfold index. rewrite Zlength_correct in *.
  rewrite app_nth2 by lia. f_equal. lia.
Qed.

Lemma index_drop {A} (l : list A) (zero : A) (k i : Z) :
  0 <= k -> 0 <= i -> index (drop k l) i zero = index l (k + i) zero.
Proof.
  intros Hk Hi. unfold index, drop. rewrite nth_skipn. f_equal. lia.
Qed.

Lemma store_at_end {A} (a l : list A) (v : A) (k : Z) :
  Zlength a = k -> 0 <= k < Zlength l ->
  store (a ++ drop k l) k v = (a ++ [v]) ++ drop (k + 1) l.
Proof.
  intros Ha Hk. unfold store.
  rewrite Zlength_app, Ha, Zlength_drop by lia.
  destruct (Z.leb_spec 0 k); [|lia]. destruct (Z.ltb_spec k (k + (Zlength l - k))); [|lia].
  cbn [andb]. rewrite take_app_le by lia. rewrite take_all by lia.
  rewrite drop_app_ge by lia. rewrite Ha.
  replace (k + 1 - k) with 1 by lia. rewrite drop_drop by lia.
  rewrite <- app_assoc. cbn [app]. do 3 f_equal. lia.
Qed.

(** ** Bytes *)

Lemma band_ff_l (b : byte) : band xff b = b.
Proof. destruct b; vm_compute; reflexivity. Qed.

Lemma band_00_l (b : byte) : band x00 b = x00.
Proof. destruct b; vm_compute; reflexivity. Qed.

Lemma band_ff_r (b : byte) : band b xff = b.
Proof. destruct b; vm_compute; reflexivity. Qed.

Lemma band_00_r (b : byte) : band b x00 = x00.
Proof. destruct b; vm_compute; reflexivity. Qed.

Lemma bor_00_l (b : byte) : bor x00 b = b.
Proof. destruct b; vm_compute; reflexivity. Qed.

Lemma bor_00_r (b : byte) : bor b x00 = b.
Proof. destruct b; vm_compute; reflexivity. Qed.

Lemma bnot_ff : bnot xff = x00.
Proof. reflexivity. Qed.

Lemma bnot_00 : bnot x00 = xff.
Proof. reflexivity. Qed.

(** [byte(int8(i - n) >> 7)] is 0xFF when [i < n] and 0 otherwise. *)
Lemma sign_mask (i n : Z) :
  0 <= i < 128 -> 0 <= n < 128 ->
  u8 (Z.shiftr (int8 (bsub (u8 i) (u8 n))) 7) = if i <? n then xff else x00.
Proof.
  intros Hi Hn. unfold bsub, int8. rewrite !Z_of_byte_u8.
  rewrite (Z.mod_small i), (Z.mod_small n) by lia.
  rewrite Z.shiftr_div_pow2 by lia. change (2 ^ 7) with 128.
  destruct (Z.ltb_spec i n) as [E|E].
  - replace ((i - n) mod 256) with (i - n + 256).
    2:{ symmetry. rewrite <- (Z.mod_add _ 1) by lia. apply Z.mod_small. lia. }
    destruct (Z.ltb_spec (i - n + 256) 128); [lia|].
    replace ((i - n + 256 - 256) / 128) with (-1); [reflexivity|].
    apply Z.div_unique with (r := i - n + 128); lia.
  - rewrite (Z.mod_small (i - n)) by lia.
    destruct (Z.ltb_spec (i - n) 128); [|lia].
    rewrite Z.div_small by lia. reflexivity.
Qed.

End SliceFacts.
Import SliceFacts.

(* ================================================================== *)
(** * More facts about package sha1 *)

Module Sha1More.
Import sha1 Sha1Facts.

Section Block.
Variable block : list Z -> list byte -> list Z.

Definition pending (d : digest) : list byte := take (nx d) (x d).

Definition compress (h : list Z) (pend p : list byte) : list Z :=
  let all := pend ++ p in
  let k := Zlength all - Zlength all mod 64 in
  if Zlength pend =? 0 then (if 64 <=? Zlength all then block h (take k all) else h)
  else if 64 <=? Zlength all then
    let h1 := block h (take 64 all) in
    if 128 <=? Zlength all then block h1 (take (k - 64) (drop 64 all)) else h1
  else h.

(** The three steps of [Write]: fill the buffer and compress it when it is
    full, compress the whole chunks of the input, buffer what is left. *)
Definition fill (d : digest) (p : list byte) : digest * list byte :=
  if 0 <? nx d then
    let (x', n) := copy (x d) (nx d) p in
    let d := set_nx (set_x d x') (nx d + n) in
    let d := if nx d =? chunk then set_nx (set_h d (block (h d) (x d))) 0 else d in
    (d, drop n p)
  else (d, p).

Definition bulk (d : digest) (p : list byte) : digest * list byte :=
  if chunk <=? Zlength p then
    let n := Z.ldiff (Zlength p) (chunk - 1) in
    (set_h d (block (h d) (take n p)), drop n p)
  else (d, p).

Definition keep (d : digest) (p : list byte) : digest :=
  if 0 <? Zlength p then
    let (x', n) := copy (x d) 0 p in set_nx (set_x d x') n
  else d.

Definition written (d : digest) (p : list byte) : digest :=
  let d := set_len d (uint64 (len d + uint64 (Zlength p))) in
  let (d, p) := fill d p in
  let (d, p) := bulk d p in
  keep d p.

Ltac digest_cbn :=
  cbn [x nx len h set_len set_nx set_x set_h bind println emit fmt_Fprintf ret
       fst snd value panic].

Lemma Write_written (d : digest) (p : list byte) :
  value (Write block d p) = Ret (written d p, Zlength p, None).
Proof.
  unfold Write, written, fill, bulk, keep. destruct d as [dh dx dnx dlen]. digest_cbn.
  repeat first
    [ progress digest_cbn
    | match goal with
      | |- context [copy ?a ?b ?c] => destruct (copy a b c)
      | |- context [if ?c then _ else _] => destruct c
      end ];
  reflexivity.
Qed.

Ltac dcbn := cbn [x nx len h set_len set_nx set_x set_h fst snd] in *.

Lemma tail_exact (d : digest) (q : list byte) :
  Zlength (x d) = 64 ->
  let d' := (let (d1, q1) := bulk d q in keep d1 q1) in
  Zlength (x d') = 64 /\
  len d' = len d /\
  nx d' = (if 0 <? Zlength q mod 64 then Zlength q mod 64 else nx d) /\
  h d' = (if 64 <=? Zlength q then block (h d) (take (Zlength q - Zlength q mod 64) q)
          else h d) /\
  (0 < Zlength q mod 64 ->
   take (Zlength q mod 64) (x d') = drop (Zlength q - Zlength q mod 64) q) /\
  (Zlength q mod 64 = 0 -> x d' = x d).
Proof.
  intros Hx. unfold bulk, keep, chunk. change (64 - 1) with 63. rewrite ldiff_63.
  pose proof (Zlength_nonneg q) as Hq.
  pose proof (Z.mod_pos_bound (Zlength q) 64 ltac:(lia)) as Hm.
  assert (Hdm := Z.div_mod (Zlength q) 64 ltac:(lia)).
  destruct d as [dh dx dnx dlen]. dcbn.
  assert (Hk : Zlength (drop (Zlength q - Zlength q mod 64) q) = Zlength q mod 64).
  { rewrite Zlength_drop by lia. lia. }
  destruct (Z.leb_spec 64 (Zlength q)) as [E|E]; dcbn.
  - rewrite Hk. destruct (Z.ltb_spec 0 (Zlength q mod 64)) as [E'|E']; dcbn.
    + unfold copy. dcbn. rewrite Hx, Hk, Z.min_r by lia.
      rewrite take_nonpos by lia. cbn [app].
      rewrite (take_all (Zlength q mod 64)) by lia.
      repeat split; try reflexivity; try lia.
      * rewrite Zlength_app, Hk, Zlength_drop by lia. lia.
      * intros _. rewrite take_app_le by lia. apply take_all. lia.
    + repeat split; try reflexivity; try lia.
  - assert (Hsmall : Zlength q mod 64 = Zlength q) by (apply Z.mod_small; lia).
    rewrite Hsmall in *. replace (Zlength q - Zlength q) with 0 in * by lia.
    rewrite drop_0 in *.
    destruct (Z.ltb_spec 0 (Zlength q)) as [E'|E']; dcbn.
    + unfold copy. dcbn. rewrite Hx, Z.min_r by lia.
      rewrite take_nonpos by lia. cbn [app].
      rewrite (take_all (Zlength q)) by lia.
      repeat split; try reflexivity; try lia.
      * rewrite Zlength_app, Zlength_drop by lia. lia.
      * intros _. rewrite take_app_le by lia. apply take_all. lia.
    + repeat split; try reflexivity; try lia.
Qed.

Lemma written_exact (d : digest) (p : list byte) :
  Zlength (x d) = 64 -> 0 <= nx d < 64 ->
  Zlength (x (written d p)) = 64 /\
  len (written d p) = uint64 (len d + Zlength p) /\
  nx (written d p) = (nx d + Zlength p) mod 64 /\
  h (written d p) = compress (h d) (pending d) p /\
  pending (written d p) =
    drop (Zlength (pending d ++ p) - Zlength (pending d ++ p) mod 64) (pending d ++ p).
Proof.
  intros Hx Hnx. unfold written, pending, compress.
  pose proof (Zlength_nonneg p) as Hp.
  destruct d as [dh dx dnx dlen]. dcbn.
  assert (Hlen : uint64 (dlen + uint64 (Zlength p)) = uint64 (dlen + Zlength p)).
  { unfold uint64. rewrite Z.add_mod_idemp_r by lia. reflexivity. }
  rewrite Hlen. clear Hlen.
  assert (Hpend : Zlength (take dnx dx) = dnx) by (apply Zlength_take; lia).
  rewrite Zlength_app, Hpend.
  pose proof (Z.mod_pos_bound (dnx + Zlength p) 64 ltac:(lia)) as Hm.
  assert (Hdm := Z.div_mod (dnx + Zlength p) 64 ltac:(lia)).
  unfold fill, chunk. dcbn.
  destruct (Z.ltb_spec 0 dnx) as [E1|E1].
  - destruct (Z.eqb_spec dnx 0) as [?|_]; [lia|].
    unfold copy. dcbn.
    rewrite Hx.
    destruct (Z.leb_spec 64 (dnx + Zlength p)) as [E2|E2].
    + rewrite Z.min_l by lia.
      replace (dnx + (64 - dnx)) with 64 by lia. cbn [Z.eqb Pos.eqb]. dcbn.
      rewrite (drop_all 64 dx) by lia. rewrite app_nil_r.
      match goal with |- context [bulk ?d1 ?q] => set (d0 := d1); set (q0 := q) end.
      assert (Hq0 : Zlength q0 = dnx + Zlength p - 64).
      { unfold q0. rewrite Zlength_drop by lia. lia. }
      assert (Hx0 : Zlength (x d0) = 64).
      { unfold d0. dcbn. rewrite Zlength_app, Hpend, Zlength_take by lia. lia. }
      destruct (tail_exact d0 q0 Hx0) as (T1 & T2 & T3 & T4 & T5 & T6).
      assert (Hmq : Zlength q0 mod 64 = (dnx + Zlength p) mod 64).
      { rewrite Hq0. replace (dnx + Zlength p - 64) with (dnx + Zlength p + (-1) * 64) by lia.
        apply Z.mod_add. lia. }
      rewrite Hmq in *.
      assert (H64 : take 64 (take dnx dx ++ p) = take dnx dx ++ take (64 - dnx) p).
      { rewrite take_app_ge by lia. rewrite Hpend. reflexivity. }
      assert (D64 : drop 64 (take dnx dx ++ p) = q0).
      { rewrite drop_app_ge by lia. rewrite Hpend. reflexivity. }
      split; [exact T1|]. split; [rewrite T2; reflexivity|].
      split.
      { rewrite T3. destruct (Z.ltb_spec 0 ((dnx + Zlength p) mod 64)); [reflexivity|].
        unfold d0. dcbn. lia. }
      split.
      { rewrite T4, H64, D64, Hq0.
        replace (dnx + Zlength p - 64 - (dnx + Zlength p) mod 64)
          with (dnx + Zlength p - (dnx + Zlength p) mod 64 - 64) by lia.
        destruct (Z.leb_spec 64 (dnx + Zlength p - 64));
          destruct (Z.leb_spec 128 (dnx + Zlength p)); try lia; reflexivity. }
      { rewrite T3.
        replace (drop (dnx + Zlength p - (dnx + Zlength p) mod 64) (take dnx dx ++ p))
          with (drop (Zlength q0 - (dnx + Zlength p) mod 64) q0).
        2:{ rewrite Hq0, <- D64. rewrite drop_drop by lia. f_equal. lia. }
        destruct (Z.ltb_spec 0 ((dnx + Zlength p) mod 64)) as [E3|E3].
        - apply T5. exact E3.
        - unfold d0 at 1. dcbn. rewrite take_nonpos by lia.
          symmetry. apply drop_all. lia. }
    + rewrite Z.min_r by lia.
      destruct (Z.eqb_spec (dnx + Zlength p) 64) as [?|_]; [lia|]. dcbn.
      rewrite (take_all (Zlength p) p) by lia.
      rewrite (drop_all (Zlength p) p) by lia.
      unfold bulk, keep, chunk. cbn [Zlength Zlength_aux Z.leb Z.ltb Z.compare]. dcbn.
      rewrite Z.mod_small by lia.
      replace (dnx + Zlength p - (dnx + Zlength p)) with 0 by lia. rewrite drop_0.
      split.
      { rewrite !Zlength_app, Hpend, Zlength_drop by lia. lia. }
      split; [reflexivity|]. split; [reflexivity|]. split; [reflexivity|].
      rewrite app_assoc. rewrite take_app_le by (rewrite Zlength_app; lia).
      apply take_all. rewrite Zlength_app. lia.
  - assert (dnx = 0) by lia. subst dnx. cbn [Z.eqb].
    rewrite (take_nonpos 0 dx) by lia. cbn [app]. rewrite Z.add_0_l in *.
    match goal with |- context [bulk ?d1 ?q] => set (d0 := d1) end.
    destruct (tail_exact d0 p Hx) as (T1 & T2 & T3 & T4 & T5 & T6).
    split; [exact T1|]. split; [rewrite T2; reflexivity|].
    split.
    { rewrite T3. destruct (Z.ltb_spec 0 (Zlength p mod 64)); [reflexivity|].
      unfold d0. dcbn. lia. }
    split; [exact T4|].
    rewrite T3. destruct (Z.ltb_spec 0 (Zlength p mod 64)) as [E3|E3].
    + apply T5. exact E3.
    + unfold d0 at 1. dcbn. rewrite take_nonpos by lia.
      symmetry. apply drop_all. lia.
Qed.

(** The chaining value [checkSum] ends with, and its bytes. *)
Definition lengthBytes (d : digest) : list byte :=
  PutUint64 (uint64 (Z.shiftl (len d) 3)).

Definition finalH (d : digest) : list Z :=
  if nx d <? 56 then
    block (h d) (pending d ++ (x80 :: make (55 - nx d)) ++ lengthBytes d)
  else
    block (block (h d) (pending d ++ x80 :: make (63 - nx d)))
          (make 56 ++ lengthBytes d).

Definition sumBytes (hs : list Z) : list byte :=
  PutUint32 (nth 0 hs 0) ++ PutUint32 (nth 1 hs 0) ++ PutUint32 (nth 2 hs 0) ++
  PutUint32 (nth 3 hs 0) ++ PutUint32 (nth 4 hs 0).

Lemma take_tmp (j : Z) :
  1 <= j <= 64 -> take j (u8 128 :: tl (make 64)) = x80 :: make (j - 1).
Proof.
  intros H. change (u8 128 :: tl (make 64)) with ([x80] ++ make 63).
  rewrite take_app_ge by (cbn; lia). change (Zlength [x80]) with 1.
  rewrite take_make by lia. reflexivity.
Qed.

Lemma checkSum_blocks (d : digest) :
  buffered d ->
  exists d', value (checkSum block d) = Ret (d', sumBytes (finalH d)).
Proof.
  intros [Hx Hnx]. unfold chunk in *.
  assert (Hr : 0 <= nx d < 64) by (rewrite Hnx; apply Z.mod_pos_bound; lia).
  unfold checkSum. rewrite value_bind.
  set (tmp := u8 128 :: tl (make 64)).
  set (pad := if len d mod 64 <? 56 then slice 0 (56 - len d mod 64) tmp
              else slice 0 (64 + 56 - len d mod 64) tmp).
  assert (Hw1 : value (if len d mod 64 <? 56
                       then Write block d (slice 0 (56 - len d mod 64) tmp)
                       else Write block d (slice 0 (64 + 56 - len d mod 64) tmp))
                = Ret (written d pad, Zlength pad, None)).
  { unfold pad. destruct (len d mod 64 <? 56); apply Write_written. }
  rewrite Hw1. cbn [fst]. clear Hw1.
  rewrite value_bind, Write_written. cbn [fst].
  set (lb := slice 0 8 (fst (copy tmp 0 (PutUint64 (uint64 (Z.shiftl (len d) 3)))))).
  assert (Hlb : lb = lengthBytes d).
  { unfold lb, slice, copy. cbn [fst]. rewrite drop_0.
    rewrite (take_nonpos 0) by lia. cbn [app].
    change (Zlength tmp - 0) with 64.
    change (Zlength (PutUint64 (uint64 (Z.shiftl (len d) 3)))) with 8.
    change (Z.min 64 8) with 8. change (8 - 0) with 8.
    rewrite take_app_le by (rewrite Zlength_take; cbn; lia).
    rewrite take_take by lia. apply take_all. cbn. lia. }
  rewrite Hlb. clear lb Hlb.
  assert (Hpad : pad = if nx d <? 56 then x80 :: make (55 - nx d)
                       else (x80 :: make (63 - nx d)) ++ make 56).
  { unfold pad, slice. rewrite <- Hnx, !drop_0.
    destruct (Z.ltb_spec (nx d) 56).
    - rewrite take_tmp by lia. do 2 f_equal. lia.
    - rewrite take_tmp by lia. cbn [app]. f_equal.
      rewrite <- make_add by lia. f_equal. lia. }
  clearbody pad. subst pad.
  assert (Hlb8 : Zlength (lengthBytes d) = 8) by reflexivity.
  assert (Hpend : Zlength (pending d) = nx d) by (apply Zlength_take; lia).
  destruct (Z.ltb_spec (nx d) 56) as [E|E].
  - set (p1 := x80 :: make (55 - nx d)).
    assert (Hp1 : @Zlength byte p1 = 56 - nx d).
    { unfold p1. rewrite Zlength_cons, Zlength_make by lia. lia. }
    destruct (written_exact d p1 Hx Hr) as (A1 & A2 & A3 & A4 & A5).
    rewrite Hp1 in A3. replace (nx d + (56 - nx d)) with 56 in A3 by lia.
    change (56 mod 64) with 56 in A3.
    rewrite Zlength_app, Hpend, Hp1 in A5.
    replace (nx d + (56 - nx d)) with 56 in A5 by lia.
    change (56 - 56 mod 64) with 0 in A5. rewrite drop_0 in A5.
    unfold compress in A4. rewrite Zlength_app, Hpend, Hp1 in A4.
    replace (nx d + (56 - nx d)) with 56 in A4 by lia.
    change (64 <=? 56) with false in A4.
    assert (A4' : h (written d p1) = h d) by (rewrite A4; destruct (nx d =? 0); reflexivity).
    clear A4.
    destruct (written_exact (written d p1) (lengthBytes d) A1 ltac:(lia))
      as (B1 & B2 & B3 & B4 & B5).
    rewrite A3, Hlb8 in B3. change ((56 + 8) mod 64) with 0 in B3.
    rewrite B3. cbn [Z.eqb negb]. eexists. do 2 f_equal.
    unfold compress in B4. rewrite A5, A4' in B4.
    rewrite !Zlength_app, Hpend, Hp1, Hlb8 in B4.
    replace (nx d + (56 - nx d) + 8) with 64 in B4 by lia.
    replace (nx d + (56 - nx d)) with 56 in B4 by lia.
    change (56 =? 0) with false in B4. change (64 <=? 64) with true in B4.
    change (128 <=? 64) with false in B4. cbv iota zeta in B4.
    rewrite (take_all 64) in B4.
    2:{ rewrite !Zlength_app, Hpend, Hp1, Hlb8. lia. }
    unfold finalH. destruct (Z.ltb_spec (nx d) 56); [|lia].
    rewrite B4. fold p1. rewrite <- !app_assoc. reflexivity.
  - set (p1 := (x80 :: make (63 - nx d)) ++ make 56).
    assert (Hp0 : @Zlength byte (x80 :: make (63 - nx d)) = 64 - nx d).
    { rewrite Zlength_cons, Zlength_make by lia. lia. }
    assert (Hp1 : @Zlength byte p1 = 120 - nx d).
    { unfold p1. rewrite Zlength_app, Hp0. change (Zlength (make 56)) with 56. lia. }
    destruct (written_exact d p1 Hx Hr) as (A1 & A2 & A3 & A4 & A5).
    rewrite Hp1 in A3. replace (nx d + (120 - nx d)) with 120 in A3 by lia.
    change (120 mod 64) with 56 in A3.
    rewrite Zlength_app, Hpend, Hp1 in A5.
    replace (nx d + (120 - nx d)) with 120 in A5 by lia.
    change (120 - 120 mod 64) with 64 in A5.
    assert (A5' : pending (written d p1) = make 56).
    { rewrite A5. unfold p1. rewrite app_assoc.
      rewrite drop_app_ge by (rewrite Zlength_app, Hpend, Hp0; lia).
      rewrite Zlength_app, Hpend, Hp0. apply drop_nonpos. lia. }
    clear A5.
    unfold compress in A4. rewrite Zlength_app, Hpend, Hp1 in A4.
    replace (nx d + (120 - nx d)) with 120 in A4 by lia.
    destruct (Z.eqb_spec (nx d) 0) as [?|_]; [lia|].
    change (64 <=? 120) with true in A4. change (128 <=? 120) with false in A4.
    cbv iota zeta in A4.
    assert (A4' : h (written d p1) = block (h d) (pending d ++ x80 :: make (63 - nx d))).
    { rewrite A4. f_equal. unfold p1. rewrite app_assoc.
      rewrite take_app_le by (rewrite Zlength_app, Hpend, Hp0; lia).
      apply take_all. rewrite Zlength_app, Hpend, Hp0. lia. }
    clear A4.
    destruct (written_exact (written d p1) (lengthBytes d) A1 ltac:(lia))
      as (B1 & B2 & B3 & B4 & B5).
    rewrite A3, Hlb8 in B3. change ((56 + 8) mod 64) with 0 in B3.
    rewrite B3. cbn [Z.eqb negb]. eexists. do 2 f_equal.
    unfold compress in B4. rewrite A5', A4' in B4.
    change (Zlength (make 56)) with 56 in B4.
    rewrite !Zlength_app, Hlb8 in B4. change (Zlength (make 56)) with 56 in B4.
    change (56 + 8) with 64 in B4.
    change (56 =? 0) with false in B4. change (64 <=? 64) with true in B4.
    change (128 <=? 64) with false in B4. cbv iota zeta in B4.
    rewrite (take_all 64) in B4.
    2:{ rewrite !Zlength_app, Hlb8. change (Zlength (make 56)) with 56. lia. }
    unfold finalH. destruct (Z.ltb_spec (nx d) 56); [lia|].
    rewrite B4. reflexivity.
Qed.

(** *** The constant-time checksum *)

(** The byte the first loop of [constSum] leaves at index [i]. *)
Definition padByte (n : Z) (mask1b : byte) (length : list byte) (i : Z) (xi : byte) : byte :=
  let v := if i <? n then xi else if i =? n then x80 else x00 in
  if 56 <=? i then bor v (band mask1b (index length (i - 56) x00)) else v.

Lemma index_middle {A} (a rest : list A) (v zero : A) (k : Z) :
  Zlength a = k -> index ((a ++ [v]) ++ rest) k zero = v.
Proof.
  intros Ha. unfold index. rewrite Zlength_correct in Ha.
  rewrite <- app_assoc. rewrite app_nth2 by lia.
  replace (Z.to_nat k - List.length a)%nat with 0%nat by lia. reflexivity.
Qed.

Lemma store_middle {A} (a rest : list A) (v v' : A) (k : Z) :
  Zlength a = k -> store ((a ++ [v]) ++ rest) k v' = (a ++ [v']) ++ rest.
Proof.
  intros Ha. pose proof (Zlength_nonneg a). pose proof (Zlength_nonneg rest).
  unfold store. rewrite !Zlength_app. change (Zlength [v]) with 1.
  destruct (Z.leb_spec 0 k); [|lia].
  destruct (Z.ltb_spec k (Zlength a + 1 + Zlength rest)); [|lia]. cbn [andb].
  rewrite <- !app_assoc. rewrite take_app_le by lia. rewrite take_all by lia.
  rewrite drop_app_ge by lia. rewrite Ha. replace (k + 1 - k) with 1 by lia.
  reflexivity.
Qed.

Lemma constSum_loop1 (x : list byte) (n : Z) (mask1b : byte) (length : list byte) :
  Zlength x = 64 -> 0 <= n < 64 ->
  forall k : nat, Z.of_nat k <= 64 ->
  fold_left
    (fun (s : list byte * byte) (i : Z) =>
       let (x, separator) := s in
       let mask := u8 (Z.shiftr (int8 (bsub (u8 i) (u8 n))) 7) in
       let x := store x i (bor (band (bnot mask) separator) (band mask (index x i x00))) in
       let separator := band separator mask in
       let x := if 56 <=? i
                then store x i (bor (index x i x00) (band mask1b (index length (i - 56) x00)))
                else x in
       (x, separator))
    (upto (Z.of_nat k)) (x, u8 128)
  = (map (fun i => padByte n mask1b length i (index x i x00)) (upto (Z.of_nat k))
       ++ drop (Z.of_nat k) x,
     if Z.of_nat k <=? n then x80 else x00).
Proof.
  intros Hx Hn. cbv zeta. induction k as [|k IH]; intros Hk.
  - cbn. destruct (Z.leb_spec 0 n); [reflexivity | lia].
  - rewrite Nat2Z.inj_succ, <- Z.add_1_r. rewrite upto_succ by lia.
    rewrite fold_left_app, IH by lia. cbn [fold_left].
    set (m := Z.of_nat k) in *.
    set (a := map (fun i => padByte n mask1b length i (index x i x00)) (upto m)).
    assert (Ha : Zlength a = m).
    { unfold a. rewrite Zlength_correct, length_map, <- Zlength_correct.
      apply upto_length. lia. }
    rewrite sign_mask by lia.
    rewrite index_app_r by lia. rewrite Ha, index_drop by lia.
    replace (m + (m - m)) with m by lia.
    rewrite store_at_end by lia.
    rewrite index_middle, store_middle by exact Ha.
    rewrite map_app. cbn [map]. fold a.
    unfold padByte.
    destruct (Z.ltb_spec m n); destruct (Z.leb_spec m n);
      destruct (Z.leb_spec (m + 1) n); destruct (Z.eqb_spec m n); try lia;
      destruct (56 <=? m);
      rewrite ?bnot_ff, ?bnot_00, ?band_00_l, ?band_ff_l, ?band_00_r, ?band_ff_r,
        ?bor_00_l, ?bor_00_r;
      reflexivity.
Qed.

Lemma constSum_loop2 (x : list byte) (length : list byte) :
  Zlength x = 64 ->
  forall k : nat, Z.of_nat k <= 64 ->
  fold_left
    (fun (s : list byte * byte) (i : Z) =>
       let (x, separator) := s in
       if i <? 56 then (store x i separator, u8 0)
       else (store x i (index length (i - 56) x00), separator))
    (upto (Z.of_nat k)) (@pair (list byte) byte x x00)
  = (map (fun i => if i <? 56 then x00 else index length (i - 56) x00) (upto (Z.of_nat k))
       ++ drop (Z.of_nat k) x,
     x00).
Proof.
  intros Hx. cbv zeta. induction k as [|k IH]; intros Hk.
  - reflexivity.
  - rewrite Nat2Z.inj_succ, <- Z.add_1_r. rewrite upto_succ by lia.
    rewrite fold_left_app, IH by lia. cbn [fold_left].
    set (m := Z.of_nat k) in *.
    set (a := map (fun i => if i <? 56 then x00 else index length (i - 56) x00) (upto m)).
    assert (Ha : @Zlength byte a = m).
    { unfold a. rewrite Zlength_correct, length_map, <- Zlength_correct.
      apply upto_length. lia. }
    rewrite map_app. cbn [map]. fold a.
    destruct (m <? 56); rewrite store_at_end by lia; reflexivity.
Qed.

Lemma pad_shape_short (x length : list byte) (n : Z) :
  Zlength x = 64 -> Zlength length = 8 -> 0 <= n < 56 ->
  map (fun i => padByte n xff length i (index x i x00)) (upto 64)
  = take n x ++ (x80 :: make (55 - n)) ++ length.
Proof.
  intros Hx Hl Hn.
  replace 64 with (n + (1 + ((55 - n) + 8))) at 1 by lia.
  rewrite !upto_add by lia. rewrite !map_app, !map_map.
  f_equal; [|change (upto 1) with [0]; cbn [map app]; f_equal; [|f_equal]].
  - rewrite <- (map_index_upto x x00 n) by lia.
    apply map_ext_in. intros i Hi. apply In_upto in Hi. unfold padByte.
    destruct (Z.ltb_spec i n); [|lia]. destruct (Z.leb_spec 56 i); [lia|]. reflexivity.
  - unfold padByte. rewrite Z.add_0_r.
    destruct (Z.ltb_spec n n); [lia|]. rewrite Z.eqb_refl.
    destruct (Z.leb_spec 56 n); [lia|]. reflexivity.
  - unfold make. rewrite <- map_const_upto.
    apply map_ext_in. intros j Hj. apply In_upto in Hj. unfold padByte.
    destruct (Z.ltb_spec (n + (1 + j)) n); [lia|].
    destruct (Z.eqb_spec (n + (1 + j)) n); [lia|].
    destruct (Z.leb_spec 56 (n + (1 + j))); [lia|]. reflexivity.
  - transitivity (take 8 length); [|apply take_all; lia].
    rewrite <- (map_index_upto length x00 8) by lia.
    apply map_ext_in. intros j Hj. apply In_upto in Hj. unfold padByte.
    destruct (Z.ltb_spec (n + (1 + (55 - n + j))) n); [lia|].
    destruct (Z.eqb_spec (n + (1 + (55 - n + j))) n); [lia|].
    destruct (Z.leb_spec 56 (n + (1 + (55 - n + j)))); [|lia].
    rewrite band_ff_l, bor_00_l. f_equal. lia.
Qed.

Lemma pad_shape_long (x length : list byte) (n : Z) :
  Zlength x = 64 -> 56 <= n < 64 ->
  map (fun i => padByte n x00 length i (index x i x00)) (upto 64)
  = take n x ++ x80 :: make (63 - n).
Proof.
  intros Hx Hn.
  replace 64 with (n + (1 + (63 - n))) at 1 by lia.
  rewrite !upto_add by lia. rewrite !map_app, !map_map.
  f_equal; [|change (upto 1) with [0]; cbn [map app]; f_equal].
  - rewrite <- (map_index_upto x x00 n) by lia.
    apply map_ext_in. intros i Hi. apply In_upto in Hi. unfold padByte.
    destruct (Z.ltb_spec i n); [|lia].
    destruct (56 <=? i); [rewrite band_00_l; apply bor_00_r | reflexivity].
  - unfold padByte. rewrite Z.add_0_r.
    destruct (Z.ltb_spec n n); [lia|]. rewrite Z.eqb_refl.
    destruct (Z.leb_spec 56 n); [|lia]. rewrite band_00_l. reflexivity.
  - unfold make. rewrite <- map_const_upto.
    apply map_ext_in. intros j Hj. apply In_upto in Hj. unfold padByte.
    destruct (Z.ltb_spec (n + (1 + j)) n); [lia|].
    destruct (Z.eqb_spec (n + (1 + j)) n); [lia|].
    destruct (Z.leb_spec 56 (n + (1 + j))); [|lia]. rewrite band_00_l. reflexivity.
Qed.

Lemma second_shape (length : list byte) :
  Zlength length = 8 ->
  map (fun i => if i <? 56 then x00 else index length (i - 56) x00) (upto 64)
  = make 56 ++ length.
Proof.
  intros Hl. change 64 with (56 + 8) at 1.
  rewrite upto_add by lia. rewrite map_app, map_map.
  apply (f_equal2 (@app byte)); [reflexivity|].
  transitivity (take 8 length); [|apply take_all; lia].
  rewrite <- (map_index_upto length x00 8) by lia.
  apply map_ext_in. intros j Hj. apply In_upto in Hj.
  destruct (Z.ltb_spec (56 + j) 56); [lia|]. f_equal. lia.
Qed.

Lemma constSum_blocks (d : digest) :
  Zlength (x d) = 64 -> 0 <= nx d < 64 ->
  snd (constSum block d) = sumBytes (finalH d).
Proof.
  intros Hx Hn. unfold constSum, finalH, pending.
  change (map (fun i => u8 (Z.shiftr (uint64 (Z.shiftl (len d) 3)) (56 - 8 * i))) (upto 8))
    with (lengthBytes d).
  assert (Hl : Zlength (lengthBytes d) = 8) by reflexivity.
  set (length := lengthBytes d) in *. clearbody length.
  rewrite sign_mask by lia.
  destruct d as [dh dx dnx dlen]. cbn [x nx len h] in *.
  pose proof (constSum_loop1 dx dnx (if dnx <? 56 then xff else x00) length
                Hx Hn 64 ltac:(lia)) as L1.
  cbv zeta in L1 |- *. change (Z.of_nat 64) with 64 in L1. unfold chunk.
  rewrite L1. clear L1.
  rewrite (drop_all 64 dx) by lia. rewrite app_nil_r.
  destruct (Z.leb_spec 64 dnx) as [?|_]; [lia|].
  cbn [x nx len h set_x set_h].
  set (x1 := map _ (upto 64)).
  assert (Hx1 : Zlength x1 = 64).
  { unfold x1. rewrite Zlength_correct, length_map, <- Zlength_correct. reflexivity. }
  pose proof (constSum_loop2 x1 length Hx1 64 ltac:(lia)) as L2.
  cbv zeta in L2. change (Z.of_nat 64) with 64 in L2.
  rewrite L2. clear L2.
  rewrite (drop_all 64 x1) by lia. rewrite app_nil_r.
  rewrite second_shape by exact Hl.
  cbn [x nx len h set_x set_h snd].
  change (upto 5) with [0; 1; 2; 3; 4].
  unfold sumBytes, PutUint32.
  destruct (Z.ltb_spec dnx 56) as [E|E].
  - assert (Hs : x1 = take dnx dx ++ (x80 :: make (55 - dnx)) ++ length).
    { unfold x1. apply pad_shape_short; [exact Hx | exact Hl | lia]. }
    clearbody x1. subst x1.
    set (h1 := block dh _). set (h2 := block h1 _). clearbody h1 h2.
    cbn [flat_map app].
    rewrite !band_ff_l, bnot_ff, !band_00_l.
    lazy [index nth Z.to_nat Z.mul Z.add Pos.to_nat Pos.iter_op Pos.mul Pos.add
          Pos.succ Nat.add].
    rewrite !bor_00_r. reflexivity.
  - assert (Hs : x1 = take dnx dx ++ x80 :: make (63 - dnx)).
    { unfold x1. apply pad_shape_long; [exact Hx | lia]. }
    clearbody x1. subst x1.
    set (h1 := block dh _). set (h2 := block h1 _). clearbody h1 h2.
    cbn [flat_map app].
    rewrite !band_00_l, bnot_00, !band_ff_l.
    lazy [index nth Z.to_nat Z.mul Z.add Pos.to_nat Pos.iter_op Pos.mul Pos.add
          Pos.succ Nat.add].
    rewrite !bor_00_l. reflexivity.
Qed.

(** *** Digests that hash alike *)

(** Two digests with the same chaining value, the same count and the same
    buffered bytes; what lies in the buffer past [nx] may differ. *)
Definition sameState (d d' : digest) : Prop :=
  h d = h d' /\ nx d = nx d' /\ len d = len d' /\ pending d = pending d'.

Lemma buffered_range (d : digest) : buffered d -> Zlength (x d) = 64 /\ 0 <= nx d < 64.
Proof.
  intros [Hx Hn]. split; [exact Hx|]. rewrite Hn. apply Z.mod_pos_bound. reflexivity.
Qed.

Lemma buffered_written (d : digest) (p : list byte) :
  buffered d -> buffered (written d p).
Proof.
  intros Hd. destruct (buffered_Write block d p Hd) as (d' & Hv & Hb & _).
  rewrite Write_written in Hv. injection Hv as <-. exact Hb.
Qed.

Lemma written_same (d d' : digest) (p : list byte) :
  buffered d -> buffered d' -> sameState d d' -> sameState (written d p) (written d' p).
Proof.
  intros Hd Hd' (Sh & Sn & Sl & Sp).
  destruct (buffered_range d Hd) as [Hx Hn].
  destruct (buffered_range d' Hd') as [Hx' Hn'].
  destruct (written_exact d p Hx Hn) as (_ & A2 & A3 & A4 & A5).
  destruct (written_exact d' p Hx' Hn') as (_ & B2 & B3 & B4 & B5).
  unfold sameState.
  rewrite A2, A3, A4, A5, B2, B3, B4, B5, Sh, Sn, Sl, Sp. repeat split.
Qed.

Lemma finalH_same (d d' : digest) : sameState d d' -> finalH d = finalH d'.
Proof.
  intros (Sh & Sn & Sl & Sp). unfold finalH, lengthBytes.
  rewrite Sh, Sn, Sl, Sp. reflexivity.
Qed.

Lemma digest_Sum_blocks (d : digest) (input : list byte) :
  buffered d -> value (digest_Sum block d input) = Ret (input ++ sumBytes (finalH d)).
Proof.
  intros Hd. unfold digest_Sum. rewrite value_bind.
  destruct (checkSum_blocks d Hd) as (d' & ->). reflexivity.
Qed.

Lemma digest_Sum_same (d d' : digest) (input : list byte) :
  buffered d -> buffered d' -> sameState d d' ->
  value (digest_Sum block d input) = value (digest_Sum block d' input).
Proof.
  intros Hd Hd' Hs. rewrite !digest_Sum_blocks by assumption.
  rewrite (finalH_same d d' Hs). reflexivity.
Qed.

(** [ConstantTimeSum] returns what [Sum] returns: on every digest that
    [Reset] and [Write] can produce, the padding it builds in place with
    masks is the padding [checkSum] writes, over one compression or two. *)
Theorem ConstantTimeSum_is_Sum (d : digest) (input : list byte) :
  reachable block d ->
  value (digest_Sum block d input) = Ret (ConstantTimeSum block d input).
Proof.
  intros Hr. apply reachable_buffered in Hr.
  destruct (buffered_range d Hr) as [Hx Hn].
  rewrite digest_Sum_blocks by exact Hr.
  unfold ConstantTimeSum. rewrite constSum_blocks by assumption. reflexivity.
Qed.

(** After [Reset] a digest hashes as a new one does, whatever it has
    hashed before: the bytes left in its buffer do not reach the next
    checksum. *)
Theorem Reset_hashes_afresh (d : digest) (p input : list byte) :
  Zlength (x d) = chunk ->
  value (r <- Write block (Reset d) p ;; digest_Sum block (fst (fst r)) input)
  = match value (Sum block p) with
    | Ret sum => Ret (input ++ sum)
    | Panic msg => Panic msg
    end.
Proof.
  intros Hx.
  assert (Hd : buffered (Reset d)) by (split; [exact Hx | reflexivity]).
  assert (H0 : buffered (Reset zero)) by (split; reflexivity).
  assert (Hs : sameState (Reset d) (Reset zero)) by (repeat split).
  unfold Sum. rewrite !value_bind, !Write_written. cbn [fst].
  rewrite digest_Sum_blocks by (apply buffered_written; exact Hd).
  rewrite value_bind.
  destruct (checkSum_blocks (written (Reset zero) p) (buffered_written _ p H0)) as (d' & ->).
  cbn [snd value ret fst].
  rewrite (finalH_same _ _ (written_same _ _ p Hd H0 Hs)). reflexivity.
Qed.

(** *** Writing in pieces *)

Section Chunks.

(** What the compression function of the package does with its input: it
    consumes the whole chunks one after the other. *)
Hypothesis block_nil : forall hs, block hs [] = hs.
Hypothesis block_app : forall hs a b,
  Zlength a mod 64 = 0 -> block hs (a ++ b) = block (block hs a) b.

Lemma compress_whole (hs : list Z) (pend p : list byte) :
  Zlength pend < 64 ->
  compress hs pend p
  = block hs (take (Zlength (pend ++ p) - Zlength (pend ++ p) mod 64) (pend ++ p)).
Proof.
  intros Hpend. unfold compress.
  pose proof (Zlength_nonneg pend). pose proof (Zlength_nonneg p).
  set (all := pend ++ p).
  assert (Hall : Zlength all = Zlength pend + Zlength p) by apply Zlength_app.
  pose proof (Z.mod_pos_bound (Zlength all) 64 ltac:(lia)) as Hm.
  assert (Hdm := Z.div_mod (Zlength all) 64 ltac:(lia)).
  assert (Hsmall : Zlength all < 64 -> block hs (take (Zlength all - Zlength all mod 64) all) = hs).
  { intros Hlt. rewrite Z.mod_small by lia. rewrite take_nonpos by lia. apply block_nil. }
  destruct (Z.eqb_spec (Zlength pend) 0) as [E0|E0].
  - destruct (Z.leb_spec 64 (Zlength all)); [reflexivity|]. symmetry. apply Hsmall. lia.
  - destruct (Z.leb_spec 64 (Zlength all)) as [E1|E1]; [|symmetry; apply Hsmall; lia].
    cbv zeta.
    destruct (Z.leb_spec 128 (Zlength all)) as [E2|E2].
    + rewrite <- block_app by (rewrite Zlength_take by lia; reflexivity).
      rewrite take_take_drop by lia. f_equal. f_equal. lia.
    + f_equal. f_equal. lia.
Qed.

(** The checksum does not depend on how the input is cut into [Write]
    calls: two writes leave the digest hashing as one write of the
    concatenation does. *)
Theorem Write_in_pieces (d : digest) (a b input : list byte) :
  reachable block d ->
  value (r <- Write block d a ;;
         r <- Write block (fst (fst r)) b ;;
         digest_Sum block (fst (fst r)) input)
  = value (r <- Write block d (a ++ b) ;; digest_Sum block (fst (fst r)) input).
Proof.
  intros Hr. apply reachable_buffered in Hr.
  rewrite !value_bind, !Write_written. cbn [fst].
  rewrite value_bind, Write_written. cbn [fst].
  assert (H1 : buffered (written d a)) by (apply buffered_written; exact Hr).
  assert (H2 : buffered (written (written d a) b)) by (apply buffered_written; exact H1).
  assert (H3 : buffered (written d (a ++ b))) by (apply buffered_written; exact Hr).
  apply digest_Sum_same; [exact H2 | exact H3 |].
  destruct (buffered_range d Hr) as [Hx Hn].
  destruct (buffered_range _ H1) as [Hx1 Hn1].
  destruct (written_exact d a Hx Hn) as (_ & A2 & A3 & A4 & A5).
  destruct (written_exact (written d a) b Hx1 Hn1) as (_ & B2 & B3 & B4 & B5).
  destruct (written_exact d (a ++ b) Hx Hn) as (_ & Cn2 & Cn3 & Cn4 & Cn5).
  assert (Hp : Zlength (pending d) = nx d) by (apply Zlength_take; lia).
  pose proof (Zlength_nonneg a) as Ha. pose proof (Zlength_nonneg b) as Hb.
  set (all1 := pending d ++ a) in *.
  assert (Hall1 : Zlength all1 = nx d + Zlength a).
  { unfold all1. rewrite Zlength_app, Hp. reflexivity. }
  pose proof (Z.mod_pos_bound (Zlength all1) 64 ltac:(lia)) as Hm1.
  assert (Hdm1 := Z.div_mod (Zlength all1) 64 ltac:(lia)).
  set (k1 := Zlength all1 - Zlength all1 mod 64) in *.
  assert (Hk1 : k1 mod 64 = 0).
  { unfold k1. replace (Zlength all1 - Zlength all1 mod 64) with (Zlength all1 / 64 * 64) by lia.
    apply Z.mod_mul. lia. }
  assert (Hsplit : pending d ++ a ++ b = take k1 all1 ++ (drop k1 all1 ++ b)).
  { rewrite app_assoc. fold all1. rewrite app_assoc, take_drop. reflexivity. }
  assert (Htk : Zlength (take k1 all1) = k1) by (apply Zlength_take; unfold k1; lia).
  assert (Hdk : Zlength (drop k1 all1) = Zlength all1 mod 64).
  { rewrite Zlength_drop by (unfold k1; lia). unfold k1. lia. }
  set (all2 := drop k1 all1 ++ b) in *.
  assert (Hall2 : Zlength all2 = Zlength all1 mod 64 + Zlength b).
  { unfold all2. rewrite Zlength_app, Hdk. reflexivity. }
  assert (Hlen12 : Zlength (pending d ++ a ++ b) = k1 + Zlength all2).
  { rewrite Hsplit, Zlength_app, Htk. reflexivity. }
  assert (Hmod : Zlength (pending d ++ a ++ b) mod 64 = Zlength all2 mod 64).
  { rewrite Hlen12. rewrite Z.add_comm.
    replace k1 with (Zlength all1 / 64 * 64) by (unfold k1; lia).
    apply Z.mod_add. lia. }
  pose proof (Z.mod_pos_bound (Zlength all2) 64 ltac:(lia)) as Hm2.
  assert (Hdm2 := Z.div_mod (Zlength all2) 64 ltac:(lia)).
  unfold sameState. rewrite B2, B3, B4, B5, Cn2, Cn3, Cn4, Cn5, A2, A3, A4, A5.
  rewrite !compress_whole by lia.
  fold all1. fold k1. fold all2.
  rewrite Hmod, Hlen12, Hsplit. fold all2.
  replace (k1 + Zlength all2 - Zlength all2 mod 64)
    with (k1 + (Zlength all2 - Zlength all2 mod 64)) by lia.
  split; [|split; [|split]].
  - rewrite <- block_app by (rewrite Htk; exact Hk1).
    f_equal. rewrite take_app_ge by lia. rewrite Htk. f_equal. f_equal. lia.
  - rewrite Zlength_app. rewrite Z.add_mod_idemp_l by lia. f_equal. lia.
  - unfold uint64. rewrite Zlength_app. rewrite Z.add_mod_idemp_l by lia.
    f_equal. lia.
  - rewrite drop_app_ge by lia. rewrite Htk. f_equal. lia.
Qed.

End Chunks.

End Block.

(** *** Marshalling *)

Lemma lor_below (k a c : Z) :
  0 <= k -> 0 <= a < 2 ^ k -> 0 <= c < 2 ^ k -> 0 <= Z.lor a c < 2 ^ k.
Proof.
  intros Hk Ha Hc. split; [apply Z.lor_nonneg; lia|].
  destruct (Z.eq_dec (Z.lor a c) 0) as [->|Hz]; [lia|].
  apply Z.log2_lt_pow2; [pose proof (Z.lor_nonneg a c); lia|].
  rewrite Z.log2_lor by lia.
  destruct (Z.eq_dec a 0) as [->|]; destruct (Z.eq_dec c 0) as [->|].
  - exfalso. apply Hz. reflexivity.
  - change (Z.log2 0) with 0. rewrite Z.max_r by (apply Z.log2_nonneg).
    apply Z.log2_lt_pow2; lia.
  - change (Z.log2 0) with 0. rewrite Z.max_l by (apply Z.log2_nonneg).
    apply Z.log2_lt_pow2; lia.
  - apply Z.max_lub_lt; apply Z.log2_lt_pow2; lia.
Qed.

Lemma consumeUint32_value (b : list byte) :
  4 <= Zlength b ->
  exists v, value (consumeUint32 b) = Ret (drop 4 b, v) /\ 0 <= v < 2 ^ 32.
Proof.
  intros Hb. unfold consumeUint32.
  destruct (Z.leb_spec (Zlength b) 3); [lia|].
  eexists. split; [reflexivity|].
  generalize (index b 0 x00), (index b 1 x00), (index b 2 x00), (index b 3 x00).
  intros b0 b1 b2 b3. unfold uint32.
  pose proof (Z_of_byte_range b3).
  assert (H32 : forall v k, 0 <= Z.shiftl v k mod 2 ^ 32 < 2 ^ 32)
    by (intros; apply Z.mod_pos_bound; lia).
  repeat apply lor_below; try apply H32; lia.
Qed.

Lemma consumeUint64_value (b : list byte) :
  8 <= Zlength b ->
  exists v, value (consumeUint64 b) = Ret (drop 8 b, v) /\ 0 <= v < 2 ^ 64.
Proof.
  intros Hb. unfold consumeUint64.
  destruct (Z.leb_spec (Zlength b) 7); [lia|].
  eexists. split; [reflexivity|].
  generalize (index b 0 x00), (index b 1 x00), (index b 2 x00), (index b 3 x00),
    (index b 4 x00), (index b 5 x00), (index b 6 x00), (index b 7 x00).
  intros b0 b1 b2 b3 b4 b5 b6 b7. unfold uint64.
  pose proof (Z_of_byte_range b7).
  assert (H64 : forall v k, 0 <= Z.shiftl v k mod 2 ^ 64 < 2 ^ 64)
    by (intros; apply Z.mod_pos_bound; lia).
  repeat apply lor_below; try apply H64; lia.
Qed.

Lemma consumeUint32_PutUint32 (v : Z) (rest : list byte) :
  value (consumeUint32 (PutUint32 v ++ rest)) = Ret (rest, v mod 2 ^ 32).
Proof.
  unfold consumeUint32. rewrite Zlength_app. change (Zlength (PutUint32 v)) with 4.
  pose proof (Zlength_nonneg rest).
  destruct (Z.leb_spec (4 + Zlength rest) 3); [lia|].
  unfold PutUint32. cbn [app value ret fst].
  change (drop 4 (?a :: ?b :: ?c :: ?e :: rest)) with rest.
  lazy [index nth Z.to_nat Pos.to_nat Pos.iter_op Nat.add].
  do 2 f_equal. unfold uint32. rewrite !Z_of_byte_u8. change 256 with (2 ^ 8).
  bits_by_cases.
Qed.

Lemma consumeUint64_PutUint64 (v : Z) (rest : list byte) :
  value (consumeUint64 (PutUint64 v ++ rest)) = Ret (rest, v mod 2 ^ 64).
Proof.
  unfold consumeUint64. rewrite Zlength_app. change (Zlength (PutUint64 v)) with 8.
  pose proof (Zlength_nonneg rest).
  destruct (Z.leb_spec (8 + Zlength rest) 7); [lia|].
  unfold PutUint64. cbn [app value ret fst].
  change (drop 8 (?a0 :: ?a1 :: ?a2 :: ?a3 :: ?a4 :: ?a5 :: ?a6 :: ?a7 :: rest)) with rest.
  lazy [index nth Z.to_nat Pos.to_nat Pos.iter_op Nat.add].
  do 2 f_equal. unfold uint64. rewrite !Z_of_byte_u8. change 256 with (2 ^ 8).
  bits_by_cases.
Qed.

Lemma bytes_eqb_eq (a b : list byte) : bytes_eqb a b = true <-> a = b.
Proof.
  revert b. induction a as [|c a IH]; intros [|c' b]; cbn; split; intros H;
    try reflexivity; try discriminate.
  - apply andb_true_iff in H. destruct H as [Hc Hab].
    apply Byte.byte_dec_bl in Hc. apply IH in Hab. congruence.
  - injection H as -> ->. apply andb_true_iff. split.
    + apply Byte.byte_dec_lb. reflexivity.
    + apply IH. reflexivity.
Qed.

Lemma MarshalBinary_value (d : digest) :
  Zlength (x d) = 64 -> 0 <= nx d <= 64 ->
  value (MarshalBinary d)
  = Ret (magic ++ PutUint32 (index (h d) 0 0) ++ PutUint32 (index (h d) 1 0) ++
         PutUint32 (index (h d) 2 0) ++ PutUint32 (index (h d) 3 0) ++
         PutUint32 (index (h d) 4 0) ++
         take (nx d) (x d) ++ make (64 - nx d) ++ PutUint64 (len d), None).
Proof.
  intros Hx Hn. unfold MarshalBinary, appendUint32, appendUint64, marshaledSize, chunk.
  cbv zeta. cbn [app].
  destruct (Z.ltb_spec (nx d) 0); [lia|]. destruct (Z.ltb_spec (Zlength (x d)) (nx d)); [lia|].
  cbn [orb].
  assert (Hb : Zlength (((((magic ++ PutUint32 (index (h d) 0 0)) ++ PutUint32 (index (h d) 1 0))
                 ++ PutUint32 (index (h d) 2 0)) ++ PutUint32 (index (h d) 3 0))
                 ++ PutUint32 (index (h d) 4 0)) = 24) by reflexivity.
  set (b0 := ((((magic ++ _) ++ _) ++ _) ++ _) ++ _) in *.
  rewrite Zlength_app, Hb, Zlength_take, Hx by lia.
  rewrite (int_small (nx d)) by lia.
  replace (24 + nx d + 64 - nx d) with 88 by lia. change (int 88) with 88.
  change (Zlength magic + 5 * 4 + 64 + 8) with 96.
  change ((88 <? 0) || (96 <? 88)) with false. cbv iota.
  assert (Hred : (if 88 <=? 24 + nx d then take 88 (b0 ++ take (nx d) (x d))
                  else (b0 ++ take (nx d) (x d)) ++ make (88 - (24 + nx d)))
                 = b0 ++ take (nx d) (x d) ++ make (64 - nx d)).
  { destruct (Z.leb_spec 88 (24 + nx d)).
    - assert (nx d = 64) by lia.
      rewrite take_all by (rewrite Zlength_app, Hb, Zlength_take; lia).
      replace (64 - nx d) with 0 by lia. cbn [make Z.to_nat repeat]. now rewrite app_nil_r.
    - rewrite <- app_assoc. do 3 f_equal. lia. }
  rewrite Hred. unfold b0. rewrite <- !app_assoc. reflexivity.
Qed.

Lemma store_five (hs : list Z) (v0 v1 v2 v3 v4 : Z) :
  Zlength hs = 5 ->
  store (store (store (store (store hs 0 v0) 1 v1) 2 v2) 3 v3) 4 v4 = [v0; v1; v2; v3; v4].
Proof.
  intros H. rewrite Zlength_correct in H.
  do 5 (destruct hs as [|? hs]; [cbn in H; lia|]).
  destruct hs; [reflexivity | cbn in H; lia].
Qed.

Lemma UnmarshalBinary_value (d : digest) (b : list byte) (v0 v1 v2 v3 v4 l : Z) :
  take 4 b = magic -> Zlength b = 96 -> Zlength (h d) = 5 -> Zlength (x d) = 64 ->
  value (consumeUint32 (drop 4 b)) = Ret (drop 8 b, v0) ->
  value (consumeUint32 (drop 8 b)) = Ret (drop 12 b, v1) ->
  value (consumeUint32 (drop 12 b)) = Ret (drop 16 b, v2) ->
  value (consumeUint32 (drop 16 b)) = Ret (drop 20 b, v3) ->
  value (consumeUint32 (drop 20 b)) = Ret (drop 24 b, v4) ->
  value (consumeUint64 (drop 88 b)) = Ret (drop 96 b, l) ->
  value (UnmarshalBinary d b)
  = Ret (mkDigest [v0; v1; v2; v3; v4] (take 64 (drop 24 b)) (int (l mod 64)) l, None).
Proof.
  intros Hm Hb Hh Hx H0 H1 H2 H3 H4 H5. unfold UnmarshalBinary, marshaledSize, chunk.
  change (Zlength magic) with 4. change (4 + 5 * 4 + 64 + 8) with 96.
  rewrite Hm, Hb. change (bytes_eqb magic magic) with true.
  change ((96 <? 4) || negb true) with false. change (negb (96 =? 96)) with false.
  cbv iota.
  rewrite value_bind, H0. cbn [fst snd].
  rewrite value_bind, H1. cbn [fst snd].
  rewrite value_bind, H2. cbn [fst snd].
  rewrite value_bind, H3. cbn [fst snd].
  rewrite value_bind, H4. cbn [fst snd].
  destruct d as [dh dx dnx dlen]. cbn [h x nx len set_h set_x set_len set_nx] in *.
  unfold copy. rewrite Hx, Zlength_drop by lia. rewrite Hb.
  change (Z.min (64 - 0) (96 - 24)) with 64.
  rewrite (take_nonpos 0) by lia. rewrite (drop_all (0 + 64) dx) by lia.
  cbn [app]. rewrite app_nil_r.
  rewrite drop_drop by lia. change (64 + 24) with 88.
  rewrite value_bind, H5. cbn [fst snd value ret].
  cbn [h x nx len set_h set_x set_len set_nx].
  rewrite store_five by exact Hh. reflexivity.
Qed.

(** A digest that was marshalled and unmarshalled hashes as the digest it
    was taken from: the chaining value, the count and the buffered bytes
    come back, and with them every checksum of what is written next. *)
Theorem MarshalBinary_UnmarshalBinary (block : list Z -> list byte -> list Z)
    (d d0 : digest) :
  reachable block d -> wellTyped d -> Zlength (h d0) = 5 -> Zlength (x d0) = chunk ->
  exists b d',
    value (MarshalBinary d) = Ret (b, None) /\
    Zlength b = marshaledSize /\
    value (UnmarshalBinary d0 b) = Ret (d', None) /\
    h d' = h d /\ len d' = len d /\ nx d' = nx d /\
    take (nx d) (x d') = take (nx d) (x d) /\
    forall p input,
      value (r <- Write block d' p ;; digest_Sum block (fst (fst r)) input)
      = value (r <- Write block d p ;; digest_Sum block (fst (fst r)) input).
Proof.
  intros Hr (Th & Tv & Tx & Tl) Hh0 Hx0. unfold chunk in *.
  apply reachable_buffered in Hr. destruct (buffered_range d Hr) as [Hx Hn].
  pose proof (MarshalBinary_value d Hx ltac:(lia)) as Hm.
  set (b := magic ++ _) in Hm.
  assert (Hp : Zlength (take (nx d) (x d)) = nx d) by (apply Zlength_take; lia).
  assert (Hb : Zlength b = 96).
  { unfold b. rewrite !Zlength_app, Hp, Zlength_make by lia.
    change (Zlength magic) with 4. change (Zlength (PutUint32 _)) with 4.
    change (Zlength (PutUint64 _)) with 8. lia. }
  assert (Hidx : forall i, 0 <= i < 5 -> index (h d) i 0 mod 2 ^ 32 = index (h d) i 0).
  { intros i Hi. apply Z.mod_small. rewrite Forall_forall in Tv. apply Tv.
    unfold index. apply nth_In. rewrite Zlength_correct in Th. lia. }
  assert (Hhd : h d = [index (h d) 0 0; index (h d) 1 0; index (h d) 2 0;
                       index (h d) 3 0; index (h d) 4 0]).
  { rewrite Zlength_correct in Th. destruct (h d) as [|a0 [|a1 [|a2 [|a3 [|a4 [|a5 r]]]]]];
      cbn in Th; try lia. reflexivity. }
  set (tail := take (nx d) (x d) ++ make (64 - nx d) ++ PutUint64 (len d)) in *.
  pose proof (UnmarshalBinary_value d0 b
                (index (h d) 0 0) (index (h d) 1 0) (index (h d) 2 0)
                (index (h d) 3 0) (index (h d) 4 0) (len d)) as Hu.
  assert (D24 : drop 24 b = tail) by reflexivity.
  assert (D88 : drop 88 b = PutUint64 (len d)).
  { change 88 with (64 + 24). rewrite <- drop_drop by lia. rewrite D24. unfold tail.
    rewrite app_assoc. rewrite drop_app_ge by (rewrite Zlength_app, Hp, Zlength_make; lia).
    rewrite Zlength_app, Hp, Zlength_make by lia. apply drop_nonpos. lia. }
  assert (D96 : drop 96 b = []) by (apply drop_all; lia).
  rewrite D88, D96 in Hu.
  specialize (Hu eq_refl Hb Hh0 Hx0).
  pose (r4 := PutUint32 (index (h d) 4 0) ++ tail).
  pose (r3 := PutUint32 (index (h d) 3 0) ++ r4).
  pose (r2 := PutUint32 (index (h d) 2 0) ++ r3).
  pose (r1 := PutUint32 (index (h d) 1 0) ++ r2).
  pose proof (consumeUint32_PutUint32 (index (h d) 0 0) r1) as Cn0.
  pose proof (consumeUint32_PutUint32 (index (h d) 1 0) r2) as Cn1.
  pose proof (consumeUint32_PutUint32 (index (h d) 2 0) r3) as Cn2.
  pose proof (consumeUint32_PutUint32 (index (h d) 3 0) r4) as Cn3.
  pose proof (consumeUint32_PutUint32 (index (h d) 4 0) tail) as Cn4.
  pose proof (consumeUint64_PutUint64 (len d) []) as Cn5.
  rewrite Hidx in Cn0, Cn1, Cn2, Cn3, Cn4 by lia.
  rewrite Z.mod_small, app_nil_r in Cn5 by lia.
  specialize (Hu Cn0 Cn1 Cn2 Cn3 Cn4 Cn5). clear Cn0 Cn1 Cn2 Cn3 Cn4 Cn5.
  rewrite D24, <- Hhd in Hu.
  assert (Hmod : int (len d mod 64) = nx d).
  { destruct Hr as [_ Hnx]. unfold chunk in Hnx. rewrite <- Hnx. apply int_small. lia. }
  rewrite Hmod in Hu.
  assert (Hx' : take 64 tail = take (nx d) (x d) ++ make (64 - nx d)).
  { unfold tail. rewrite app_assoc.
    rewrite take_app_le by (rewrite Zlength_app, Hp, Zlength_make; lia).
    apply take_all. rewrite Zlength_app, Hp, Zlength_make; lia. }
  rewrite Hx' in Hu.
  eexists b, _. split; [exact Hm|]. split; [exact Hb|]. split; [exact Hu|].
  cbn [h len nx x].
  assert (Hpend : take (nx d) (take (nx d) (x d) ++ make (64 - nx d)) = take (nx d) (x d)).
  { rewrite take_app_le by lia. apply take_all. lia. }
  do 4 (split; [first [reflexivity | exact Hpend]|]).
  intros p input. rewrite !value_bind, !Write_written. cbn [fst].
  set (d' := mkDigest _ _ _ _).
  assert (Hd' : buffered d').
  { split; [|exact (proj2 Hr)]. unfold d', chunk. cbn [x].
    rewrite Zlength_app, Hp, Zlength_make; lia. }
  apply digest_Sum_same; try (apply buffered_written; assumption).
  apply written_same; try assumption.
  repeat split. exact Hpend.
Qed.

(** [UnmarshalBinary] returns on every input and takes exactly the
    96-byte inputs that begin with the magic string.  It leaves the
    receiver as it was when it refuses; a state it takes is consistent,
    whatever bytes it was made of, so that [Sum] returns on it. *)
Theorem UnmarshalBinary_checks (block : list Z -> list byte -> list Z)
    (d : digest) (b : list byte) :
  Zlength (h d) = 5 -> Zlength (x d) = chunk ->
  exists d' e,
    value (UnmarshalBinary d b) = Ret (d', e) /\
    (take 4 b <> magic ->
       e = Some (errors_New "crypto/sha1: invalid hash state identifier") /\ d' = d) /\
    (take 4 b = magic -> Zlength b <> marshaledSize ->
       e = Some (errors_New "crypto/sha1: invalid hash state size") /\ d' = d) /\
    (take 4 b = magic -> Zlength b = marshaledSize ->
       e = None /\ wellTyped d' /\ nx d' = len d' mod chunk /\
       exists sum, value (digest_Sum block d' []) = Ret sum /\ Zlength sum = Size).
Proof.
  intros Hh Hx. unfold chunk in *.
  destruct (list_eq_dec Byte.byte_eq_dec (take 4 b) magic) as [Hm|Hm].
  - destruct (Z.eq_dec (Zlength b) marshaledSize) as [Hb|Hb].
    + change marshaledSize with 96 in Hb.
      destruct (consumeUint32_value (drop 4 b)) as (v0 & Cn0 & R0);
        [rewrite Zlength_drop; lia|].
      destruct (consumeUint32_value (drop 8 b)) as (v1 & Cn1 & R1);
        [rewrite Zlength_drop; lia|].
      destruct (consumeUint32_value (drop 12 b)) as (v2 & Cn2 & R2);
        [rewrite Zlength_drop; lia|].
      destruct (consumeUint32_value (drop 16 b)) as (v3 & Cn3 & R3);
        [rewrite Zlength_drop; lia|].
      destruct (consumeUint32_value (drop 20 b)) as (v4 & Cn4 & R4);
        [rewrite Zlength_drop; lia|].
      destruct (consumeUint64_value (drop 88 b)) as (l & Cn5 & R5);
        [rewrite Zlength_drop; lia|].
      rewrite drop_drop in Cn0, Cn1, Cn2, Cn3, Cn4, Cn5 by lia.
      cbn [Z.add Pos.add Pos.succ] in Cn0, Cn1, Cn2, Cn3, Cn4, Cn5.
      pose proof (UnmarshalBinary_value d b v0 v1 v2 v3 v4 l Hm Hb Hh Hx Cn0 Cn1 Cn2 Cn3 Cn4 Cn5)
        as Hu.
      assert (Hl : 0 <= l mod 64 < 64) by (apply Z.mod_pos_bound; lia).
      rewrite int_small in Hu by lia.
      eexists _, _. split; [exact Hu|].
      split; [intros Hne; contradiction|]. split; [intros _ Hne; contradiction|].
      intros _ _. split; [reflexivity|].
      assert (Hxl : Zlength (take 64 (drop 24 b)) = 64).
      { apply Zlength_take. rewrite Zlength_drop; lia. }
      split; [|split; [reflexivity|]].
      * unfold wellTyped. cbn [h x len]. split; [reflexivity|].
        split; [repeat constructor; lia|]. split; [exact Hxl | exact R5].
      * assert (Hbuf : buffered (mkDigest [v0; v1; v2; v3; v4] (take 64 (drop 24 b))
                                   (l mod 64) l)) by (split; [exact Hxl | reflexivity]).
        destruct (checkSum_buffered block _ Hbuf) as (d2 & sum & Hc & _ & Hs).
        exists sum. unfold digest_Sum. rewrite value_bind, Hc. split; [reflexivity | exact Hs].
    + exists d, (Some (errors_New "crypto/sha1: invalid hash state size")).
      split.
      * unfold UnmarshalBinary. change (Zlength magic) with 4. rewrite Hm.
        change (bytes_eqb magic magic) with true.
        assert (H4 : (Zlength b <? 4) = false).
        { apply Z.ltb_ge. destruct (Z.lt_ge_cases (Zlength b) 4) as [Hlt|]; [|assumption].
          rewrite take_all in Hm by lia. rewrite Hm in Hlt. cbn in Hlt. lia. }
        rewrite H4. cbn [orb negb].
        destruct (Z.eqb_spec (Zlength b) marshaledSize); [contradiction | reflexivity].
      * split; [intros Hne; contradiction|].
        split; [intros _ _; split; reflexivity | intros _ He; contradiction].
  - exists d, (Some (errors_New "crypto/sha1: invalid hash state identifier")).
    split.
    + unfold UnmarshalBinary. change (Zlength magic) with 4.
      destruct (bytes_eqb (take 4 b) magic) eqn:Eb.
      * apply bytes_eqb_eq in Eb. contradiction.
      * rewrite orb_true_r. reflexivity.
    + split; [intros _; split; reflexivity|].
      split; intros He; contradiction.
Qed.

(** *** The theorems at small compression functions *)

Lemma absorb_nil (hs : list Z) : Toy.absorb hs [] = hs.
Proof. reflexivity. Qed.

Lemma absorb_app (hs : list Z) (a b : list byte) :
  Zlength a mod 64 = 0 -> Toy.absorb hs (a ++ b) = Toy.absorb (Toy.absorb hs a) b.
Proof. intros _. unfold Toy.absorb. apply fold_left_app. Qed.

Lemma digestAfterAbc_reachable (block : list Z -> list byte -> list Z) :
  reachable block Toy.digestAfterAbc.
Proof.
  apply (reach_Write block (Reset zero) Toy.abc (Toy.digestAfterAbc, 3, None)).
  - apply reach_Reset. reflexivity.
  - vm_compute. reflexivity.
Qed.

Lemma digestAfterAbc_wellTyped : wellTyped Toy.digestAfterAbc.
Proof.
  assert (E : Toy.digestAfterAbc
              = mkDigest [init0; init1; init2; init3; init4]
                  (Toy.abc ++ make 61) 3 3) by (vm_compute; reflexivity).
  rewrite E. unfold wellTyped, init0, init1, init2, init3, init4. cbn [h x len].
  split; [reflexivity|]. split; [repeat constructor; lia|].
  split; [reflexivity | lia].
Qed.

Lemma ConstantTimeSum_is_Sum_witness :
  reachable Toy.block Toy.digestAfterAbc /\
  value (digest_Sum Toy.block Toy.digestAfterAbc [])
  = Ret (ConstantTimeSum Toy.block Toy.digestAfterAbc []).
Proof.
  pose proof (digestAfterAbc_reachable Toy.block) as H.
  split; [exact H | exact (ConstantTimeSum_is_Sum Toy.block _ [] H)].
Defined.

Lemma Reset_hashes_afresh_witness :
  Zlength (x Toy.digestAfterAbc) = chunk /\
  value (r <- Write Toy.block (Reset Toy.digestAfterAbc) Toy.abc ;;
         digest_Sum Toy.block (fst (fst r)) [])
  = match value (Sum Toy.block Toy.abc) with
    | Ret sum => Ret ([] ++ sum)
    | Panic msg => Panic msg
    end.
Proof.
  assert (H : Zlength (x Toy.digestAfterAbc) = chunk) by (vm_compute; reflexivity).
  split; [exact H | exact (Reset_hashes_afresh Toy.block _ Toy.abc [] H)].
Defined.

Lemma Write_in_pieces_witness :
  (forall hs, Toy.absorb hs [] = hs) /\
  (forall hs a b, Zlength a mod 64 = 0 ->
     Toy.absorb hs (a ++ b) = Toy.absorb (Toy.absorb hs a) b) /\
  reachable Toy.absorb Toy.digestAfterAbc /\
  value (r <- Write Toy.absorb Toy.digestAfterAbc Toy.abc ;;
         r <- Write Toy.absorb (fst (fst r)) Toy.abc ;;
         digest_Sum Toy.absorb (fst (fst r)) [])
  = value (r <- Write Toy.absorb Toy.digestAfterAbc (Toy.abc ++ Toy.abc) ;;
           digest_Sum Toy.absorb (fst (fst r)) []).
Proof.
  pose proof (digestAfterAbc_reachable Toy.absorb) as H.
  split; [exact absorb_nil|]. split; [exact absorb_app|]. split; [exact H|].
  exact (Write_in_pieces Toy.absorb absorb_nil absorb_app _ Toy.abc Toy.abc [] H).
Defined.

Lemma MarshalBinary_UnmarshalBinary_witness :
  reachable Toy.block Toy.digestAfterAbc /\ wellTyped Toy.digestAfterAbc /\
  Zlength (h zero) = 5 /\ Zlength (x zero) = chunk /\
  exists b d',
    value (MarshalBinary Toy.digestAfterAbc) = Ret (b, None) /\
    value (UnmarshalBinary zero b) = Ret (d', None) /\
    h d' = h Toy.digestAfterAbc /\ len d' = len Toy.digestAfterAbc.
Proof.
  pose proof (digestAfterAbc_reachable Toy.block) as H1.
  pose proof digestAfterAbc_wellTyped as H2.
  assert (H3 : Zlength (h zero) = 5) by reflexivity.
  assert (H4 : Zlength (x zero) = chunk) by reflexivity.
  split; [exact H1|]. split; [exact H2|]. split; [exact H3|]. split; [exact H4|].
  destruct (MarshalBinary_UnmarshalBinary Toy.block Toy.digestAfterAbc zero H1 H2 H3 H4)
    as (b & d' & Hm & _ & Hu & Hh & Hl & _).
  exists b, d'. repeat split; assumption.
Defined.

Lemma UnmarshalBinary_checks_witness :
  Zlength (h zero) = 5 /\ Zlength (x zero) = chunk /\
  exists d',
    value (UnmarshalBinary zero Toy.marshalled) = Ret (d', None) /\ wellTyped d'.
Proof.
  assert (H1 : Zlength (h zero) = 5) by reflexivity.
  assert (H2 : Zlength (x zero) = chunk) by reflexivity.
  split; [exact H1|]. split; [exact H2|].
  destruct (UnmarshalBinary_checks Toy.block zero Toy.marshalled H1 H2)
    as (d' & e & Hv & _ & _ & Hok).
  destruct (Hok eq_refl eq_refl) as (He & Hw & _).
  exists d'. rewrite He in Hv. split; assumption.
Defined.

End Sha1More.
(* ================================================================== *)
(** * More facts about package packet: serialization *)

Module SerializeMore.
Import packet Spec Sha1Facts PacketFacts.

Section WithCollaborators.
Context {X : Collaborators}.

Ltac run :=
  cbn [bind ret emit println fmt_Println fmt_Printf fmt_Fprintf fst snd value output
       deref panic
       Version CreationTime PubKeyAlgo PublicKey_ Fingerprint KeyId IsSubkey
       n e p q g y oid kdf].

Lemma count_unknown (pk : PublicKey) :
  knownAlgorithm pk = false ->
  algorithmSpecificByteCount pk = panic "unknown public key algorithm".
Proof.
  unfold knownAlgorithm, algorithmSpecificByteCount.
  destruct (switchAlgo (PubKeyAlgo pk)); try discriminate. reflexivity.
Qed.

Lemma SerializeForHash_unknown {W} `{Writer W} (pk : PublicKey) (w : W) :
  knownAlgorithm pk = false ->
  value (SerializeForHash pk w) = Panic "unknown public key algorithm".
Proof.
  intros Hk. unfold SerializeForHash, SerializeSignaturePrefix.
  rewrite (count_unknown pk Hk). reflexivity.
Qed.

(** A key whose algorithm is none of the eight cannot be serialized: the
    byte count panics before anything is written, and with it [Serialize],
    [SerializeForHash], the derivation of the fingerprint, [UpgradeToV5]
    and the hashing of a key signature.  [BitLength] and, on a key that is
    not of version 5, [serializeWithoutHeaders] return the error for a bad
    algorithm instead. *)
Theorem unknown_algorithm_panics {W} `{Writer W} (pk : PublicKey) (w : W) :
  knownAlgorithm pk = false ->
  value (Serialize pk w) = Panic "unknown public key algorithm" /\
  value (SerializeForHash pk w) = Panic "unknown public key algorithm" /\
  value (setFingerprintAndKeyId pk) = Panic "unknown public key algorithm" /\
  value (UpgradeToV5 pk) = Panic "unknown public key algorithm" /\
  (forall signed hashFunc,
     Hash_Available hashFunc = true ->
     value (keySignatureHash pk signed hashFunc) = Panic "unknown public key algorithm") /\
  value (BitLength pk) = Ret (0, Some (InvalidArgumentError "bad public-key algorithm")) /\
  ((Version pk =? 5) = false ->
   exists w', value (serializeWithoutHeaders pk ([] : list byte))
              = Ret (w', Some (InvalidArgumentError "bad public-key algorithm"))).
Proof.
  intros Hk. pose proof (count_unknown pk Hk) as Hc.
  split; [unfold Serialize; rewrite Hc; reflexivity|].
  split; [apply SerializeForHash_unknown; exact Hk|].
  assert (Hset : forall pk0, knownAlgorithm pk0 = false ->
            value (setFingerprintAndKeyId pk0) = Panic "unknown public key algorithm").
  { intros pk0 Hk0. unfold setFingerprintAndKeyId. rewrite value_bind.
    destruct (Version pk0 =? 5); rewrite value_bind, (SerializeForHash_unknown pk0 _ Hk0);
      reflexivity. }
  split; [apply Hset; exact Hk|].
  split; [apply Hset; exact Hk|].
  split.
  - intros signed hashFunc Ha. unfold keySignatureHash, sha1.New, debug_PrintStack.
    rewrite Ha. cbn [negb].
    destruct (hashFunc =? crypto_SHA1); [|destruct (hashFunc =? crypto_SHA256);
      [|destruct (hashFunc =? crypto_SHA512)]];
      repeat (first [rewrite value_bind | rewrite fst_bind]; run);
      match goal with
      | |- context [fst (SerializeForHash pk ?h0)] =>
          rewrite (SerializeForHash_unknown pk h0 Hk : fst (SerializeForHash pk h0) = _)
      end; reflexivity.
  - split.
    + unfold BitLength. unfold knownAlgorithm in Hk.
      destruct (switchAlgo (PubKeyAlgo pk)); try discriminate. reflexivity.
    + intros H5. unfold serializeWithoutHeaders. rewrite H5.
      unfold knownAlgorithm in Hk.
      destruct (switchAlgo (PubKeyAlgo pk)); try discriminate.
      eexists. reflexivity.
Qed.

End WithCollaborators.
#[local] Existing Instance Toy.collaborators.

Lemma unknown_algorithm_panics_witness :
  knownAlgorithm zeroPublicKey = false /\
  value (Serialize zeroPublicKey ([] : list byte)) = Panic "unknown public key algorithm" /\
  value (setFingerprintAndKeyId zeroPublicKey) = Panic "unknown public key algorithm" /\
  value (BitLength zeroPublicKey)
  = Ret (0, Some (InvalidArgumentError "bad public-key algorithm")).
Proof.
  assert (H : knownAlgorithm zeroPublicKey = false) by reflexivity.
  destruct (unknown_algorithm_panics zeroPublicKey ([] : list byte) H)
    as (H1 & _ & H3 & _ & _ & H6 & _).
  split; [exact H|]. split; [exact H1|]. split; [exact H3 | exact H6].
Defined.

End SerializeMore.
(* ================================================================== *)
(** * More facts about package packet: signature verification *)

Module VerifyMore.
Import packet Spec Sha1Facts PacketFacts.

Lemma value_println (args : list arg) : value (println args) = Ret tt.
Proof. reflexivity. Qed.

Lemma value_fmt_Println (args : list arg) : value (fmt_Println args) = Ret tt.
Proof. reflexivity. Qed.

Lemma value_fmt_Printf (format : string) (args : list arg) :
  value (fmt_Printf format args) = Ret tt.
Proof. reflexivity. Qed.

Lemma value_fmt_Fprintf (to : stream) (format : string) (args : list arg) :
  value (fmt_Fprintf to format args) = Ret tt.
Proof. reflexivity. Qed.

Lemma value_PrintStack : value debug_PrintStack = Ret tt.
Proof. reflexivity. Qed.

Lemma value_ret {A} (a : A) : value (ret a) = Ret a.
Proof. reflexivity. Qed.

Lemma value_panic {A} (msg : string) : value (@panic A msg) = Panic msg.
Proof. reflexivity. Qed.

(** One step of a computation, on its value alone. *)
Ltac vstep :=
  rewrite ?value_bind;
  rewrite ?value_println, ?value_fmt_Println, ?value_fmt_Printf, ?value_fmt_Fprintf,
    ?value_PrintStack, ?value_ret, ?value_panic;
  cbv beta iota; cbn [fst snd].

Ltac vstep_in H :=
  rewrite ?value_bind in H;
  rewrite ?value_println, ?value_fmt_Println, ?value_fmt_Printf, ?value_fmt_Fprintf,
    ?value_PrintStack, ?value_ret, ?value_panic in H;
  cbv beta iota in H; cbn [fst snd] in H.

Section WithCollaborators.
Context {X : Collaborators}.


Lemma eddsaSignature_copy (sigR sigS : list byte) :
  Zlength sigR <= 32 -> Zlength sigS <= 64 ->
  fst (copy (fst (copy (take 32 (make ed25519_SignatureSize)
                        ++ drop 32 (make ed25519_SignatureSize))
                       (32 - Zlength sigR) (take (Zlength sigR) sigR)))
            (64 - Zlength sigS) sigS)
  = eddsaSignature sigR sigS.
Proof.
  intros HR HS. pose proof (Zlength_nonneg sigR). pose proof (Zlength_nonneg sigS).
  unfold eddsaSignature, copy, ed25519_SignatureSize. cbn [fst].
  rewrite (take_all (Zlength sigR) sigR) by lia.
  change (take 32 (make 64) ++ drop 32 (make 64)) with (make 64).
  set (s1 := take (32 - Zlength sigR) (make 64) ++ _).
  assert (Hs1 : s1 = make (32 - Zlength sigR) ++ sigR ++ make 32).
  { unfold s1. rewrite Zlength_make by lia.
    rewrite Z.min_r by lia. rewrite (take_all (Zlength sigR) sigR) by lia.
    f_equal.
    - apply take_make. lia.
    - f_equal. replace (32 - Zlength sigR + Zlength sigR) with 32 by lia. reflexivity. }
  rewrite Hs1.
  assert (Hl : Zlength (make (32 - Zlength sigR) ++ sigR ++ make 32) = 64).
  { rewrite !Zlength_app, !Zlength_make by lia. lia. }
  rewrite Hl. rewrite Z.min_r by lia. rewrite (take_all (Zlength sigS) sigS) by lia.
  replace (64 - Zlength sigS + Zlength sigS) with 64 by lia.
  rewrite (drop_all 64) by lia. rewrite app_nil_r. reflexivity.
Qed.

(** [VerifySignature] returns nil only if the key can sign, the algorithm
    of the signature is the key's, the first two bytes of the digest of
    the hash context, as the call leaves it, are the hash tag of the
    signature, and the primitive of that algorithm accepted the digest. *)
Theorem VerifySignature_accepts_only (pk : PublicKey) (signed h' : hashCtx)
    (sig sig' : Signature) :
  value (VerifySignature pk signed sig) = Ret (h', sig', None) ->
  CanSign pk = true /\
  PubKeyAlgo pk = sig_PubKeyAlgo sig' /\
  exists hb0 hb1 rest,
    value (hash_Sum h') = Ret (hb0 :: hb1 :: rest) /\
    HashTag sig' = (hb0, hb1) /\
    accepted pk sig' (hb0 :: hb1 :: rest).
Proof.
  unfold VerifySignature.
  set (sigX := if (sig_Version sig =? 5) && ((SigType sig =? 0) || (SigType sig =? 1))
               then AddMetadataToHashSuffix sig else sig).
  intros H. repeat vstep_in H.
  destruct (CanSign pk) eqn:Ecs; cbn [negb] in H; repeat vstep_in H; [|discriminate].
  split; [reflexivity|].
  destruct (value (Write signed (HashSuffix sigX))) as [[h1 e1]|] eqn:Ew; [|discriminate].
  repeat vstep_in H.
  destruct (value (hash_Sum h1)) as [hashBytes|] eqn:Es; [|discriminate].
  destruct hashBytes as [|hb0 [|hb1 hbs]]; repeat vstep_in H; try discriminate.
  destruct (Byte.eqb hb0 (fst (HashTag sigX))) eqn:T0; cbn [negb orb] in H;
    repeat vstep_in H; [|discriminate].
  destruct (Byte.eqb hb1 (snd (HashTag sigX))) eqn:T1; cbn [negb orb] in H;
    repeat vstep_in H; [|discriminate].
  apply Byte.byte_dec_bl in T0, T1.
  destruct (Z.eqb_spec (PubKeyAlgo pk) (sig_PubKeyAlgo sigX)) as [Ealg|]; cbn [negb] in H;
    repeat vstep_in H; [|discriminate].
  assert (Htag : HashTag sigX = (hb0, hb1)).
  { destruct (HashTag sigX). cbn in T0, T1. congruence. }
  assert (Hend : forall P : Prop,
            (h' = h1 -> sig' = sigX -> P) ->
            Ret (h1, sigX, @None err) = Ret (h', sig', None) -> P).
  { intros P HP E. injection E as <- <-. apply HP; reflexivity. }
  assert (Hgoal : accepted pk sigX (hb0 :: hb1 :: hbs) ->
            h' = h1 -> sig' = sigX ->
            PubKeyAlgo pk = sig_PubKeyAlgo sig' /\
            exists hb2 hb3 rest,
              value (hash_Sum h') = Ret (hb2 :: hb3 :: rest) /\
              HashTag sig' = (hb2, hb3) /\ accepted pk sig' (hb2 :: hb3 :: rest)).
  { intros Ha -> ->. split; [exact Ealg|]. exists hb0, hb1, hbs. repeat split; assumption. }
  destruct ((PubKeyAlgo pk =? PubKeyAlgoRSA) || (PubKeyAlgo pk =? PubKeyAlgoRSASignOnly))
    eqn:ERSA.
  { repeat vstep_in H.
    destruct (RSASignature sigX) as [s|] eqn:Esig; cbn [deref] in H; repeat vstep_in H;
      [|discriminate].
    destruct (PublicKey_ pk) as [|k|k|k|k|k|k] eqn:EPK; try discriminate.
    destruct (rsa_VerifyPKCS1v15 k (Hash sigX) (hb0 :: hb1 :: hbs)
                (padToKeySize k (Bytes s))) eqn:Ev; repeat vstep_in H; [discriminate|].
    revert H. apply Hend. apply Hgoal. unfold accepted. rewrite EPK. split.
    - apply orb_prop in ERSA as [E|E]; apply Z.eqb_eq in E; [left | right]; exact E.
    - exists s. split; [exact Esig | exact Ev]. }
  destruct (Z.eqb_spec (PubKeyAlgo pk) PubKeyAlgoDSA) as [EDSA|_].
  { destruct (PublicKey_ pk) as [|k|k|k|k|k|k] eqn:EPK; try discriminate.
    destruct (DSASigR sigX) as [r|] eqn:Er; cbn [deref] in H; repeat vstep_in H;
      [|discriminate].
    destruct (DSASigS sigX) as [s|] eqn:Esg; cbn [deref] in H; repeat vstep_in H;
      [|discriminate].
    match type of H with
    | context [dsa_Verify k ?hb ?a ?b] => destruct (dsa_Verify k hb a b) eqn:Ev
    end; cbn [negb] in H; repeat vstep_in H; [|discriminate].
    revert H. apply Hend. apply Hgoal. unfold accepted. rewrite EPK.
    split; [exact EDSA|]. exists r, s. split; [exact Er|]. split; [exact Esg|].
    rewrite <- Ev. f_equal.
    destruct (Z.ltb_spec ((BitLen (dsa_Q k) + 7) / 8) (Zlength (hb0 :: hb1 :: hbs)));
      [reflexivity|]. apply take_all. assumption. }
  destruct (Z.eqb_spec (PubKeyAlgo pk) PubKeyAlgoECDSA) as [EECDSA|_].
  { destruct (PublicKey_ pk) as [|k|k|k|k|k|k] eqn:EPK; try discriminate.
    destruct (ECDSASigR sigX) as [r|] eqn:Er; cbn [deref] in H; repeat vstep_in H;
      [|discriminate].
    destruct (ECDSASigS sigX) as [s|] eqn:Esg; cbn [deref] in H; repeat vstep_in H;
      [|discriminate].
    match type of H with
    | context [ecdsa_Verify k ?hb ?a ?b] => destruct (ecdsa_Verify k hb a b) eqn:Ev
    end; cbn [negb] in H; repeat vstep_in H; [|discriminate].
    revert H. apply Hend. apply Hgoal. unfold accepted. rewrite EPK.
    split; [exact EECDSA|]. exists r, s. repeat split; assumption. }
  destruct (Z.eqb_spec (PubKeyAlgo pk) PubKeyAlgoEdDSA) as [EEdDSA|_]; [|discriminate].
  destruct (PublicKey_ pk) as [|k|k|k|k|k|k] eqn:EPK; try discriminate.
  destruct (EdDSASigR sigX) as [r|] eqn:Er; cbn [deref] in H; repeat vstep_in H;
    [|discriminate].
  destruct (EdDSASigS sigX) as [s|] eqn:Esg; cbn [deref] in H; repeat vstep_in H;
    [|discriminate].
  destruct (Z.ltb_spec 32 (Zlength (Bytes r))) as [|HR]; [discriminate|].
  destruct (Z.ltb_spec 64 (Zlength (Bytes s))) as [|HS]; [discriminate|].
  cbv zeta in H. rewrite eddsaSignature_copy in H by assumption.
  destruct (ed25519_Verify k (hb0 :: hb1 :: hbs) (eddsaSignature (Bytes r) (Bytes s)))
    eqn:Ev; cbn [negb] in H; repeat vstep_in H; [|discriminate].
  revert H. apply Hend. apply Hgoal. unfold accepted. rewrite EPK.
  split; [exact EEdDSA|]. exists r, s. repeat split; assumption.
Qed.

Lemma byte_eqb_refl (b : byte) : Byte.eqb b b = true.
Proof. apply Byte.byte_dec_lb. reflexivity. Qed.

Lemma AddMetadata_keeps (sig : Signature) (b : bool) :
  let sig1 := if b then AddMetadataToHashSuffix sig else sig in
  sig_PubKeyAlgo sig1 = sig_PubKeyAlgo sig /\ HashTag sig1 = HashTag sig /\
  EdDSASigR sig1 = EdDSASigR sig /\ EdDSASigS sig1 = EdDSASigS sig.
Proof. destruct b, sig; repeat split. Qed.

(** An EdDSA signature whose R has more than 32 bytes, or whose S has more
    than 64, makes [VerifySignature] panic once the hash tag and the
    algorithm have passed: the slice the value is copied into has a
    negative bound. *)
Theorem VerifySignature_EdDSA_oversized (pk : PublicKey) (signed h1 : hashCtx)
    (sig : Signature) (k : list byte) (r s : Field) (e1 : error) (rest : list byte) :
  PubKeyAlgo pk = PubKeyAlgoEdDSA -> sig_PubKeyAlgo sig = PubKeyAlgoEdDSA ->
  PublicKey_ pk = EdDSAKey k ->
  EdDSASigR sig = Some r -> EdDSASigS sig = Some s ->
  let sig1 := if isDocument sig then AddMetadataToHashSuffix sig else sig in
  value (Write signed (HashSuffix sig1)) = Ret (h1, e1) ->
  value (hash_Sum h1) = Ret (fst (HashTag sig) :: snd (HashTag sig) :: rest) ->
  32 < Zlength (Bytes r) \/ 64 < Zlength (Bytes s) ->
  value (VerifySignature pk signed sig) = Panic "slice bounds out of range".
Proof.
  intros Hpk Hsig HK HR HS sig1 Hw Hsum Hlong.
  unfold VerifySignature.
  change (if (sig_Version sig =? 5) && ((SigType sig =? 0) || (SigType sig =? 1))
          then AddMetadataToHashSuffix sig else sig) with sig1.
  destruct (AddMetadata_keeps sig (isDocument sig)) as (K1 & K2 & K3 & K4).
  fold sig1 in K1, K2, K3, K4.
  assert (Hcs : CanSign pk = true) by (unfold CanSign; rewrite Hpk; reflexivity).
  repeat vstep. rewrite Hcs. cbn [negb]. repeat vstep.
  rewrite Hw. repeat vstep. rewrite Hsum. repeat vstep.
  rewrite K2, !byte_eqb_refl. cbn [negb orb]. repeat vstep.
  rewrite K1, Hpk, Hsig, HK, K3, HR, K4, HS.
  change (PubKeyAlgoEdDSA =? PubKeyAlgoEdDSA) with true.
  change (PubKeyAlgoEdDSA =? PubKeyAlgoRSA) with false.
  change (PubKeyAlgoEdDSA =? PubKeyAlgoRSASignOnly) with false.
  change (PubKeyAlgoEdDSA =? PubKeyAlgoDSA) with false.
  change (PubKeyAlgoEdDSA =? PubKeyAlgoECDSA) with false.
  cbn [negb orb deref]. repeat vstep. cbv zeta.
  destruct (Z.ltb_spec 32 (Zlength (Bytes r))) as [|HR32]; [reflexivity|].
  destruct (Z.ltb_spec 64 (Zlength (Bytes s))) as [|HS64]; [reflexivity|].
  lia.
Qed.

End WithCollaborators.
#[local] Existing Instance Toy.collaborators.

Lemma VerifySignature_accepts_only_witness :
  value (VerifySignature Toy.rsaKey4 (ExtCtx crypto_SHA256 []) Toy.rsaSig)
  = Ret (ExtCtx crypto_SHA256 [u8 1; u8 2; u8 3], Toy.rsaSig, None) /\
  CanSign Toy.rsaKey4 = true /\
  PubKeyAlgo Toy.rsaKey4 = sig_PubKeyAlgo Toy.rsaSig /\
  exists hb0 hb1 rest,
    value (hash_Sum (ExtCtx crypto_SHA256 [u8 1; u8 2; u8 3])) = Ret (hb0 :: hb1 :: rest) /\
    HashTag Toy.rsaSig = (hb0, hb1) /\
    accepted Toy.rsaKey4 Toy.rsaSig (hb0 :: hb1 :: rest).
Proof.
  assert (H : value (VerifySignature Toy.rsaKey4 (ExtCtx crypto_SHA256 []) Toy.rsaSig)
              = Ret (ExtCtx crypto_SHA256 [u8 1; u8 2; u8 3], Toy.rsaSig, None))
    by (vm_compute; reflexivity).
  split; [exact H | exact (VerifySignature_accepts_only _ _ _ _ _ H)].
Defined.

Lemma VerifySignature_EdDSA_oversized_witness :
  32 < Zlength (Bytes (MPI 264 (make 33))) /\
  value (VerifySignature Toy.eddsaKey (ExtCtx crypto_SHA256 []) Toy.oversizedSig)
  = Panic "slice bounds out of range".
Proof.
  assert (H : 32 < Zlength (Bytes (MPI 264 (make 33)))) by (vm_compute; reflexivity).
  split; [exact H|].
  exact (VerifySignature_EdDSA_oversized Toy.eddsaKey (ExtCtx crypto_SHA256 [])
           (ExtCtx crypto_SHA256 [u8 1; u8 2; u8 3]) Toy.oversizedSig
           (make 32) (MPI 264 (make 33)) (MPI 1 [x01]) None []
           eq_refl eq_refl eq_refl eq_refl eq_refl eq_refl eq_refl (or_introl H)).
Defined.

End VerifyMore.
(* ================================================================== *)
(** * More facts about package packet: the signatures over keys *)

Module KeySignatures.
Import packet Spec Sha1Facts PacketFacts VerifyMore.

Section WithCollaborators.
Context {X : Collaborators}.

(** [SerializeForHash] is the prefix followed by the body. *)
Lemma SerializeForHash_split {W} `{Writer W} (pk : PublicKey) (w : W) (res : W * error) :
  value (SerializeForHash pk w) = Ret res ->
  exists w1, value (SerializeSignaturePrefix pk w) = Ret w1 /\
             value (serializeWithoutHeaders pk w1) = Ret res.
Proof.
  unfold SerializeForHash. intros Hv. vstep_in Hv.
  destruct (value (SerializeSignaturePrefix pk w)) as [w1|] eqn:E; [|discriminate].
  vstep_in Hv. exists w1. split; [reflexivity | exact Hv].
Qed.

(** A write into a hash context returns, without an error. *)
Lemma hash_Write_returns (h0 : hashCtx) (b : list byte) :
  exists h1, value (Write h0 b) = Ret (h1, None).
Proof.
  destruct h0 as [d|f w]; cbn [Write hashCtx_Writer hash_Write].
  - rewrite value_bind, Sha1More.Write_written. eexists. reflexivity.
  - eexists. reflexivity.
Qed.

Ltac write_steps :=
  repeat first
    [ progress vstep
    | match goal with
      | |- context [value (Write ?w ?b)] =>
          let w' := fresh "w" in
          let Hw := fresh "Hw" in
          destruct (hash_Write_returns w b) as (w' & Hw); rewrite Hw; clear Hw
      end ].

Lemma SerializeForHash_hash_returns (pk : PublicKey) (h0 : hashCtx) :
  fieldsPresent pk = true ->
  exists h1, value (SerializeForHash pk h0) = Ret (h1, None).
Proof.
  unfold fieldsPresent, knownAlgorithm, declaredFields.
  unfold SerializeForHash, SerializeSignaturePrefix, serializeWithoutHeaders,
    algorithmSpecificByteCount.
  destruct pk as [v t a k fpr kid sub fn fe fp' fq fg fy foid fkdf].
  cbn [Version CreationTime PubKeyAlgo PublicKey_ Fingerprint KeyId IsSubkey
       n e p q g y oid kdf].
  destruct (switchAlgo a) eqn:Ea; cbn [forallb andb]; try discriminate;
    repeat match goal with
    | |- context [match ?f with Some _ => _ | None => _ end] =>
        is_var f; destruct f; try discriminate
    end;
    intros _; cbn [deref]; destruct (v =? 5); write_steps; eexists; reflexivity.
Qed.

(** *** The hash contexts of the key signatures *)

Lemma new_context_returns (hashFunc : Z) :
  exists h0,
    value (if hashFunc =? crypto_SHA1 then d <- sha1.New ;; ret (Sha1Ctx d)
           else if hashFunc =? crypto_SHA256 then ret (ExtCtx crypto_SHA256 [])
           else if hashFunc =? crypto_SHA512 then ret (ExtCtx crypto_SHA512 [])
           else ret (ExtCtx hashFunc [])) = Ret h0.
Proof.
  destruct (hashFunc =? crypto_SHA1); [|destruct (hashFunc =? crypto_SHA256);
    [|destruct (hashFunc =? crypto_SHA512)]]; eexists; reflexivity.
Qed.

Lemma keySignatureHash_returns (pk signed : PublicKey) (hashFunc : Z) :
  Hash_Available hashFunc = true ->
  fieldsPresent pk = true -> fieldsPresent signed = true ->
  exists h1, value (keySignatureHash pk signed hashFunc) = Ret (Some h1, None).
Proof.
  intros Ha Hp Hs. unfold keySignatureHash. rewrite Ha. cbn [negb].
  repeat vstep.
  destruct (new_context_returns hashFunc) as (h0 & ->). vstep.
  destruct (SerializeForHash_hash_returns pk h0 Hp) as (h1 & ->). repeat vstep.
  destruct (SerializeForHash_hash_returns signed h1 Hs) as (h2 & ->). repeat vstep.
  eexists. reflexivity.
Qed.

Lemma keyRevocationHash_returns (pk : PublicKey) (hashFunc : Z) :
  Hash_Available hashFunc = true -> fieldsPresent pk = true ->
  exists h1, value (keyRevocationHash pk hashFunc) = Ret (Some h1, None).
Proof.
  intros Ha Hp. unfold keyRevocationHash, crypto_New. rewrite Ha. cbn [negb].
  assert (H0 : exists h0, value (if hashFunc =? crypto_SHA1
                                 then d <- sha1.New ;; ret (Sha1Ctx d)
                                 else ret (ExtCtx hashFunc [])) = Ret h0)
    by (destruct (hashFunc =? crypto_SHA1); eexists; reflexivity).
  destruct H0 as (h0 & H0). vstep. rewrite H0. vstep.
  destruct (SerializeForHash_hash_returns pk h0 Hp) as (h1 & ->). repeat vstep.
  eexists. reflexivity.
Qed.

Lemma userIdSignatureHash_returns (id : list byte) (pk : PublicKey) (hashFunc : Z) :
  Hash_Available hashFunc = true -> fieldsPresent pk = true ->
  exists h1, value (userIdSignatureHash id pk hashFunc) = Ret (Some h1, None).
Proof.
  intros Ha Hp. unfold userIdSignatureHash. rewrite Ha. cbn [negb].
  destruct (new_context_returns hashFunc) as (h0 & H0). vstep. rewrite H0. vstep.
  destruct (SerializeForHash_hash_returns pk h0 Hp) as (h1 & Hs).
  destruct (SerializeForHash_split pk h0 _ Hs) as (w1 & Hpre & Hbody).
  rewrite Hpre. vstep. rewrite Hbody. write_steps. eexists. reflexivity.
Qed.

Lemma VerifySignature_cannot_sign (pk : PublicKey) (signed : hashCtx) (sig : Signature) :
  CanSign pk = false ->
  value (VerifySignature pk signed sig)
  = Ret (signed, sig, Some (InvalidArgumentError "public key cannot generate signatures")).
Proof.
  intros Hc. unfold VerifySignature. vstep. rewrite Hc. reflexivity.
Qed.

(** A key that cannot sign (RSA encrypt-only, ElGamal, ECDH) verifies
    nothing: every entry point returns the same invalid-argument error,
    whatever the signature says and whatever the primitives would answer,
    and hands the signature back as it was. *)
Theorem keys_that_cannot_sign_verify_nothing (pk : PublicKey) :
  CanSign pk = false ->
  let refused := Some (InvalidArgumentError "public key cannot generate signatures") in
  (forall signed sig,
     value (VerifySignature pk signed sig) = Ret (signed, sig, refused)) /\
  (forall signed sig,
     Hash_Available (Hash sig) = true ->
     fieldsPresent pk = true -> fieldsPresent signed = true ->
     value (VerifyKeySignature pk signed sig) = Ret (sig, refused)) /\
  (forall sig,
     Hash_Available (Hash sig) = true -> fieldsPresent pk = true ->
     value (VerifyRevocationSignature pk sig) = Ret (sig, refused)) /\
  (forall subkey sig,
     Hash_Available (Hash sig) = true -> fieldsPresent subkey = true ->
     value (VerifySubkeyRevocationSignature subkey sig pk) = Ret (sig, refused)) /\
  (forall id pub sig,
     Hash_Available (Hash sig) = true -> fieldsPresent pub = true ->
     value (VerifyUserIdSignature pk id pub sig) = Ret (sig, refused)).
Proof.
  intros Hc refused. split; [intros; apply VerifySignature_cannot_sign; exact Hc|].
  split; [|split; [|split]].
  - intros signed sig Ha Hp Hs. unfold VerifyKeySignature. vstep.
    destruct (keySignatureHash_returns pk signed (Hash sig) Ha Hp Hs) as (h1 & ->).
    repeat vstep. rewrite (VerifySignature_cannot_sign pk h1 sig Hc). repeat vstep.
    reflexivity.
  - intros sig Ha Hp. unfold VerifyRevocationSignature. vstep.
    destruct (keyRevocationHash_returns pk (Hash sig) Ha Hp) as (h1 & ->).
    repeat vstep. rewrite (VerifySignature_cannot_sign pk h1 sig Hc). reflexivity.
  - intros subkey sig Ha Hp. unfold VerifySubkeyRevocationSignature. vstep.
    destruct (keyRevocationHash_returns subkey (Hash sig) Ha Hp) as (h1 & ->).
    repeat vstep. rewrite (VerifySignature_cannot_sign pk h1 sig Hc). reflexivity.
  - intros id pub sig Ha Hp. unfold VerifyUserIdSignature. vstep.
    destruct (userIdSignatureHash_returns id pub (Hash sig) Ha Hp) as (h1 & ->).
    repeat vstep. rewrite (VerifySignature_cannot_sign pk h1 sig Hc). reflexivity.
Qed.

(** *** What the signatures over a key are computed on *)

Lemma new_context_ExtCtx (hashFunc : Z) :
  hashFunc <> crypto_SHA1 ->
  (if hashFunc =? crypto_SHA1 then d <- sha1.New ;; ret (Sha1Ctx d)
   else if hashFunc =? crypto_SHA256 then ret (ExtCtx crypto_SHA256 [])
   else if hashFunc =? crypto_SHA512 then ret (ExtCtx crypto_SHA512 [])
   else ret (ExtCtx hashFunc [])) = ret (ExtCtx hashFunc []).
Proof.
  intros Hn. apply Z.eqb_neq in Hn. rewrite Hn.
  destruct (Z.eqb_spec hashFunc crypto_SHA256) as [->|_]; [reflexivity|].
  destruct (Z.eqb_spec hashFunc crypto_SHA512) as [->|_]; reflexivity.
Qed.

(** What [userIdSignatureHash] feeds a hash context that keeps what it is
    fed, in terms of the bytes [SerializeForHash] writes. *)
Lemma userIdSignatureHash_ExtCtx (pk pub : PublicKey) (id : list byte)
    (sig : Signature) :
  Hash_Available (Hash sig) = true -> Hash sig <> crypto_SHA1 ->
  fieldsPresent pub = true ->
  let h0 := ExtCtx (Hash sig)
              (hashPreimage pub ++ [u8 0xb4] ++ bigEndian 4 (Zlength id) ++ id) in
  value (userIdSignatureHash id pub (Hash sig)) = Ret (Some h0, None) /\
  value (VerifyUserIdSignature pk id pub sig)
  = value (r <- VerifySignature pk h0 sig ;; ret (snd (fst r), snd r)).
Proof.
  intros Ha Hn Hp h0.
  assert (Hh : value (userIdSignatureHash id pub (Hash sig)) = Ret (Some h0, None)).
  { unfold userIdSignatureHash. rewrite Ha. cbn [negb].
    rewrite (new_context_ExtCtx _ Hn). repeat vstep.
    pose proof (SerializeForHash_ExtCtx pub (Hash sig) [] Hp) as Hs.
    destruct (SerializeForHash_split pub _ _ Hs) as (w1 & Hpre & Hbody).
    rewrite Hpre. repeat vstep. rewrite Hbody.
    repeat first [progress vstep | progress cbn [Write hashCtx_Writer hash_Write]].
    unfold h0. rewrite bigEndian_4. cbn [app]. rewrite <- !app_assoc. reflexivity. }
  split; [exact Hh|].
  unfold VerifyUserIdSignature. vstep. rewrite Hh. repeat vstep.
  destruct (value (VerifySignature pk h0 sig)) as [[[h1 sig1] e1]|]; reflexivity.
Qed.

(** The hash of a user id signature over a well-formed key: into a hash
    context that keeps what it is fed go the hash preimage of the key as
    section 4.3 has it (the prefix, then the body), the octet 0xB4, the
    length of the user id as four big-endian octets, and the user id.
    [VerifyUserIdSignature] then is [VerifySignature] of the verifying key
    on that context. *)
Theorem VerifyUserIdSignature_hashes (pk pub : PublicKey) (id : list byte)
    (sig : Signature) :
  Hash_Available (Hash sig) = true -> Hash sig <> crypto_SHA1 ->
  wellFormed pub = true ->
  let h0 := ExtCtx (Hash sig)
              (preimage pub ++ [u8 0xb4] ++ bigEndian 4 (Zlength id) ++ id) in
  value (userIdSignatureHash id pub (Hash sig)) = Ret (Some h0, None) /\
  value (VerifyUserIdSignature pk id pub sig)
  = value (r <- VerifySignature pk h0 sig ;; ret (snd (fst r), snd r)).
Proof.
  intros Ha Hn Hw. rewrite <- (hashPreimage_preimage pub Hw).
  exact (userIdSignatureHash_ExtCtx pk pub id sig Ha Hn (wellFormed_fieldsPresent pub Hw)).
Qed.

(** What [keyRevocationHash] feeds a hash context that keeps what it is
    fed, in terms of the bytes [SerializeForHash] writes. *)
Lemma keyRevocationHash_ExtCtx (pk signingKey : PublicKey) (sig : Signature) :
  Hash_Available (Hash sig) = true -> Hash sig <> crypto_SHA1 ->
  fieldsPresent pk = true ->
  let h0 := ExtCtx (Hash sig) (hashPreimage pk) in
  value (keyRevocationHash pk (Hash sig)) = Ret (Some h0, None) /\
  value (VerifyRevocationSignature pk sig)
  = value (r <- VerifySignature pk h0 sig ;; ret (snd (fst r), snd r)) /\
  value (VerifySubkeyRevocationSignature pk sig signingKey)
  = value (r <- VerifySignature signingKey h0 sig ;; ret (snd (fst r), snd r)).
Proof.
  intros Ha Hn Hp h0.
  assert (Hh : value (keyRevocationHash pk (Hash sig)) = Ret (Some h0, None)).
  { unfold keyRevocationHash, crypto_New. rewrite Ha. cbn [negb].
    apply Z.eqb_neq in Hn. rewrite Hn. repeat vstep.
    rewrite (SerializeForHash_ExtCtx pk (Hash sig) [] Hp). repeat vstep. reflexivity. }
  split; [exact Hh|]. split.
  - unfold VerifyRevocationSignature. vstep. rewrite Hh. repeat vstep.
    destruct (value (VerifySignature pk h0 sig)) as [[[h1 sig1] e1]|]; reflexivity.
  - unfold VerifySubkeyRevocationSignature. vstep. rewrite Hh. repeat vstep.
    destruct (value (VerifySignature signingKey h0 sig)) as [[[h1 sig1] e1]|]; reflexivity.
Qed.

(** The hash of a revocation signature over a well-formed key holds the
    hash preimage of the revoked key as section 4.3 has it (the prefix,
    then the body) and nothing else.  [VerifyRevocationSignature] checks
    the signature against that key itself, [VerifySubkeyRevocationSignature]
    against the signing key it is given. *)
Theorem revocation_signatures_hash (pk signingKey : PublicKey) (sig : Signature) :
  Hash_Available (Hash sig) = true -> Hash sig <> crypto_SHA1 ->
  wellFormed pk = true ->
  let h0 := ExtCtx (Hash sig) (preimage pk) in
  value (keyRevocationHash pk (Hash sig)) = Ret (Some h0, None) /\
  value (VerifyRevocationSignature pk sig)
  = value (r <- VerifySignature pk h0 sig ;; ret (snd (fst r), snd r)) /\
  value (VerifySubkeyRevocationSignature pk sig signingKey)
  = value (r <- VerifySignature signingKey h0 sig ;; ret (snd (fst r), snd r)).
Proof.
  intros Ha Hn Hw. rewrite <- (hashPreimage_preimage pk Hw).
  exact (keyRevocationHash_ExtCtx pk signingKey sig Ha Hn (wellFormed_fieldsPresent pk Hw)).
Qed.

End WithCollaborators.
#[local] Existing Instance Toy.collaborators.

Lemma keys_that_cannot_sign_verify_nothing_witness :
  CanSign Toy.elgamalKey = false /\
  value (VerifySignature Toy.elgamalKey (ExtCtx crypto_SHA256 []) Toy.rsaSig)
  = Ret (ExtCtx crypto_SHA256 [], Toy.rsaSig,
         Some (InvalidArgumentError "public key cannot generate signatures")) /\
  value (VerifyUserIdSignature Toy.elgamalKey Toy.abc Toy.rsaKey4 Toy.rsaSig)
  = Ret (Toy.rsaSig, Some (InvalidArgumentError "public key cannot generate signatures")).
Proof.
  assert (H : CanSign Toy.elgamalKey = false) by reflexivity.
  assert (Hp : fieldsPresent Toy.rsaKey4 = true) by (vm_compute; reflexivity).
  destruct (keys_that_cannot_sign_verify_nothing Toy.elgamalKey H)
    as (H1 & _ & _ & _ & H5).
  split; [exact H|]. split; [exact (H1 _ _)|].
  exact (H5 Toy.abc Toy.rsaKey4 Toy.rsaSig eq_refl Hp).
Defined.

Lemma VerifyUserIdSignature_hashes_witness :
  Hash_Available (Hash Toy.rsaSig) = true /\ Hash Toy.rsaSig <> crypto_SHA1 /\
  wellFormed Toy.rsaKey4 = true /\
  value (userIdSignatureHash Toy.abc Toy.rsaKey4 (Hash Toy.rsaSig))
  = Ret (Some (ExtCtx (Hash Toy.rsaSig)
                 (preimage Toy.rsaKey4 ++ [u8 0xb4]
                  ++ bigEndian 4 (Zlength Toy.abc) ++ Toy.abc)), None).
Proof.
  assert (H1 : Hash_Available (Hash Toy.rsaSig) = true) by reflexivity.
  assert (H2 : Hash Toy.rsaSig <> crypto_SHA1) by (vm_compute; discriminate).
  assert (H3 : wellFormed Toy.rsaKey4 = true) by (vm_compute; reflexivity).
  split; [exact H1|]. split; [exact H2|]. split; [exact H3|].
  exact (proj1 (VerifyUserIdSignature_hashes Toy.rsaKey4 Toy.rsaKey4 Toy.abc Toy.rsaSig
                  H1 H2 H3)).
Defined.

Lemma revocation_signatures_hash_witness :
  Hash_Available (Hash Toy.rsaSig) = true /\ Hash Toy.rsaSig <> crypto_SHA1 /\
  wellFormed Toy.subkey = true /\
  value (keyRevocationHash Toy.subkey (Hash Toy.rsaSig))
  = Ret (Some (ExtCtx (Hash Toy.rsaSig) (preimage Toy.subkey)), None) /\
  value (VerifySubkeyRevocationSignature Toy.subkey Toy.rsaSig Toy.rsaKey4)
  = value (r <- VerifySignature Toy.rsaKey4
                  (ExtCtx (Hash Toy.rsaSig) (preimage Toy.subkey)) Toy.rsaSig ;;
           ret (snd (fst r), snd r)).
Proof.
  assert (H1 : Hash_Available (Hash Toy.rsaSig) = true) by reflexivity.
  assert (H2 : Hash Toy.rsaSig <> crypto_SHA1) by (vm_compute; discriminate).
  assert (H3 : wellFormed Toy.subkey = true) by (vm_compute; reflexivity).
  split; [exact H1|]. split; [exact H2|]. split; [exact H3|].
  destruct (revocation_signatures_hash Toy.subkey Toy.rsaKey4 Toy.rsaSig H1 H2 H3)
    as (Hh & _ & Hs).
  split; [exact Hh | exact Hs].
Defined.

End KeySignatures.
(* ================================================================== *)
(** * More facts about package packet: parsing *)

Module ParseMore.
Import packet Spec Sha1Facts PacketFacts VerifyMore.

Section WithCollaborators.
Context {X : Collaborators}.

(** The readers of the algorithm-specific fields. *)
Definition readFields (pk1 : PublicKey) (r : Reader) : M (PublicKey * Reader * error) :=
  match switchAlgo (PubKeyAlgo pk1) with
  | CaseRSA => ret (parseRSA pk1 r)
  | CaseDSA => ret (parseDSA pk1 r)
  | CaseElGamal => ret (parseElGamal pk1 r)
  | CaseECDSA => ret (parseECDSA pk1 r)
  | CaseECDH => ret (parseECDH pk1 r)
  | CaseEdDSA => parseEdDSA pk1 r
  | CaseDefault =>
      ret (pk1, r,
           Some (UnsupportedError
                   (String.append "public key type: " (Itoa (PubKeyAlgo pk1)))))
  end.

Ltac destruct_readers :=
  repeat match goal with
  | |- context [MPI_ReadFrom ?r] => destruct (MPI_ReadFrom r) as [[? ?] [?|]]
  | |- context [OID_ReadFrom ?r] => destruct (OID_ReadFrom r) as [[? ?] [?|]]
  | |- context [FindByOid ?f] => destruct (FindByOid f) as [?|]
  | |- context [SigAlgorithm ?c] => destruct (SigAlgorithm c)
  | |- context [CurveType_ ?c] => destruct (CurveType_ c)
  | |- context [elliptic_Unmarshal ?c ?b] => destruct (elliptic_Unmarshal c b) as [[? ?]|]
  | |- context [HashById ?b] => destruct (HashById b) as [?|]
  | |- context [CipherById ?b] => destruct (CipherById b) as [?|]
  | |- context [if ?c then _ else _] => destruct c
  | |- context [match Bytes ?f with _ => _ end] => destruct (Bytes f) as [|? ?]
  end.

(** The readers leave the fingerprint and the key id alone. *)
Lemma readFields_keep (pk1 pk2 : PublicKey) (r r2 : Reader) (err : error) :
  value (readFields pk1 r) = Ret (pk2, r2, err) ->
  Fingerprint pk2 = Fingerprint pk1 /\ KeyId pk2 = KeyId pk1.
Proof.
  unfold readFields.
  destruct pk1 as [v t a k fpr kid sub fn fe fp' fq fg fy foid fkdf].
  cbn [PubKeyAlgo].
  destruct (switchAlgo a); cbn [value ret fst].
  - unfold parseRSA. destruct_readers; intros H; injection H as <- _ _; split; reflexivity.
  - unfold parseDSA. destruct_readers; intros H; injection H as <- _ _; split; reflexivity.
  - unfold parseElGamal. destruct_readers; intros H; injection H as <- _ _; split; reflexivity.
  - unfold parseECDSA. destruct_readers; intros H; injection H as <- _ _; split; reflexivity.
  - unfold parseECDH. cbv zeta.
    destruct_readers; cbn [fst snd]; intros H; injection H as <- _ _; split; reflexivity.
  - unfold parseEdDSA. cbv zeta.
    destruct_readers; intros H; try discriminate H; injection H as <- _ _; split; reflexivity.
  - intros H; injection H as <- _ _; split; reflexivity.
Qed.

Lemma parseEdDSA_panics_once (pk1 : PublicKey) (r : Reader) (msg : string) :
  value (parseEdDSA pk1 r) = Panic msg -> msg = "index out of range [0] with length 0".
Proof.
  unfold parseEdDSA. cbv zeta.
  destruct_readers; intros H; try discriminate H; injection H as <-; reflexivity.
Qed.

Lemma switchAlgo_EdDSA (a : Z) : switchAlgo a = CaseEdDSA -> a = PubKeyAlgoEdDSA.
Proof.
  unfold switchAlgo.
  destruct ((a =? PubKeyAlgoRSA) || (a =? PubKeyAlgoRSAEncryptOnly)
            || (a =? PubKeyAlgoRSASignOnly)); [discriminate|].
  destruct (a =? PubKeyAlgoDSA); [discriminate|].
  destruct (a =? PubKeyAlgoElGamal); [discriminate|].
  destruct (a =? PubKeyAlgoECDSA); [discriminate|].
  destruct (a =? PubKeyAlgoECDH); [discriminate|].
  destruct (Z.eqb_spec a PubKeyAlgoEdDSA); [auto | discriminate].
Qed.

(** [parse] panics in one way only, on a packet of algorithm EdDSA, at the
    index into the bytes of the point .  On
    every other input it returns, and when it returns an error the
    fingerprint and the key id of the key are as they were, although the
    version, the time, the algorithm and the fields may have been
    overwritten. *)
Theorem parse_failures (pk : PublicKey) (r : Reader) :
  (forall msg, value (parse pk r) = Panic msg ->
     msg = "index out of range [0] with length 0" /\
     Z_of_byte (nth 5 r x00) = PubKeyAlgoEdDSA) /\
  (forall pk' r' err, value (parse pk r) = Ret (pk', r', Some err) ->
     Fingerprint pk' = Fingerprint pk /\ KeyId pk' = KeyId pk).
Proof.
  unfold parse.
  destruct (readFull r 6) as [[buf r1] [e1|]] eqn:E1.
  { split; [discriminate|]. intros pk' r' err H. injection H as <- _ _. split; reflexivity. }
  apply readFull_ok in E1 as [-> Hbuf]; [|lia].
  rewrite Zlength_correct in Hbuf.
  destruct buf as [|v [|t3 [|t2 [|t1 [|t0 [|a [|? ?]]]]]]]; cbn in Hbuf; try lia.
  cbn [nth app].
  destruct (negb (Z_of_byte v =? 4) && negb (Z_of_byte v =? 5)).
  { split; [discriminate|]. intros pk' r' err H. injection H as <- _ _. split; reflexivity. }
  match goal with
  | |- context [readFull r1 4] =>
      destruct (if Version (set_Version pk (Z_of_byte v)) =? 5 then readFull r1 4
                else ([], r1, None)) as [[count r0] [e2|]]
  end.
  { split; [discriminate|]. intros pk' r' err H. injection H as <- _ _.
    destruct pk; split; reflexivity. }
  set (pk1 := set_PubKeyAlgo _ _).
  assert (Hk1 : Fingerprint pk1 = Fingerprint pk /\ KeyId pk1 = KeyId pk)
    by (unfold pk1; destruct pk; split; reflexivity).
  assert (Ea : PubKeyAlgo pk1 = Z_of_byte a) by (unfold pk1; destruct pk; reflexivity).
  change (match switchAlgo (PubKeyAlgo pk1) with
          | CaseRSA => ret (parseRSA pk1 r0)
          | CaseDSA => ret (parseDSA pk1 r0)
          | CaseElGamal => ret (parseElGamal pk1 r0)
          | CaseECDSA => ret (parseECDSA pk1 r0)
          | CaseECDH => ret (parseECDH pk1 r0)
          | CaseEdDSA => parseEdDSA pk1 r0
          | CaseDefault =>
              ret (pk1, r0,
                   Some (UnsupportedError
                           (String.append "public key type: " (Itoa (PubKeyAlgo pk1)))))
          end) with (readFields pk1 r0).
  rewrite value_bind.
  destruct (value (readFields pk1 r0)) as [[[pk2 r2] [err2|]]|msg2] eqn:Ed.
  - split; [discriminate|]. intros pk' r' err H. cbn in H. injection H as <- _ _.
    destruct (readFields_keep pk1 pk2 r0 r2 _ Ed) as [F K].
    destruct Hk1 as [F1 K1]. split; congruence.
  - pose proof (readers_fill_fields pk1 pk2 r0 r2 Ed) as Hfill.
    destruct (setFingerprintAndKeyId_derived pk2 Hfill) as (pk3 & Hv3 & _ & _).
    rewrite value_bind, Hv3. split; discriminate.
  - split; [|discriminate]. intros msg H. injection H as <-.
    unfold readFields in Ed. rewrite Ea in Ed.
    destruct (switchAlgo (Z_of_byte a)) eqn:Es; try discriminate Ed.
    split; [exact (parseEdDSA_panics_once pk1 r0 msg2 Ed)|].
    apply switchAlgo_EdDSA. exact Es.
Qed.

(** *** What [parse] accepts *)

Ltac read_ok :=
  repeat match goal with
  | |- context [MPI_ReadFrom ?r] =>
      let f := fresh "f" in
      let r' := fresh "r" in
      let E := fresh "E" in
      let W := fresh "W" in
      destruct (MPI_ReadFrom r) as [[f r'] [?|]] eqn:E; [discriminate|];
      apply MPI_ReadFrom_ok in E as [W ->]
  | |- context [OID_ReadFrom ?r] =>
      let f := fresh "f" in
      let r' := fresh "r" in
      let E := fresh "E" in
      let W := fresh "W" in
      destruct (OID_ReadFrom r) as [[f r'] [?|]] eqn:E; [discriminate|];
      apply OID_ReadFrom_ok in E as [W ->]
  end.

Ltac read_done Ea :=
  let H := fresh "H" in
  intros H; injection H as <- <-;
  cbv beta iota delta [fieldBytes declaredFields
    set_n set_e set_p set_q set_g set_y set_oid set_kdf set_PublicKey
    Version CreationTime PubKeyAlgo IsSubkey n e p q g y oid kdf];
  rewrite Ea; cbn [forallb map List.concat fold_right];
  repeat match goal with W : wfField _ = true |- _ => rewrite W; clear W end;
  rewrite <- ?app_assoc, ?app_nil_r;
  repeat split; reflexivity.

(** The fields that are read without error are well formed, they are the
    fields of the algorithm, and their encodings are the bytes consumed. *)
Lemma readFields_consumed (pk1 pk2 : PublicKey) (r0 r2 : Reader) :
  value (readFields pk1 r0) = Ret (pk2, r2, None) ->
  forallb (fun f => match f with Some f => wfField f | None => false end)
          (declaredFields pk2) = true /\
  r0 = fieldBytes pk2 ++ r2 /\
  Version pk2 = Version pk1 /\ CreationTime pk2 = CreationTime pk1 /\
  PubKeyAlgo pk2 = PubKeyAlgo pk1 /\ IsSubkey pk2 = IsSubkey pk1.
Proof.
  unfold readFields.
  destruct pk1 as [v t a k fpr kid sub fn fe fp' fq fg fy foid fkdf].
  cbn [PubKeyAlgo].
  destruct (switchAlgo a) eqn:Ea; cbn [value ret fst].
  - unfold parseRSA. read_ok. destruct (3 <? _); [discriminate|]. read_done Ea.
  - unfold parseDSA. read_ok. read_done Ea.
  - unfold parseElGamal. read_ok. read_done Ea.
  - unfold parseECDSA. read_ok.
    destruct (FindByOid _) as [ci|]; [|discriminate].
    destruct (SigAlgorithm ci); [|discriminate].
    destruct (elliptic_Unmarshal _ _) as [[? ?]|]; [|discriminate].
    read_done Ea.
  - unfold parseECDH. read_ok.
    destruct (FindByOid _) as [ci|]; [|discriminate].
    destruct (fst _); [|discriminate].
    destruct (_ <? 3); [discriminate|].
    destruct (negb _); [discriminate|].
    destruct (HashById _); [|discriminate].
    destruct (CipherById _); [|discriminate].
    read_done Ea.
  - unfold parseEdDSA.
    destruct (OID_ReadFrom r0) as [[f0 r1] [?|]] eqn:E0; [discriminate|].
    apply OID_ReadFrom_ok in E0 as [W0 ->].
    destruct (FindByOid _) as [ci|]; [|discriminate].
    destruct (SigAlgorithm ci); [discriminate|].
    destruct (MPI_ReadFrom _) as [[f1 r3] [?|]] eqn:E1; [discriminate|].
    apply MPI_ReadFrom_ok in E1 as [W1 ->].
    destruct (Bytes _) as [|flag rest]; [discriminate|].
    destruct (Z_of_byte flag =? 4); [discriminate|].
    destruct (Z_of_byte flag =? 64); [|discriminate].
    read_done Ea.
  - discriminate.
Qed.

Lemma bigEndian_4_bytes (t3 t2 t1 t0 : byte) :
  bigEndian 4 (uint32 (Z.lor (Z.lor (Z.lor (uint32 (Z.shiftl (Z_of_byte t3) 24))
                                           (uint32 (Z.shiftl (Z_of_byte t2) 16)))
                                    (uint32 (Z.shiftl (Z_of_byte t1) 8)))
                             (Z_of_byte t0)))
  = [t3; t2; t1; t0].
Proof.
  rewrite bigEndian_4. unfold uint32.
  repeat (f_equal; [apply Z_of_byte_inj; rewrite Z_of_byte_u8; change 256 with (2 ^ 8);
                    bits_by_cases|]).
  f_equal. apply Z_of_byte_inj. rewrite Z_of_byte_u8. change 256 with (2 ^ 8).
  bits_by_cases.
Qed.

Lemma parse_accepted (pk pk' : PublicKey) (r r' : Reader) :
  value (parse pk r) = Ret (pk', r', None) ->
  wellFormed pk' = true /\
  IsSubkey pk' = IsSubkey pk /\
  (exists count,
     r = [u8 (Version pk')] ++ bigEndian 4 (CreationTime pk') ++ [u8 (PubKeyAlgo pk')]
         ++ count ++ fieldBytes pk' ++ r' /\
     if Version pk' =? 5 then Zlength count = 4 else count = []).
Proof.
  intros H. destruct (parse_shape pk pk' r r' H)
    as (v & t3 & t2 & t1 & t0 & a & count & r0 & -> & Hv).
  rewrite (parse_header pk v t3 t2 t1 t0 a count r0 Hv) in H.
  set (pk1 := set_PubKeyAlgo _ _) in H.
  assert (Ea : PubKeyAlgo pk1 = Z_of_byte a) by (unfold pk1; destruct pk; reflexivity).
  assert (Ev : Version pk1 = Z_of_byte v) by (unfold pk1; destruct pk; reflexivity).
  assert (Es : IsSubkey pk1 = IsSubkey pk) by (unfold pk1; destruct pk; reflexivity).
  assert (Et : bigEndian 4 (CreationTime pk1) = [t3; t2; t1; t0]).
  { unfold pk1; destruct pk;
      cbn [CreationTime set_PubKeyAlgo set_CreationTime set_Version].
    apply bigEndian_4_bytes. }
  assert (Et' : 0 <= CreationTime pk1 < 2 ^ 32).
  { unfold pk1; destruct pk;
      cbn [CreationTime set_PubKeyAlgo set_CreationTime set_Version].
    unfold uint32 at 1. apply Z.mod_pos_bound. lia. }
  pose proof (readers_fill_fields pk1) as Hfill. rewrite Ea in Hfill.
  pose proof (readFields_consumed pk1) as Hcons. unfold readFields in Hcons.
  rewrite Ea in Hcons.
  destruct (value _) as [[[pk2 r2] [err|]]|msg] eqn:Ed in H; try discriminate.
  specialize (Hfill pk2 r0 r2 Ed).
  destruct (Hcons pk2 r0 r2 Ed) as (Hwf & -> & Hv2 & Ht2 & Ha2 & Hs2).
  destruct (setFingerprintAndKeyId_value pk2 Hfill) as (F & _ & Hv3).
  rewrite Hv3 in H. injection H as <- <-.
  set (pk3 := set_KeyId _ _).
  assert (E3 : Version pk3 = Z_of_byte v /\ CreationTime pk3 = CreationTime pk1 /\
               PubKeyAlgo pk3 = Z_of_byte a /\ IsSubkey pk3 = IsSubkey pk /\
               declaredFields pk3 = declaredFields pk2 /\
               knownAlgorithm pk3 = knownAlgorithm pk2).
  { unfold pk3. destruct pk2. cbn in *. repeat split; congruence. }
  destruct E3 as (V3 & T3 & A3 & S3 & D3 & K3).
  assert (F3 : fieldBytes pk3 = fieldBytes pk2) by (unfold fieldBytes; now rewrite D3).
  split; [|split; [exact S3|]].
  - unfold wellFormed. rewrite V3, T3, K3, D3, Hwf.
    unfold fieldsPresent in Hfill. apply andb_prop in Hfill as [-> _].
    replace ((Z_of_byte v =? 4) || (Z_of_byte v =? 5)) with true
      by (destruct Hv as [[-> _] | [-> _]]; reflexivity).
    replace (0 <=? CreationTime pk1) with true by (symmetry; apply Z.leb_le; lia).
    replace (CreationTime pk1 <? 2 ^ 32) with true by (symmetry; apply Z.ltb_lt; lia).
    reflexivity.
  - exists count. split.
    + rewrite V3, T3, A3, F3, Et, !u8_Z_of_byte. reflexivity.
    + rewrite V3. destruct Hv as [[-> ->] | [-> Hc]]; [reflexivity | exact Hc].
Qed.

(** A packet that [parse] accepts gives a well-formed key, and the packet
    is the encoding of that key: the version, the four bytes of the time,
    the algorithm, for version 5 four bytes that are not looked at, and the
    fields of the key, each in its encoding; what follows is left in the
    reader.  [serializeWithoutHeaders] writes the key back, and for a
    version 4 packet it writes the very bytes that were read. *)
Theorem parse_then_serialize (pk pk' : PublicKey) (r r' : Reader) :
  value (parse pk r) = Ret (pk', r', None) ->
  wellFormed pk' = true /\
  IsSubkey pk' = IsSubkey pk /\
  (exists count,
     r = [u8 (Version pk')] ++ bigEndian 4 (CreationTime pk') ++ [u8 (PubKeyAlgo pk')]
         ++ count ++ fieldBytes pk' ++ r' /\
     if Version pk' =? 5 then Zlength count = 4 else count = []) /\
  (forall buf : list byte,
     value (serializeWithoutHeaders pk' buf) = Ret (buf ++ preimageBody pk', None)) /\
  (Version pk' = 4 -> r = preimageBody pk' ++ r').
Proof.
  intros H. destruct (parse_accepted pk pk' r r' H) as (Hwf & Hs & count & Hr & Hc).
  split; [exact Hwf|]. split; [exact Hs|]. split; [exists count; split; assumption|].
  split.
  - intros buf. apply serializeWithoutHeaders_body. exact Hwf.
  - intros V4. rewrite Hr. unfold preimageBody. rewrite V4 in *. cbn [Z.eqb Pos.eqb] in *.
    subst count. rewrite <- !app_assoc. reflexivity.
Qed.

(** On a key that [parse] has accepted the accessors return: [BitLength]
    gives, without error, the bit length of a field of the key (the first
    one for RSA, DSA and ElGamal, the one after the curve for the others),
    which is below 2^16, and [KeyIdString] and [KeyIdShortString]
    do not run out of the fingerprint; for a version 4 key the two strings
    are the key id and its low four bytes in capital hexadecimal. *)
Theorem accessors_of_a_parsed_key (pk pk' : PublicKey) (r r' : Reader) :
  value (parse pk r) = Ret (pk', r', None) ->
  (exists f,
     nth (match switchAlgo (PubKeyAlgo pk') with
          | CaseRSA | CaseDSA | CaseElGamal => 0
          | _ => 1
          end) (declaredFields pk') None = Some f /\
     value (BitLength pk') = Ret (encoding.BitLength f, None) /\
     0 <= encoding.BitLength f < 2 ^ 16) /\
  (exists s1 s2,
     value (KeyIdString pk') = Ret s1 /\ value (KeyIdShortString pk') = Ret s2 /\
     (Version pk' = 4 ->
        s1 = Sprintf_X (PutUint64 (KeyId pk')) /\
        s2 = Sprintf_X (slice 4 8 (PutUint64 (KeyId pk'))))).
Proof.
  intros H. destruct (parse_accepted pk pk' r r' H) as (Hwf & _ & _).
  pose proof (parse_derived pk pk' r r' H) as Hd.
  split.
  - assert (Hrange : forall f, wfField f = true -> 0 <= encoding.BitLength f < 2 ^ 16).
    { intros [bl b|b]; cbn [wfField encoding.BitLength].
      - intros W. apply andb_prop in W as [W _]. apply andb_prop in W as [W1 W2].
        apply Z.leb_le in W1. apply Z.ltb_lt in W2. lia.
      - intros _. unfold uint16. apply Z.mod_pos_bound. lia. }
    unfold wellFormed in Hwf. apply andb_prop in Hwf as [Hwf Hf].
    apply andb_prop in Hwf as [_ Hk].
    unfold knownAlgorithm in Hk. unfold declaredFields in *. unfold BitLength.
    destruct (switchAlgo (PubKeyAlgo pk')); try discriminate Hk;
      cbn [forallb nth] in *;
      repeat (let W := fresh "W" in apply andb_prop in Hf as [W Hf]);
      repeat match goal with
      | W : match ?o with Some _ => _ | None => _ end = true |- _ =>
          destruct o as [?f|]; [|discriminate W]
      end;
      eexists; (split; [reflexivity|]); (split; [reflexivity|]); apply Hrange; assumption.
  - unfold wellFormed in Hwf. apply andb_prop in Hwf as [Hwf _].
    apply andb_prop in Hwf as [Hwf _]. apply andb_prop in Hwf as [Hwf _].
    apply andb_prop in Hwf as [Hver _].
    apply orb_prop in Hver as [V|V]; apply Z.eqb_eq in V.
    + destruct (KeyIdString_v4 pk' Hd V) as [E1 E2].
      eexists _, _. split; [exact E1|]. split; [exact E2|]. intros _. split; reflexivity.
    + destruct (KeyIdString_v5 pk' Hd V) as (E1 & E2 & _).
      eexists _, _. split; [exact E1|]. split; [exact E2|]. intros V4. congruence.
Qed.

End WithCollaborators.
#[local] Existing Instance Toy.collaborators.

Lemma parsedRsa_parsed :
  value (parse zeroPublicKey Toy.rsaPacket) = Ret (Toy.parsedRsa, [], None).
Proof. vm_compute. reflexivity. Qed.

Lemma parse_failures_witness :
  value (parse zeroPublicKey Toy.eddsaPacket)
  = Panic "index out of range [0] with length 0" /\
  Z_of_byte (nth 5 Toy.eddsaPacket x00) = PubKeyAlgoEdDSA /\
  exists pk' r' err,
    value (parse zeroPublicKey Toy.version3Packet) = Ret (pk', r', Some err) /\
    Fingerprint pk' = Fingerprint zeroPublicKey /\ KeyId pk' = KeyId zeroPublicKey.
Proof.
  assert (H : value (parse zeroPublicKey Toy.eddsaPacket)
              = Panic "index out of range [0] with length 0") by (vm_compute; reflexivity).
  assert (H3 : value (parse zeroPublicKey Toy.version3Packet)
               = Ret (zeroPublicKey, Toy.rsaFieldsBytes,
                      Some (UnsupportedError "public key version 3")))
    by (vm_compute; reflexivity).
  split; [exact H|].
  split; [exact (proj2 (proj1 (parse_failures zeroPublicKey Toy.eddsaPacket) _ H))|].
  eexists _, _, _. split; [exact H3|].
  exact (proj2 (parse_failures zeroPublicKey Toy.version3Packet) _ _ _ H3).
Defined.

Lemma parse_then_serialize_witness :
  value (parse zeroPublicKey Toy.rsaPacket) = Ret (Toy.parsedRsa, [], None) /\
  wellFormed Toy.parsedRsa = true /\
  value (serializeWithoutHeaders Toy.parsedRsa ([] : list byte))
  = Ret ([] ++ preimageBody Toy.parsedRsa, None) /\
  Toy.rsaPacket = preimageBody Toy.parsedRsa ++ [].
Proof.
  pose proof parsedRsa_parsed as H.
  destruct (parse_then_serialize _ _ _ _ H) as (Hwf & _ & _ & Hs & Hr).
  split; [exact H|]. split; [exact Hwf|]. split; [exact (Hs [])|].
  apply Hr. vm_compute. reflexivity.
Defined.

Lemma accessors_of_a_parsed_key_witness :
  value (parse zeroPublicKey Toy.rsaPacket) = Ret (Toy.parsedRsa, [], None) /\
  (exists f, value (BitLength Toy.parsedRsa) = Ret (encoding.BitLength f, None)) /\
  exists s1 s2,
    value (KeyIdString Toy.parsedRsa) = Ret s1 /\
    value (KeyIdShortString Toy.parsedRsa) = Ret s2.
Proof.
  pose proof parsedRsa_parsed as H.
  destruct (accessors_of_a_parsed_key _ _ _ _ H)
    as ((f & _ & Hb & _) & s1 & s2 & H1 & H2 & _).
  split; [exact H|]. split; [exists f; exact Hb|].
  exists s1, s2. split; assumption.
Defined.

End ParseMore.

(* ================================================================== *)
(** * More facts about package packet: derivation and hash functions *)

Module DeriveMore.
Import packet Spec Sha1Facts PacketFacts VerifyMore.

Section WithCollaborators.
Context {X : Collaborators}.

(** [setFingerprintAndKeyId] does not read the fingerprint or the key id. *)
Lemma setFingerprintAndKeyId_ignores (pk : PublicKey) (fpr : list byte) (kid : Z) :
  setFingerprintAndKeyId (set_KeyId (set_Fingerprint pk fpr) kid)
  = setFingerprintAndKeyId pk.
Proof. destruct pk. reflexivity. Qed.

(** Deriving the fingerprint and the key id twice is the same as deriving
    them once, and so is upgrading twice; an upgrade gives the same key
    whether or not the fingerprint of the version before had been
    derived. *)
Theorem derivation_is_idempotent (pk : PublicKey) :
  fieldsPresent pk = true ->
  exists pk' pk5,
    value (setFingerprintAndKeyId pk) = Ret pk' /\
    value (setFingerprintAndKeyId pk') = Ret pk' /\
    value (UpgradeToV5 pk) = Ret pk5 /\
    value (UpgradeToV5 pk') = Ret pk5 /\
    value (UpgradeToV5 pk5) = Ret pk5.
Proof.
  intros Hp.
  destruct (setFingerprintAndKeyId_value pk Hp) as (F & _ & Hv).
  assert (Hp5 : fieldsPresent (set_Version pk 5) = true) by (destruct pk; exact Hp).
  destruct (setFingerprintAndKeyId_value _ Hp5) as (F5 & _ & Hv5).
  eexists _, _. split; [exact Hv|].
  split; [rewrite setFingerprintAndKeyId_ignores; exact Hv|].
  unfold UpgradeToV5. split; [exact Hv5|]. split; exact Hv5.
Qed.

(** A signature whose hash function is not available is turned down before
    anything is hashed or verified, whatever the keys are: each of the
    four checks returns the unsupported-feature error
    [hash function] and the signature as it was. *)
Theorem unavailable_hash_is_unsupported (pk signed signingKey : PublicKey)
    (id : list byte) (sig : Signature) :
  Hash_Available (Hash sig) = false ->
  value (VerifyKeySignature pk signed sig)
    = Ret (sig, Some (UnsupportedError "hash function")) /\
  value (VerifyRevocationSignature pk sig)
    = Ret (sig, Some (UnsupportedError "hash function")) /\
  value (VerifySubkeyRevocationSignature pk sig signingKey)
    = Ret (sig, Some (UnsupportedError "hash function")) /\
  value (VerifyUserIdSignature pk id signed sig)
    = Ret (sig, Some (UnsupportedError "hash function")).
Proof.
  intros Ha.
  unfold VerifyKeySignature, VerifyRevocationSignature, VerifySubkeyRevocationSignature,
    VerifyUserIdSignature, keySignatureHash, keyRevocationHash, userIdSignatureHash.
  rewrite Ha. cbn [negb].
  repeat split; repeat vstep; reflexivity.
Qed.

End WithCollaborators.
#[local] Existing Instance Toy.collaborators.

Lemma derivation_is_idempotent_witness :
  fieldsPresent (Toy.rsaFields 4) = true /\
  exists pk',
    value (setFingerprintAndKeyId (Toy.rsaFields 4)) = Ret pk' /\
    value (setFingerprintAndKeyId pk') = Ret pk'.
Proof.
  assert (H : fieldsPresent (Toy.rsaFields 4) = true) by (vm_compute; reflexivity).
  destruct (derivation_is_idempotent (Toy.rsaFields 4) H) as (pk' & _ & H1 & H2 & _).
  split; [exact H|]. exists pk'. split; assumption.
Defined.

Lemma unavailable_hash_is_unsupported_witness :
  @Hash_Available Toy.noHash (Hash Toy.rsaSig) = false /\
  value (@VerifyKeySignature Toy.noHash zeroPublicKey zeroPublicKey Toy.rsaSig)
  = Ret (Toy.rsaSig, Some (UnsupportedError "hash function")).
Proof.
  assert (H : @Hash_Available Toy.noHash (Hash Toy.rsaSig) = false) by reflexivity.
  split; [exact H|].
  exact (proj1 (@unavailable_hash_is_unsupported Toy.noHash zeroPublicKey zeroPublicKey
                  zeroPublicKey [] Toy.rsaSig H)).
Defined.

End DeriveMore.

(* ================================================================== *)
(** * The derivation of the fingerprint and the key id *)

Module Fingerprints.
Import packet Spec Sha1Facts PacketFacts VerifyMore ParseMore.

(** ** The numbers the constructors encode *)




Section WithCollaborators.
Context {X : Collaborators}.

(** ** From what the code hashes to the preimage of the specification *)





End WithCollaborators.

#[local] Existing Instance Toy.collaborators.


End Fingerprints.
